(** * shi_generator: bucket selection, training-loop control and greedy decoding

    A shallow embedding of [seq2seq/shi_generator.py].

    Conventions of the embedding.
    - Python [float] values that take part in arithmetic are rationals ([Q]):
      every finite double is a rational and comparisons of finite doubles
      are the comparisons of [Q].  The float operations [/] and [+] return
      the double nearest to the exact result ([Py.fround], round to nearest,
      ties to even, with the subnormal range); results beyond the largest
      double, which Python turns into [inf], are outside the embedding.
      Where the source can also meet [inf] and [nan] (the perplexity
      guard), the value is a [pyfloat].
    - Exceptions are the [Raise] branch of [Py.result]; calls on the
      TensorFlow session, the model object and [print] are events of a
      trace, threaded by the monad [Py.M].
    - The neural model ([seq2seq_model]), the vocabulary ([shi_util]) and the
      random sources are inputs: what they return is passed in. *)

From Stdlib Require Import String.
From Stdlib Require Import ZArith QArith Qround Qabs Qpower List Lia Bool Lqa.
Import ListNotations.

Open Scope Q_scope.

(* ================================================================== *)
(** * Python values, exceptions and effects *)

Module Py.

(** The exceptions the program can meet, told apart as far as the classes
    below.  [LookupError] stands for both of its subclasses: the
    [IndexError] of a sequence indexed out of range and the [KeyError] of a
    mapping that has no entry for a key. *)
Inductive exn : Set :=
| ZeroDivisionError
| ValueError
| AttributeError
| LookupError
| OverflowError.

Inductive result (A : Type) : Type :=
| Ok (a : A)
| Raise (e : exn).
Arguments Ok {A} a.
Arguments Raise {A} e.

Definition bind {A B} (r : result A) (k : A -> result B) : result B :=
  match r with
  | Ok a => k a
  | Raise e => Raise e
  end.

(** A list comprehension whose body may raise. *)
Fixpoint mapM {A B} (f : A -> result B) (l : list A) : result (list B) :=
  match l with
  | [] => Ok []
  | x :: xs =>
      bind (f x) (fun y => bind (mapM f xs) (fun ys => Ok (y :: ys)))
  end.

(** [a > b] and [a < b] on finite floats. *)
Definition Qgtb (a b : Q) : bool := negb (Qle_bool a b).
Definition Qltb (a b : Q) : bool := negb (Qle_bool b a).

(** Floats where the source may see the special values. *)
Inductive pyfloat : Set :=
| Fin (q : Q)
| PInf
| NInf
| NaN.

(** [a < b] on floats: every comparison with [nan] is [False]. *)
Definition flt (a b : pyfloat) : bool :=
  match a, b with
  | Fin x, Fin y => Qltb x y
  | Fin _, PInf => true
  | NInf, Fin _ => true
  | NInf, PInf => true
  | _, _ => false
  end.

(** [a >= b] on floats. *)
Definition fge (a b : pyfloat) : bool :=
  match a, b with
  | Fin x, Fin y => Qle_bool y x
  | PInf, Fin _ => true
  | Fin _, NInf => true
  | PInf, NInf => true
  | PInf, PInf => true
  | NInf, NInf => true
  | _, _ => false
  end.

(** The builtin [sum] over a list of ints: a left fold from 0. *)
Definition sum (l : list nat) : nat := fold_left Nat.add l 0%nat.

(** [float(n)] for a non-negative int (exact for the lengths a list can
    have, which are below [2 ^ 53]). *)
Definition float_of_nat (n : nat) : Q := inject_Z (Z.of_nat n).

(** ** Double-precision rounding

    [ilog2 q] is the exponent of the binade of a positive [q]:
    [2 ^ ilog2 q <= q < 2 ^ (ilog2 q + 1)]. *)
Definition ilog2 (q : Q) : Z :=
  let k := (Z.log2 (Qnum q) - Z.log2 (Zpos (Qden q)))%Z in
  if Qle_bool (2 ^ k) q then k else (k - 1)%Z.

(** The exponent of the last place of the double nearest to [q]: 53
    significant bits, and never below the subnormal spacing [2 ^ -1074]. *)
Definition fexp (q : Q) : Z := Z.max (ilog2 (Qabs q) - 52) (-1074).

(** The integer nearest to [x], the even one of the two when [x] is half
    way between them. *)
Definition round_half_even (x : Q) : Z :=
  let f := Qfloor x in
  match Qcompare (x - inject_Z f) (1 # 2) with
  | Lt => f
  | Gt => (f + 1)%Z
  | Eq => if Z.even f then f else (f + 1)%Z
  end.

(** The double nearest to [q], as a fraction in lowest terms. *)
Definition fround (q : Q) : Q :=
  if Qeq_bool q 0 then 0
  else let e := fexp q in
       Qred (inject_Z (round_half_even (q * 2 ^ (- e))) * 2 ^ e).

(** [a + b] on floats. *)
Definition fadd (a b : Q) : Q := fround (a + b).

(** True division [a / b] with a float operand: division by zero raises,
    otherwise the quotient is rounded to a double. *)
Definition truediv (a b : Q) : result Q :=
  if Qeq_bool b 0 then Raise ZeroDivisionError else Ok (fround (a / b)).

(** [a % b] on ints: the sign follows the divisor, as [Z.modulo]. *)
Definition mod_ (a b : Z) : result Z :=
  if (b =? 0)%Z then Raise ZeroDivisionError else Ok (a mod b)%Z.

(** The builtin [min] over a list of ints. *)
Definition min (l : list nat) : result nat :=
  match l with
  | [] => Raise ValueError
  | x :: xs => Ok (fold_left Nat.min xs x)
  end.

(** The builtin [max] over a list of floats: the running maximum is
    replaced only by a strictly greater item. *)
Definition max (l : list Q) : result Q :=
  match l with
  | [] => Raise ValueError
  | x :: xs => Ok (fold_left (fun m y => if Qgtb y m then y else m) xs x)
  end.

(** [l[i]] on a list, with Python's negative indices; out of range it
    raises [IndexError], a [LookupError]. *)
Definition getitem {A} (l : list A) (i : Z) : result A :=
  let n := Z.of_nat (length l) in
  let j := if (i <? 0)%Z then (i + n)%Z else i in
  if ((j <? 0) || (n <=? j))%Z then Raise LookupError
  else match nth_error l (Z.to_nat j) with
       | Some x => Ok x
       | None => Raise LookupError
       end.

(** [l[-3:]]. *)
Definition last3 {A} (l : list A) : list A := skipn (length l - 3) l.

(** [l.index(x)] on a list of ints. *)
Fixpoint index (l : list Z) (x : Z) : result nat :=
  match l with
  | [] => Raise ValueError
  | y :: ys => if (y =? x)%Z then Ok 0%nat
               else bind (index ys x) (fun i => Ok (S i))
  end.

(** [random.randint(lo, hi)], the draw being [raw]. *)
Definition randint (lo hi : Z) (raw : nat) : result Z :=
  if (hi <? lo)%Z then Raise ValueError
  else Ok (lo + Z.of_nat raw mod (hi - lo + 1))%Z.

(** ** Side effects of the program, in program order

    [PrintStats] is the statistics line of lines 168-170; the global step
    and the learning rate it also shows are read from the model. *)

Inductive event : Type :=
| PrintCreating (num_layers size : Z)   (* print("Creating %d layers ...") *)
| BuildModel (forward_only : bool)  (* seq2seq_model.Seq2SeqModel(...) *)
| RestoreModel (path : String.string)   (* model.saver.restore *)
| InitVariables        (* session.run(tf.global_variables_initializer()) *)
| ReadData (is_dev_set : bool)      (* shi_util.read_data(is_dev_set=...) *)
| LoadVocab                         (* shi_util.load_shi_vocab_mapping() *)
| GetBatch (bucket_id : Z)          (* model.get_batch(train_set, bucket_id) *)
| GetDevBatch (bucket_id : Z)       (* model.get_dev_batch(..., bucket_id) *)
| ModelStep (bucket_id : Z) (forward_only : bool)        (* model.step *)
| PrintStats (step_time : Q) (perplexity : pyfloat)
| RunDecayOp                        (* sess.run(model.learning_rate_decay_op) *)
| SaveCheckpoint                    (* model.saver.save *)
| PrintEmptyBucket (bucket_id : Z)
| PrintEvalPerplexity (bucket_id : Z) (eval_ppx : pyfloat)
| PrintLine (s : String.string)
| Prompt                            (* print("> ", end=...) *)
| Flush
| LogWarning (sentence : String.string).

(** Events so far, then a value or the exception that ended the run. *)
Definition M (A : Type) : Type := (list event * result A)%type.

Definition ret {A} (a : A) : M A := ([], Ok a).

Definition bindM {A B} (m : M A) (k : A -> M B) : M B :=
  match m with
  | (t, Ok a) => let (t', r) := k a in (t ++ t', r)
  | (t, Raise e) => (t, Raise e)
  end.

Definition emit (e : event) : M unit := ([e], Ok tt).

Definition lift {A} (r : result A) : M A := ([], r).

(** A [for] loop whose body may raise and emits events. *)
Fixpoint forM {A} (l : list A) (body : A -> M unit) : M unit :=
  match l with
  | [] => ret tt
  | x :: xs => bindM (body x) (fun _ => forM xs body)
  end.

Definition trace {A} (m : M A) : list event := fst m.
Definition outcome {A} (m : M A) : result A := snd m.

End Py.

Import Py.

Declare Scope py_scope.
Delimit Scope py_scope with py.
Notation "x <- r ;; k" := (bind r (fun x => k))
  (at level 61, r at next level, right associativity) : py_scope.
Notation "x <~ m ;; k" := (bindM m (fun x => k))
  (at level 61, m at next level, right associativity) : py_scope.
Notation "m ;;; k" := (bindM m (fun _ => k))
  (at level 61, right associativity) : py_scope.
Open Scope py_scope.

(* ================================================================== *)
(** * Bucket selector *)

Module BucketSelector.

(** [_buckets], line 88. *)
Definition _buckets : list (nat * nat) :=
  [(5, 6); (6, 7); (8, 9); (15, 16)]%nat.

(** ** Training mode, lines 132-139 and 150-152 *)

(** [train_total_size = float(sum(train_bucket_sizes))]. *)
Definition train_total_size (train_bucket_sizes : list nat) : Q :=
  float_of_nat (Py.sum train_bucket_sizes).

(** [[sum(train_bucket_sizes[:i + 1]) / train_total_size
      for i in xrange(len(train_bucket_sizes))]]. *)
Definition train_buckets_scale (train_bucket_sizes : list nat)
  : result (list Q) :=
  mapM (fun i =>
          truediv (float_of_nat (Py.sum (firstn (i + 1) train_bucket_sizes)))
                  (train_total_size train_bucket_sizes))
       (seq 0 (length train_bucket_sizes)).

(** [min([i for i in xrange(len(train_buckets_scale))
          if train_buckets_scale[i] > random_number_01])]. *)
Definition candidates (train_buckets_scale : list Q) (random_number_01 : Q)
  : list nat :=
  filter (fun i => Qgtb (nth i train_buckets_scale 0) random_number_01)
         (seq 0 (length train_buckets_scale)).

Definition select_bucket (train_buckets_scale : list Q) (random_number_01 : Q)
  : result nat :=
  Py.min (candidates train_buckets_scale random_number_01).

(** ** Decode mode, lines 243-249 *)

(** The [for i, bucket in enumerate(_buckets)] scan: [Some i] when the
    loop leaves through [break] at index [i], [None] when it runs to its
    [else] branch. *)
Fixpoint scan_buckets (buckets : list (nat * nat)) (i : nat) (len : nat)
  : option nat :=
  match buckets with
  | [] => None
  | bucket :: rest =>
      if (len <=? fst bucket)%nat then Some i
      else scan_buckets rest (S i) len
  end.

(** The bucket id and whether [logging.warning] was called. *)
Definition decode_bucket (buckets : list (nat * nat)) (len : nat)
  : Z * bool :=
  match scan_buckets buckets 0 len with
  | Some i => (Z.of_nat i, false)
  | None => (Z.of_nat (length buckets) - 1, true)%Z
  end.

End BucketSelector.

(* ================================================================== *)
(** * Perplexity, lines 167 and 188-189 *)

Module Perplexity.

Section MathExp.

(** [math.exp] is not computed here.  [exp_fl q] stands for the double it
    returns on the finite double [q]; [exp_max] is the largest argument
    whose exponential is still a finite double (about 709.78): above it
    [math.exp] raises [OverflowError]. *)
Variable exp_fl : Q -> Q.
Variable exp_max : Q.

Definition math_exp (x : pyfloat) : result pyfloat :=
  match x with
  | Fin q => if Qltb exp_max q then Raise OverflowError else Ok (Fin (exp_fl q))
  | PInf => Ok PInf
  | NInf => Ok (Fin 0)
  | NaN => Ok NaN
  end.

(** [math.exp(float(loss)) if loss < 300 else float("inf")], line 167. *)
Definition train_perplexity (loss : pyfloat) : result pyfloat :=
  if flt loss (Fin 300) then math_exp loss else Ok PInf.

(** [math.exp(float(eval_loss)) if eval_loss < 300 else float("inf")],
    lines 188-189. *)
Definition eval_perplexity (eval_loss : pyfloat) : result pyfloat :=
  if flt eval_loss (Fin 300) then math_exp eval_loss else Ok PInf.

End MathExp.

End Perplexity.

(* ================================================================== *)
(** * Token sequences: greedy argmax, cut at the end marker, detokenize *)

Module Tokens.

(** A token sequence is a Python list or a row of a numpy array.  Both
    support [x in s], slicing and iteration; only the list has [.index]. *)
Inductive pyseq : Set :=
| PyList (items : list Z)
| NdArray (items : list Z).

Definition items (s : pyseq) : list Z :=
  match s with
  | PyList l => l
  | NdArray l => l
  end.

(** [x in s]. *)
Definition contains (x : Z) (s : pyseq) : bool :=
  existsb (Z.eqb x) (items s).

(** [s.index(x)]: [numpy.ndarray] has no attribute [index]. *)
Definition seq_index (s : pyseq) (x : Z) : result nat :=
  match s with
  | PyList l => Py.index l x
  | NdArray _ => Raise AttributeError
  end.

(** [s[:n]]. *)
Definition slice_to (s : pyseq) (n : nat) : pyseq :=
  match s with
  | PyList l => PyList (firstn n l)
  | NdArray l => NdArray (firstn n l)
  end.

(** [np.argmax] along a vector of logits: the first index that holds the
    maximum; an empty vector raises. *)
Fixpoint argmax_from (row : list Q) (i best : nat) (best_val : Q) : nat :=
  match row with
  | [] => best
  | x :: xs =>
      if Qgtb x best_val then argmax_from xs (S i) i x
      else argmax_from xs (S i) best best_val
  end.

Definition argmax (row : list Q) : result Z :=
  match row with
  | [] => Raise ValueError
  | x :: xs => Ok (Z.of_nat (argmax_from xs 1 0 x))
  end.

(** [m.transpose()] of a rectangular matrix given as a list of rows. *)
Definition transpose (m : list (list Z)) : list (list Z) :=
  match m with
  | [] => []
  | r :: _ => map (fun j => map (fun row => nth j row 0%Z) m)
                  (seq 0 (length r))
  end.

(** [np.argmax(output_logits, axis=2).transpose()], line 194:
    [output_logits] is indexed by timestep, batch position, vocabulary id;
    the result by batch position, timestep.  The logits are taken as the
    model returns them, rectangular and with at least one batch position
    per timestep.  An empty list of timesteps is an array without an
    axis 2: numpy raises [AxisError], a [ValueError]. *)
Definition greedy_outputs (output_logits : list (list (list Q)))
  : result (list (list Z)) :=
  match output_logits with
  | [] => Raise ValueError
  | _ =>
      am <- mapM (mapM argmax) output_logits ;;
      Ok (transpose am)
  end.

Section Vocabulary.

(** [data_utils.EOS_ID] and the id-to-word table of
    [shi_util.load_shi_vocab_mapping]; [i2w id = None] when the table has
    no entry for [id]. *)
Variable EOS_ID : Z.
Variable i2w : Z -> option String.string.

(** [if EOS_ID in text: text = text[:text.index(EOS_ID)]]. *)
Definition cut_at_eos (text : pyseq) : result pyseq :=
  if contains EOS_ID text then
    i <- seq_index text EOS_ID ;;
    Ok (slice_to text i)
  else Ok text.

(** [i2w[output]]: a table without an entry for [output] raises
    [KeyError] when it is a dict and [IndexError] when it is a list, a
    [LookupError] either way. *)
Definition lookup (output : Z) : result String.string :=
  match i2w output with
  | Some w => Ok w
  | None => Raise LookupError
  end.

(** [" ".join([tf.compat.as_str(i2w[output]) for output in text])]. *)
Definition join_tokens (text : pyseq) : result String.string :=
  ws <- mapM lookup (items text) ;;
  Ok (String.concat " "%string ws).

End Vocabulary.

End Tokens.

Import Tokens.

(* ================================================================== *)
(** * Evaluation on the development set, lines 180-220 *)

Module Reporter.

(** [_show_example_num], line 91. *)
Definition _show_example_num : nat := 5.

(** What [model.get_dev_batch] returns besides the padded batch: the
    token lists of the examples, one per batch position. *)
Record dev_batch : Set := {
  source : list pyseq;
  target : list pyseq
}.

(** What a forward-only [model.step] returns: the loss and the logits,
    indexed by timestep, batch position, vocabulary id. *)
Record step_result : Set := {
  eval_loss : pyfloat;
  output_logits : list (list (list Q))
}.

(** The collaborators of one evaluation pass, per bucket: the model and
    the draws of [randint]. *)
Record evaluator : Set := {
  get_dev_batch : nat -> dev_batch;
  step : nat -> step_result;
  draw : nat -> nat -> nat
}.

Section Evaluation.

Variable EOS_ID : Z.
Variable i2w : Z -> option String.string.
Variable exp_fl : Q -> Q.
Variable exp_max : Q.
(** [FLAGS.batch_size]. *)
Variable batch_size : Z.
(** [dev_set]: per bucket, the list of (source, target) examples. *)
Variable dev_set : list (list (list Z * list Z)).

(** One round of the loop of lines 197-220. *)
Definition show_example (source target : list pyseq)
           (outputs : list (list Z)) (raw : nat) : M unit :=
  index_to_show <~ lift (randint 0 (batch_size - 1) raw) ;;
  ori_text <~ lift (getitem source index_to_show) ;;
  target_text <~ lift (getitem target index_to_show) ;;
  out_row <~ lift (getitem outputs index_to_show) ;;
  let out_text := NdArray out_row in
  ori_text <~ lift (cut_at_eos EOS_ID ori_text) ;;
  emit (PrintLine "Original / generated / target text: ") ;;;
  line <~ lift (join_tokens i2w ori_text) ;;
  emit (PrintLine line) ;;;
  out_text <~ lift (cut_at_eos EOS_ID out_text) ;;
  line <~ lift (join_tokens i2w out_text) ;;
  emit (PrintLine line) ;;;
  target_text <~ lift (cut_at_eos EOS_ID target_text) ;;
  line <~ lift (join_tokens i2w target_text) ;;
  emit (PrintLine line).

(** The body of [for bucket_id in xrange(len(_buckets))], lines 181-220. *)
Definition eval_bucket (ev : evaluator) (bucket_id : nat) : M unit :=
  examples <~ lift (getitem dev_set (Z.of_nat bucket_id)) ;;
  if (length examples =? 0)%nat then
    emit (PrintEmptyBucket (Z.of_nat bucket_id))
  else
    emit (GetDevBatch (Z.of_nat bucket_id)) ;;;
    emit (ModelStep (Z.of_nat bucket_id) true) ;;;
    eval_ppx <~ lift (Perplexity.eval_perplexity exp_fl exp_max
                        (eval_loss (step ev bucket_id))) ;;
    emit (PrintEvalPerplexity (Z.of_nat bucket_id) eval_ppx) ;;;
    outputs <~ lift (greedy_outputs (output_logits (step ev bucket_id))) ;;
    forM (seq 0 _show_example_num)
         (fun i => show_example (source (get_dev_batch ev bucket_id))
                                (target (get_dev_batch ev bucket_id))
                                outputs (draw ev bucket_id i)).

(** The loop over the buckets [bucket_ids], in order. *)
Definition eval_buckets (ev : evaluator) (bucket_ids : list nat) : M unit :=
  forM bucket_ids (eval_bucket ev).

(** Lines 180-220. *)
Definition run_evals (ev : evaluator) : M unit :=
  eval_buckets ev (seq 0 (length BucketSelector._buckets)).

End Evaluation.

End Reporter.

(* ================================================================== *)
(** * Training: [create_model] and [train], lines 94-222 *)

Module Trainer.

Record train_state : Set := {
  step_time : Q;
  loss : Q;
  current_step : Z;
  previous_losses : list Q
}.

(** Lines 142-144. *)
Definition initial_state : train_state :=
  {| step_time := 0; loss := 0; current_step := 0; previous_losses := [] |}.

(** What one turn of [while True] receives from outside: the uniform draw,
    the wall-clock time of the step ([time.time() - start_time]), the loss
    [model.step] returns, both taken as Python floats, and the
    collaborators of the evaluation pass should this turn reach one. *)
Record iteration : Set := {
  random_number_01 : Q;
  elapsed : Q;
  step_loss : Q;
  evaluation : Reporter.evaluator
}.

(** Line 172: [len(previous_losses) > 2 and loss > max(previous_losses[-3:])];
    [and] does not evaluate its right operand when the left one is false. *)
Definition no_improvement (previous_losses : list Q) (loss : Q)
  : result bool :=
  if (2 <? length previous_losses)%nat then
    m <- Py.max (last3 previous_losses) ;;
    Ok (Qgtb loss m)
  else Ok false.

Section Loop.

Variable EOS_ID : Z.
Variable i2w : Z -> option String.string.
Variable exp_fl : Q -> Q.
Variable exp_max : Q.
Variable batch_size : Z.
(** [FLAGS.steps_per_checkpoint]. *)
Variable steps_per_checkpoint : Z.
Variable dev_set : list (list (list Z * list Z)).
Variable train_buckets_scale : list Q.

(** Lines 160-162: two float divisions and two float additions. *)
Definition accumulate (st : train_state) (it : iteration)
  : result train_state :=
  dt <- truediv (elapsed it) (inject_Z steps_per_checkpoint) ;;
  dl <- truediv (step_loss it) (inject_Z steps_per_checkpoint) ;;
  Ok {| step_time := fadd (step_time st) dt;
        loss := fadd (loss st) dl;
        current_step := current_step st + 1;
        previous_losses := previous_losses st |}.

(** Lines 166-178: statistics, learning-rate decay, history, checkpoint,
    reset of the accumulators. *)
Definition checkpoint (st : train_state) : M train_state :=
  perplexity <~ lift (Perplexity.train_perplexity exp_fl exp_max
                        (Fin (loss st))) ;;
  emit (PrintStats (step_time st) perplexity) ;;;
  decay <~ lift (no_improvement (previous_losses st) (loss st)) ;;
  (if decay : bool then emit RunDecayOp else ret tt) ;;;
  let previous_losses' := previous_losses st ++ [loss st] in
  emit SaveCheckpoint ;;;
  ret {| step_time := 0;
         loss := 0;
         current_step := current_step st;
         previous_losses := previous_losses' |}.

(** One turn of [while True], lines 148-222. *)
Definition train_iteration (st : train_state) (it : iteration)
  : M train_state :=
  bucket_id <~ lift (BucketSelector.select_bucket train_buckets_scale
                       (random_number_01 it)) ;;
  emit (GetBatch (Z.of_nat bucket_id)) ;;;
  emit (ModelStep (Z.of_nat bucket_id) false) ;;;
  st <~ lift (accumulate st it) ;;
  r <~ lift (mod_ (current_step st) steps_per_checkpoint) ;;
  if (r =? 0)%Z then
    st <~ checkpoint st ;;
    Reporter.run_evals EOS_ID i2w exp_fl exp_max batch_size dev_set
                       (evaluation it) ;;;
    emit Flush ;;;
    ret st
  else ret st.

(** The first turns of [while True], one per element of [its]. *)
Fixpoint train_loop (its : list iteration) (st : train_state)
  : M train_state :=
  match its with
  | [] => ret st
  | it :: rest => st <~ train_iteration st it ;; train_loop rest st
  end.

End Loop.

(** Line 132: [[len(train_set[b]) for b in xrange(len(_buckets))]]. *)
Definition train_bucket_sizes (train_set : list (list (list Z * list Z)))
  : result (list nat) :=
  mapM (fun b => examples <- getitem train_set (Z.of_nat b) ;;
                 Ok (length examples))
       (seq 0 (length BucketSelector._buckets)).

(** What the set-up lines read from outside: [FLAGS.num_layers] and
    [FLAGS.size], the checkpoint path of
    [tf.train.get_checkpoint_state(FLAGS.train_dir)] ([None] when there is
    no checkpoint state) and the answer of [tf.train.checkpoint_exists]. *)
Record setup : Set := {
  num_layers : Z;
  size : Z;
  ckpt : option String.string;
  checkpoint_exists : String.string -> bool
}.

(** [create_model(session, forward_only)], lines 94-116. *)
Definition create_model (su : setup) (forward_only : bool) : M unit :=
  emit (BuildModel forward_only) ;;;
  match ckpt su with
  | Some model_checkpoint_path =>
      if checkpoint_exists su model_checkpoint_path then
        emit (PrintLine (String.append "Reading model parameters from "
                                       model_checkpoint_path)) ;;;
        emit (RestoreModel model_checkpoint_path)
      else
        emit (PrintLine "Created model with fresh parameters.") ;;;
        emit InitVariables
  | None =>
      emit (PrintLine "Created model with fresh parameters.") ;;;
      emit InitVariables
  end.

(** [train()], lines 119-222, cut after the turns of [its]: the model is
    created and the two data sets are read ([dev_set] and [train_set] are
    what [shi_util.read_data] returns), the bucket sizes and the scale are
    computed once, the vocabulary is loaded, then the loop runs from the
    initial state. *)
Definition train (su : setup)
           (EOS_ID : Z) (i2w : Z -> option String.string)
           (exp_fl : Q -> Q) (exp_max : Q)
           (batch_size steps_per_checkpoint : Z)
           (dev_set train_set : list (list (list Z * list Z)))
           (its : list iteration) : M train_state :=
  emit (PrintCreating (num_layers su) (size su)) ;;;
  create_model su false ;;;
  emit (PrintLine "Reading development and training data.") ;;;
  emit (ReadData true) ;;;
  emit (ReadData false) ;;;
  sizes <~ lift (train_bucket_sizes train_set) ;;
  train_buckets_scale <~ lift (BucketSelector.train_buckets_scale sizes) ;;
  emit LoadVocab ;;;
  train_loop EOS_ID i2w exp_fl exp_max batch_size steps_per_checkpoint
             dev_set train_buckets_scale its initial_state.

End Trainer.

(* ================================================================== *)
(** * The decode loop, lines 238-270 *)

Module Decoder.

(** One line read from standard input: its text without the newline, the
    ids [shi_util.sentence_to_int_list] gives it, and the logits the model
    returns for it, one vocabulary vector per output timestep (the batch
    size is set to 1 at line 229). *)
Record request : Set := {
  sentence : String.string;
  token_ids : list Z;
  output_logits : list (list Q)
}.

Section Decode.

Variable EOS_ID : Z.
Variable i2w : Z -> option String.string.

(** Lines 260-264: greedy outputs, cut at the end marker. *)
Definition decode_outputs (output_logits : list (list Q)) : result pyseq :=
  outputs <- mapM argmax output_logits ;;
  cut_at_eos EOS_ID (PyList outputs).

(** The body of [while sentence], lines 240-268. *)
Definition decode_sentence (rq : request) : M unit :=
  let (bucket_id, truncated) :=
    BucketSelector.decode_bucket BucketSelector._buckets
                                 (length (token_ids rq)) in
  (if truncated : bool then emit (LogWarning (sentence rq)) else ret tt) ;;;
  emit (GetDevBatch bucket_id) ;;;
  emit (ModelStep bucket_id true) ;;;
  outputs <~ lift (decode_outputs (output_logits rq)) ;;
  line <~ lift (join_tokens i2w outputs) ;;
  emit (PrintLine line) ;;;
  emit Prompt ;;;
  emit Flush.

(** [decode()], lines 238-270: the loop over the lines read until the
    input is exhausted. *)
Definition decode (rqs : list request) : M unit :=
  forM rqs decode_sentence.

End Decode.

End Decoder.

(* ================================================================== *)
(** * Batch sampler: padded decoder row and weight mask *)

Module BatchSampler.

Section Padding.

Variable PAD_ID : Z.
Variable GO_ID : Z.

(** Modelled from the spec: the padded target of the Batch Sampler
    ([seq2seq_model.get_batch], which is not among the sources).
    Spec 4.2: the target is padded "with a reserved GO id at the front
    and PAD at the end up to output capacity, plus one extra slot for the
    terminal PAD"; spec 8: the row "begins with GO id, followed by
    [3,4], followed by PAD to capacity+1". *)
Definition pad_target (target : list Z) (output_capacity : nat) : list Z :=
  GO_ID :: target ++ repeat PAD_ID (output_capacity - length target).

(** Modelled from the spec: the weight of one position of one example
    ([seq2seq_model.get_batch], which is not among the sources).
    Spec 4.2: the weight is 1 for a real target token and 0 for padding;
    spec 8: for the row GO, 3, 4, PAD of a bucket of output capacity 3 the
    weight row is [1,1,0], "with last position forced 0 regardless of raw
    content".  So there is one weight per position up to the capacity, the
    weight of position [i] is that of the token which follows position
    [i] in the padded row, and the last position has weight 0. *)
Definition weight_at (padded : list Z) (output_capacity i : nat) : Q :=
  if (i =? output_capacity - 1)%nat then 0
  else if (nth (S i) padded PAD_ID =? PAD_ID)%Z then 0
  else 1.

(** Modelled from the spec: the weight row of one example
    ([seq2seq_model.get_batch], which is not among the sources), one
    weight per position up to the output capacity. *)
Definition weight_row (target : list Z) (output_capacity : nat) : list Q :=
  map (weight_at (pad_target target output_capacity) output_capacity)
      (seq 0 output_capacity).

(** Modelled from the spec: the weight matrix of a batch
    ([seq2seq_model.get_batch], which is not among the sources),
    time-major (spec 4.2: "matrices shaped [output/input
    capacity][batch_size]"). *)
Definition batch_weights (targets : list (list Z)) (output_capacity : nat)
  : list (list Q) :=
  map (fun i =>
         map (fun target =>
                weight_at (pad_target target output_capacity)
                          output_capacity i)
             targets)
      (seq 0 output_capacity).

End Padding.

End BatchSampler.

(* ================================================================== *)
(** * Sample data for the worked examples *)

Module Sample.

(** A six-word vocabulary; the four reserved ids come first, as in
    [data_utils] (PAD 0, GO 1, EOS 2, UNK 3). *)
Definition EOS_ID : Z := 2.

Definition i2w (id : Z) : option string :=
  if (id <? 0)%Z then None
  else nth_error ["_PAD"; "_GO"; "_EOS"; "_UNK"; "moon"; "river"]%string
                 (Z.to_nat id).

(** A stand-in for [math.exp]: the identity below the overflow threshold
    709.  The examples do not depend on the values it returns. *)
Definition exp_fl (q : Q) : Q := q.
Definition exp_max : Q := 709.

(** One-hot logits over the six ids. *)
Definition one_hot (id : nat) : list Q :=
  map (fun j => if (j =? id)%nat then 1 else 0) (seq 0 6).

(** A development set whose first bucket holds one example and whose
    other buckets are empty. *)
Definition dev_set : list (list (list Z * list Z)) :=
  [[([4; 5], [5; 4])]; []; []; []]%Z.

Definition no_dev_set : list (list (list Z * list Z)) := [[]; []; []; []].

(** A model that answers every bucket with a batch of one example and the
    greedy output [moon _EOS river]. *)
Definition evaluator_with_eos : Reporter.evaluator :=
  {| Reporter.get_dev_batch := fun _ =>
       {| Reporter.source := [PyList [4; 5; 2]%Z];
          Reporter.target := [PyList [5; 4; 2]%Z] |};
     Reporter.step := fun _ =>
       {| Reporter.eval_loss := Fin 1;
          Reporter.output_logits :=
            [[one_hot 4]; [one_hot 2]; [one_hot 5]] |};
     Reporter.draw := fun _ _ => 0%nat |}.

(** A decode request of eight tokens answered with [river moon _EOS moon]. *)
Definition request_8 : Decoder.request :=
  {| Decoder.sentence := "abcdefgh";
     Decoder.token_ids := [4; 5; 4; 5; 4; 5; 4; 5]%Z;
     Decoder.output_logits := [one_hot 5; one_hot 4; one_hot 2; one_hot 4] |}.

(** A decode request of twenty tokens, longer than every bucket. *)
Definition request_20 : Decoder.request :=
  {| Decoder.sentence := "abcdefghijklmnopqrst";
     Decoder.token_ids := repeat 4%Z 20;
     Decoder.output_logits := [one_hot 4; one_hot 2] |}.

(** A training set with bucket sizes 1, 0, 3, 0. *)
Definition train_set : list (list (list Z * list Z)) :=
  [[([4], [5])]; []; [([4], [5]); ([5], [4]); ([4; 5], [5; 4])]; []]%Z.

(** Two training turns, with step losses 3 and 5 and durations 2 and 4. *)
Definition turn_a : Trainer.iteration :=
  {| Trainer.random_number_01 := 1 # 10; Trainer.elapsed := 2;
     Trainer.step_loss := 3; Trainer.evaluation := evaluator_with_eos |}.

Definition turn_b : Trainer.iteration :=
  {| Trainer.random_number_01 := 7 # 10; Trainer.elapsed := 4;
     Trainer.step_loss := 5; Trainer.evaluation := evaluator_with_eos |}.

(** The scale of the occupancy vector [1, 0, 3, 0]. *)
Definition scale : list Q := [1 # 4; 1 # 4; 1; 1].

(** A first run: two layers of 300 units and no checkpoint on disk. *)
Definition fresh : Trainer.setup :=
  {| Trainer.num_layers := 2; Trainer.size := 300; Trainer.ckpt := None;
     Trainer.checkpoint_exists := fun _ => false |}.

(** The double nearest to one tenth, which Python prints as [0.1], and a
    training turn whose step loss it is. *)
Definition tenth : Q := 3602879701896397 # 36028797018963968.

(** Turns with step losses 1 and 2. *)
Definition turn_one : Trainer.iteration :=
  {| Trainer.random_number_01 := 1 # 10; Trainer.elapsed := 1;
     Trainer.step_loss := 1; Trainer.evaluation := evaluator_with_eos |}.

Definition turn_two : Trainer.iteration :=
  {| Trainer.random_number_01 := 1 # 10; Trainer.elapsed := 1;
     Trainer.step_loss := 2; Trainer.evaluation := evaluator_with_eos |}.

Definition turn_tenth : Trainer.iteration :=
  {| Trainer.random_number_01 := 1 # 10; Trainer.elapsed := 1;
     Trainer.step_loss := tenth; Trainer.evaluation := evaluator_with_eos |}.

(** The double nearest to two thirds, which Python prints as
    [0.6666666666666666]. *)
Definition two_thirds : Q := 6004799503160661 # 9007199254740992.

End Sample.

(* ================================================================== *)
(** * Notions of the specification *)

Module Spec.

(** [c_0 + ... + c_i]. *)
Fixpoint cumulative (c : list nat) (i : nat) : nat :=
  match i with
  | O => nth 0 c 0%nat
  | S j => (cumulative c j + nth (S j) c 0)%nat
  end.

(** The left end of the interval of draws that select bucket [i]:
    [scale_(i-1)], and 0 for the first bucket. *)
Definition lower (scale : list Q) (i : nat) : Q :=
  match i with
  | O => 0
  | S j => nth j scale 0
  end.

(** Bucket [i] is the first one of the list whose input capacity holds
    [len] tokens. *)
Definition first_fit (buckets : list (nat * nat)) (len i : nat) : Prop :=
  (i < length buckets)%nat /\
  (len <= fst (nth i buckets (0, 0)))%nat /\
  (forall j, (j < i)%nat -> (fst (nth j buckets (0, 0)) < len)%nat).

(** Index [k] holds the maximum of [row], and no earlier index does. *)
Definition is_first_argmax (row : list Q) (k : nat) : Prop :=
  (k < length row)%nat /\
  (forall j, (j < length row)%nat -> nth j row 0 <= nth k row 0) /\
  (forall j, (j < k)%nat -> nth j row 0 < nth k row 0).

(** [kept] is [ids] cut at the first occurrence of [eos], or the whole of
    [ids] when [eos] does not occur. *)
Definition cut_at_first (eos : Z) (ids kept : list Z) : Prop :=
  (~ In eos ids /\ kept = ids) \/
  (exists rest, ids = kept ++ eos :: rest /\ ~ In eos kept).

(** The last three entries of a history (all of it when it is shorter). *)
Definition last_three (history : list Q) : list Q :=
  rev (firstn 3 (rev history)).

(** [m] is the maximum of [l]. *)
Definition is_maximum (l : list Q) (m : Q) : Prop :=
  In m l /\ (forall x, In x l -> x <= m).

(** How many times the learning-rate decay was run in a trace. *)
Definition decay_runs (tr : list event) : nat :=
  length (filter (fun e => match e with RunDecayOp => true | _ => false end)
                 tr).

(** The arithmetic mean of a list of values. *)
Definition mean (l : list Q) : Q :=
  fold_right Qplus 0 l / inject_Z (Z.of_nat (length l)).

(** Every event of a computation satisfies [P]. *)
Definition only {A} (P : event -> Prop) (m : M A) : Prop :=
  Forall P (trace m).


(** An accumulator that started at [start] and received, by a float
    addition, the float quotient [x / interval] for every [x] of [xs], in
    order. *)
Definition accumulated (interval : Z) (xs : list Q) (start : Q) : Q :=
  fold_left (fun acc x => fadd acc (fround (x / inject_Z interval))) xs start.

(** The turn [it] can select its bucket from [scale]. *)
Definition selects (scale : list Q) (it : Trainer.iteration) : Prop :=
  exists b,
    BucketSelector.select_bucket scale (Trainer.random_number_01 it) = Ok b.

(** How many checkpoints were saved in a trace. *)
Definition saves (tr : list event) : nat :=
  length (filter (fun e => match e with SaveCheckpoint => true | _ => false end)
                 tr).

(** How many statistics lines (lines 168-170) were printed in a trace. *)
Definition statistics_lines (tr : list event) : nat :=
  length (filter (fun e => match e with PrintStats _ _ => true | _ => false end)
                 tr).

(** Going through the trace [tr] after [s] statistics lines and [d] decays,
    every decay comes when the statistics lines seen exceed the decays so
    far by at least four. *)
Fixpoint budget_ok (s d : nat) (tr : list event) : Prop :=
  match tr with
  | [] => True
  | PrintStats _ _ :: rest => budget_ok (S s) d rest
  | RunDecayOp :: rest => (d + 4 <= s)%nat /\ budget_ok s (S d) rest
  | _ :: rest => budget_ok s d rest
  end.

(** Events of the set-up of [train()], lines 124-130: printing, creating
    the model, restoring or initialising its parameters, reading data. *)
Definition is_setup (e : event) : Prop :=
  match e with
  | PrintCreating _ _ => True
  | BuildModel _ => True
  | RestoreModel _ => True
  | InitVariables => True
  | ReadData _ => True
  | PrintLine _ => True
  | _ => False
  end.

(** Events of an evaluation pass that only read the model: fetching a
    development batch, a forward-only step, and printing. *)
Definition is_report (e : event) : Prop :=
  match e with
  | GetDevBatch _ => True
  | ModelStep _ forward_only => forward_only = true
  | PrintEmptyBucket _ => True
  | PrintEvalPerplexity _ _ => True
  | PrintLine _ => True
  | _ => False
  end.

(** Events of a training step: fetching a training batch and a step that
    updates the parameters. *)
Definition is_training_step (e : event) : Prop :=
  match e with
  | GetBatch _ => True
  | ModelStep _ forward_only => forward_only = false
  | _ => False
  end.

(** Every training batch named in a trace is asked of a bucket of
    [train_set] that holds at least one example. *)
Definition batch_from_populated
           (train_set : list (list (list Z * list Z))) (e : event) : Prop :=
  match e with
  | GetBatch b =>
      exists examples,
        (0 <= b)%Z /\ nth_error train_set (Z.to_nat b) = Some examples /\
        examples <> []
  | _ => True
  end.

(** The input capacities of a bucket list never decrease along the list. *)
Definition ascending (buckets : list (nat * nat)) : Prop :=
  forall i j, (i <= j)%nat -> (j < length buckets)%nat ->
              (fst (nth i buckets (0, 0)) <= fst (nth j buckets (0, 0)))%nat.

(** The turns of one checkpoint interval: the turns before the last one,
    then the last one. *)
Definition interval_turns (chunk : list Trainer.iteration * Trainer.iteration)
  : list Trainer.iteration :=
  fst chunk ++ [snd chunk].

(** The lines printed in a trace, in order, and the number of prompts
    shown. *)
Definition lines_printed (tr : list event) : list String.string :=
  flat_map (fun e => match e with PrintLine s => [s] | _ => [] end) tr.

Definition prompts (tr : list event) : nat :=
  length (filter (fun e => match e with Prompt => true | _ => false end) tr).

End Spec.

(* ================================================================== *)
(** * Theorems *)

Import BucketSelector Spec.
Import Perplexity Reporter Trainer Decoder BatchSampler.

(* ------------------------------------------------------------------ *)
(** ** Generic facts about the Python layer *)

Lemma fold_add_acc (l : list nat) (a : nat) :
  fold_left Nat.add l a = (a + list_sum l)%nat.
Proof.
  revert a; induction l as [|x l IH]; intros a; simpl.
  - lia.
  - rewrite IH. lia.
Qed.

Lemma py_sum_list_sum (l : list nat) : Py.sum l = list_sum l.
Proof. unfold Py.sum. now rewrite fold_add_acc. Qed.

Lemma list_sum_firstn_S (c : list nat) (i : nat) :
  list_sum (firstn (S i) c) = (list_sum (firstn i c) + nth i c 0)%nat.
Proof.
  revert i; induction c as [|x c IH]; intros i.
  - destruct i; reflexivity.
  - destruct i as [|i].
    + simpl. lia.
    + rewrite !firstn_cons.
      change (x + list_sum (firstn (S i) c)
              = x + list_sum (firstn i c) + nth i c 0)%nat.
      rewrite IH. lia.
Qed.

Lemma py_sum_prefix (c : list nat) (i : nat) :
  Py.sum (firstn (i + 1) c) = cumulative c i.
Proof.
  rewrite py_sum_list_sum, Nat.add_1_r.
  induction i as [|i IH].
  - rewrite list_sum_firstn_S. reflexivity.
  - rewrite list_sum_firstn_S, IH. reflexivity.
Qed.

Lemma cumulative_mono (c : list nat) (i j : nat) :
  (i <= j)%nat -> (cumulative c i <= cumulative c j)%nat.
Proof.
  induction 1 as [|j _ IH]; [lia|]. simpl. lia.
Qed.

Lemma cumulative_last (c : list nat) :
  cumulative c (length c - 1) = list_sum c.
Proof.
  rewrite <- py_sum_prefix, py_sum_list_sum.
  rewrite firstn_all2 by lia. reflexivity.
Qed.

Lemma mapM_total {A B} (f : A -> result B) (g : A -> B) (l : list A) :
  (forall x, In x l -> f x = Ok (g x)) -> mapM f l = Ok (map g l).
Proof.
  induction l as [|x l IH]; intros H; simpl.
  - reflexivity.
  - rewrite (H x) by now left. simpl.
    rewrite IH by (intros; apply H; now right). reflexivity.
Qed.

Lemma nth_map_seq {B} (f : nat -> B) (n i : nat) (d : B) :
  (i < n)%nat -> nth i (map f (seq 0 n)) d = f i.
Proof.
  intros Hi. rewrite (nth_indep _ d (f 0%nat)) by now rewrite length_map, length_seq.
  rewrite map_nth, seq_nth by assumption. reflexivity.
Qed.

Lemma Qgtb_true (a b : Q) : Qgtb a b = true <-> b < a.
Proof.
  unfold Qgtb. rewrite negb_true_iff, <- not_true_iff_false, Qle_bool_iff.
  split; [apply Qnot_le_lt | apply Qlt_not_le].
Qed.

Lemma Qgtb_false (a b : Q) : Qgtb a b = false <-> a <= b.
Proof.
  unfold Qgtb. rewrite negb_false_iff. apply Qle_bool_iff.
Qed.

Lemma fold_min_spec (xs : list nat) (x : nat) :
  let m := fold_left Nat.min xs x in
  (m <= x)%nat /\ (forall y, In y xs -> (m <= y)%nat) /\ (m = x \/ In m xs).
Proof.
  revert x; induction xs as [|y xs IH]; intros x; cbv zeta; simpl.
  - split; [lia | split; [tauto | now left]].
  - destruct (IH (Nat.min x y)) as (H1 & H2 & H3).
    split; [lia | split].
    + intros z [<-|Hz]; [lia | now apply H2].
    + destruct H3 as [H3|H3]; [|now right; right].
      destruct (Nat.min_spec x y) as [[_ E]|[_ E]];
        [left | right; left]; congruence.
Qed.

Lemma py_min_spec (l : list nat) (m : nat) :
  Py.min l = Ok m <-> In m l /\ (forall y, In y l -> (m <= y)%nat).
Proof.
  destruct l as [|x xs]; simpl.
  - split; [discriminate | tauto].
  - pose proof (fold_min_spec xs x) as (H1 & H2 & H3).
    split.
    + intros [= <-]. split.
      * destruct H3; auto.
      * intros y [<-|Hy]; auto.
    + intros [Hin Hle]. f_equal.
      assert (m <= fold_left Nat.min xs x)%nat
        by (apply Hle; destruct H3 as [->|]; auto).
      assert (fold_left Nat.min xs x <= m)%nat
        by (destruct Hin as [<-|]; auto).
      lia.
Qed.

Lemma py_min_nonempty (l : list nat) :
  l <> [] -> exists m, Py.min l = Ok m.
Proof. destruct l; [congruence | simpl; eauto]. Qed.

(* ------------------------------------------------------------------ *)
(** ** Double-precision rounding *)

(** Powers of two. *)
Lemma pow2_pos (k : Z) : 0 < 2 ^ k.
Proof. apply Qpower_0_lt. reflexivity. Qed.

Lemma pow2_le (a b : Z) : (a <= b)%Z -> 2 ^ a <= 2 ^ b.
Proof. intros H. apply Qpower_le_compat_l; [exact H | discriminate]. Qed.

Lemma pow2_lt (a b : Z) : (a < b)%Z -> 2 ^ a < 2 ^ b.
Proof. intros H. apply Qpower_lt_compat_l; [exact H | reflexivity]. Qed.

Lemma pow2_le_inv (a b : Z) : 2 ^ a <= 2 ^ b -> (a <= b)%Z.
Proof. intros H. apply (Qpower_le_compat_l_inv 2); [exact H | reflexivity]. Qed.

Lemma pow2_lt_inv (a b : Z) : 2 ^ a < 2 ^ b -> (a < b)%Z.
Proof. intros H. apply (Qpower_lt_compat_l_inv 2); [exact H | reflexivity]. Qed.

Lemma pow2_add (a b : Z) : 2 ^ (a + b) == 2 ^ a * 2 ^ b.
Proof. apply Qpower_plus. discriminate. Qed.

Lemma pow2_cancel (e : Z) : 2 ^ (- e) * 2 ^ e == 1.
Proof. rewrite <- pow2_add. replace (- e + e)%Z with 0%Z by lia. reflexivity. Qed.

Lemma pow2_Z (n : Z) : (0 <= n)%Z -> 2 ^ n == inject_Z (2 ^ n).
Proof. intros H. rewrite (Zpower_Qpower 2 n H). reflexivity. Qed.

Lemma pow2_half (e : Z) : (1 # 2) * 2 ^ e == 2 ^ (e - 1).
Proof.
replace (e - 1)%Z with (e + -1)%Z by lia. rewrite pow2_add.
change (2 ^ (-1)) with (/ 2). field.
Qed.

(** The binary logarithm. *)
Lemma ilog2_spec (q : Q) : 0 < q -> 2 ^ ilog2 q <= q /\ q < 2 ^ (ilog2 q + 1).
Proof.
intros Hq. destruct q as [n d]. unfold ilog2. cbn [Qnum Qden].
assert (Hn : (0 < n)%Z).
{ unfold Qlt in Hq. cbn in Hq. lia. }
destruct (Z.log2_spec n Hn) as [Hn1 Hn2].
destruct (Z.log2_spec (Z.pos d) (Pos2Z.is_pos d)) as [Hd1 Hd2].
set (ln := Z.log2 n) in *. set (ld := Z.log2 (Z.pos d)) in *.
assert (Hln : (0 <= ln)%Z) by apply Z.log2_nonneg.
assert (Hld : (0 <= ld)%Z) by apply Z.log2_nonneg.
assert (Eq : n # d == inject_Z n / inject_Z (Z.pos d)) by apply Qmake_Qdiv.
assert (Dpos : 0 < inject_Z (Z.pos d)).
{ change 0 with (inject_Z 0). rewrite <- Zlt_Qlt. lia. }
assert (Qn1 : 2 ^ ln <= inject_Z n).
{ rewrite (pow2_Z ln Hln). rewrite <- Zle_Qle. exact Hn1. }
assert (Qn2 : inject_Z n < 2 ^ (ln + 1)).
{ rewrite (pow2_Z (ln + 1)) by lia. rewrite <- Zlt_Qlt. exact Hn2. }
assert (Qd1 : 2 ^ ld <= inject_Z (Z.pos d)).
{ rewrite (pow2_Z ld Hld). rewrite <- Zle_Qle. exact Hd1. }
assert (Qd2 : inject_Z (Z.pos d) < 2 ^ (ld + 1)).
{ rewrite (pow2_Z (ld + 1)) by lia. rewrite <- Zlt_Qlt. exact Hd2. }
destruct (Qle_bool (2 ^ (ln - ld)) (n # d)) eqn:T.
- apply Qle_bool_iff in T. split; [exact T|].
  rewrite Eq. apply Qlt_shift_div_r; [exact Dpos|].
  replace (ln - ld + 1)%Z with ((ln + 1) + - ld)%Z by lia.
  rewrite pow2_add.
  apply Qlt_le_trans with (2 ^ (ln + 1) * 2 ^ (- ld) * 2 ^ ld).
  + rewrite <- Qmult_assoc, pow2_cancel, Qmult_1_r. exact Qn2.
  + apply Qmult_le_l; [|exact Qd1].
    apply Qmult_lt_0_compat; apply pow2_pos.
- assert (T' : n # d < 2 ^ (ln - ld)).
  { apply Qnot_le_lt. intros C. apply Qle_bool_iff in C. congruence. }
  split.
  + rewrite Eq. apply Qle_shift_div_l; [exact Dpos|].
    apply Qle_trans with (2 ^ (ln - ld - 1) * 2 ^ (ld + 1)).
    * apply Qmult_le_l; [apply pow2_pos | apply Qlt_le_weak; exact Qd2].
    * rewrite <- pow2_add. replace (ln - ld - 1 + (ld + 1))%Z with ln by lia.
      exact Qn1.
  + replace (ln - ld - 1 + 1)%Z with (ln - ld)%Z by lia. exact T'.
Qed.

Lemma ilog2_le (q : Q) (k : Z) : 0 < q -> q <= 2 ^ k -> (ilog2 q <= k)%Z.
Proof.
intros Hq H. destruct (ilog2_spec q Hq) as [L _].
apply pow2_le_inv. apply Qle_trans with q; assumption.
Qed.

Lemma ilog2_ge (q : Q) (k : Z) : 2 ^ k <= q -> (k <= ilog2 q)%Z.
Proof.
intros H.
assert (Hq : 0 < q) by (apply Qlt_le_trans with (2 ^ k); [apply pow2_pos | exact H]).
destruct (ilog2_spec q Hq) as [_ U].
assert (2 ^ k < 2 ^ (ilog2 q + 1)) by (apply Qle_lt_trans with q; assumption).
apply pow2_lt_inv in H0. lia.
Qed.

Lemma ilog2_mono (p q : Q) : 0 < p -> p <= q -> (ilog2 p <= ilog2 q)%Z.
Proof.
intros Hp H. apply ilog2_ge.
destruct (ilog2_spec p Hp) as [L _]. apply Qle_trans with p; assumption.
Qed.

Lemma ilog2_comp (p q : Q) : 0 < p -> p == q -> ilog2 p = ilog2 q.
Proof.
intros Hp E.
assert (Hq : 0 < q) by (rewrite <- E; exact Hp).
apply Z.le_antisymm; apply ilog2_mono; try assumption; rewrite E; apply Qle_refl.
Qed.

(** Rounding to the nearest integer, ties to even. *)
Lemma Qcompare_cases (a b : Q) :
  match Qcompare a b with Eq => a == b | Lt => a < b | Gt => b < a end.
Proof.
destruct (Qcompare a b) eqn:C.
- apply Qeq_alt. exact C.
- apply Qlt_alt. exact C.
- apply Qgt_alt. exact C.
Qed.

Lemma round_half_even_cases (x : Q) :
  let f := Qfloor x in
  (round_half_even x = f /\ x - inject_Z f <= 1 # 2) \/
  (round_half_even x = (f + 1)%Z /\ 1 # 2 <= x - inject_Z f).
Proof.
intros f. unfold round_half_even. fold f.
destruct (Qcompare (x - inject_Z f) (1 # 2)) eqn:C.
- apply Qeq_alt in C. destruct (Z.even f).
  + left. split; [reflexivity | rewrite C; apply Qle_refl].
  + right. split; [reflexivity | rewrite C; apply Qle_refl].
- apply Qlt_alt in C. left. split; [reflexivity | apply Qlt_le_weak; exact C].
- apply Qgt_alt in C. right. split; [reflexivity | apply Qlt_le_weak; exact C].
Qed.

Lemma round_half_even_error (x : Q) :
  Qabs (inject_Z (round_half_even x) - x) <= 1 # 2.
Proof.
pose proof (Qfloor_le x) as L. pose proof (Qlt_floor x) as U.
rewrite inject_Z_plus in U. change (inject_Z 1) with 1 in U.
apply Qabs_Qle_condition.
destruct (round_half_even_cases x) as [[E H] | [E H]]; rewrite E.
- split; lra.
- rewrite inject_Z_plus. change (inject_Z 1) with 1. split; lra.
Qed.

Lemma round_half_even_Z (z : Z) : round_half_even (inject_Z z) = z.
Proof.
unfold round_half_even. rewrite Qfloor_Z.
assert (C : Qcompare (inject_Z z - inject_Z z) (1 # 2) = Lt).
{ apply Qlt_alt. setoid_replace (inject_Z z - inject_Z z) with 0 by ring. reflexivity. }
rewrite C. reflexivity.
Qed.

Lemma round_half_even_comp (x y : Q) :
  x == y -> round_half_even x = round_half_even y.
Proof.
intros E. unfold round_half_even. rewrite (Qfloor_comp x y E).
assert (C : Qcompare (x - inject_Z (Qfloor y)) (1 # 2)
            = Qcompare (y - inject_Z (Qfloor y)) (1 # 2)).
{ apply Qcompare_comp; [rewrite E; reflexivity | reflexivity]. }
rewrite C. reflexivity.
Qed.

Lemma round_half_even_mono (x y : Q) :
  x <= y -> (round_half_even x <= round_half_even y)%Z.
Proof.
intros H.
pose proof (Qfloor_resp_le x y H) as F.
destruct (Z.eq_dec (Qfloor x) (Qfloor y)) as [E | N].
- unfold round_half_even. rewrite E.
  pose proof (Qcompare_cases (x - inject_Z (Qfloor y)) (1 # 2)) as Cx.
  pose proof (Qcompare_cases (y - inject_Z (Qfloor y)) (1 # 2)) as Cy.
  revert Cx Cy. generalize (inject_Z (Qfloor y)). intros c.
  destruct (Qcompare (x - c) (1 # 2)); destruct (Qcompare (y - c) (1 # 2));
  intros Cx Cy; try (destruct (Z.even (Qfloor y)); lia); exfalso; lra.
- destruct (round_half_even_cases x) as [[Ex _] | [Ex _]];
  destruct (round_half_even_cases y) as [[Ey _] | [Ey _]]; lia.
Qed.

Lemma round_half_even_le (x : Q) (z : Z) :
  x <= inject_Z z -> (round_half_even x <= z)%Z.
Proof.
intros H. rewrite <- (round_half_even_Z z). apply round_half_even_mono. exact H.
Qed.

Lemma round_half_even_ge (x : Q) (z : Z) :
  inject_Z z <= x -> (z <= round_half_even x)%Z.
Proof.
intros H. rewrite <- (round_half_even_Z z). apply round_half_even_mono. exact H.
Qed.

(** Rounding to the nearest double. *)
Lemma Qeq_bool_comp (p q r : Q) : p == q -> Qeq_bool p r = Qeq_bool q r.
Proof.
intros E. destruct (Qeq_bool q r) eqn:B.
- apply Qeq_bool_iff. apply Qeq_bool_iff in B. rewrite E. exact B.
- destruct (Qeq_bool p r) eqn:B'; [|reflexivity].
  apply Qeq_bool_iff in B'. rewrite E in B'. apply Qeq_bool_iff in B'. congruence.
Qed.

Lemma Qabs_pos_lt (q : Q) : ~ q == 0 -> 0 < Qabs q.
Proof.
intros N. destruct (Qlt_le_dec 0 (Qabs q)) as [H | H]; [exact H|].
exfalso. apply N. pose proof (Qabs_nonneg q) as P.
assert (Z : Qabs q <= 0) by exact H.
apply Qabs_Qle_condition in Z. lra.
Qed.

Lemma fexp_comp (p q : Q) : ~ p == 0 -> p == q -> fexp p = fexp q.
Proof.
intros N E. unfold fexp.
rewrite (ilog2_comp (Qabs p) (Qabs q)); [reflexivity | | ].
- apply Qabs_pos_lt. exact N.
- rewrite E. reflexivity.
Qed.

Lemma fround_comp (p q : Q) : p == q -> fround p = fround q.
Proof.
intros E. unfold fround. rewrite (Qeq_bool_comp p q 0 E).
destruct (Qeq_bool q 0) eqn:B; [reflexivity|].
assert (N : ~ p == 0).
{ intros C. rewrite E in C. apply Qeq_bool_iff in C. congruence. }
rewrite (fexp_comp p q N E). cbv zeta.
apply Qred_complete.
rewrite (round_half_even_comp (p * 2 ^ (- fexp q)) (q * 2 ^ (- fexp q))).
- reflexivity.
- rewrite E. reflexivity.
Qed.

Lemma fround_unfold (q : Q) :
  ~ q == 0 ->
  fround q == inject_Z (round_half_even (q * 2 ^ (- fexp q))) * 2 ^ fexp q.
Proof.
intros N. unfold fround.
destruct (Qeq_bool q 0) eqn:B.
- apply Qeq_bool_iff in B. contradiction.
- cbv zeta. apply Qred_correct.
Qed.

Lemma fround_zero (q : Q) : q == 0 -> fround q = 0.
Proof.
intros E. unfold fround. apply Qeq_bool_iff in E. rewrite E. reflexivity.
Qed.

Lemma fround_1 : fround 1 = 1.
Proof. vm_compute. reflexivity. Qed.

Lemma fround_half_ulp (q : Q) :
  ~ q == 0 -> Qabs (fround q - q) <= 2 ^ (fexp q - 1).
Proof.
intros N. rewrite (fround_unfold q N).
set (e := fexp q). set (x := q * 2 ^ (- e)).
assert (Ex : q == x * 2 ^ e).
{ unfold x. rewrite <- Qmult_assoc, pow2_cancel. ring. }
assert (D : inject_Z (round_half_even x) * 2 ^ e - q
            == (inject_Z (round_half_even x) - x) * 2 ^ e).
{ rewrite Ex at 1. ring. }
rewrite D, Qabs_Qmult. rewrite (Qabs_pos (2 ^ e)) by (apply Qlt_le_weak, pow2_pos).
rewrite <- pow2_half.
apply Qmult_le_compat_r; [apply round_half_even_error|].
apply Qlt_le_weak, pow2_pos.
Qed.

Lemma fexp_le (q : Q) (k : Z) :
  ~ q == 0 -> Qabs q <= 2 ^ k -> (fexp q <= Z.max (k - 52) (-1074))%Z.
Proof.
intros N H. unfold fexp.
pose proof (ilog2_le (Qabs q) k (Qabs_pos_lt q N) H). lia.
Qed.

Lemma fround_error (q : Q) (k : Z) :
  (-1022 <= k)%Z -> Qabs q <= 2 ^ k -> Qabs (fround q - q) <= 2 ^ (k - 53).
Proof.
intros Hk H.
destruct (Qeq_dec q 0) as [E | N].
- rewrite (fround_zero q E).
  assert (Z : Qabs (0 - q) == 0).
  { rewrite E. reflexivity. }
  rewrite Z. apply Qlt_le_weak, pow2_pos.
- apply Qle_trans with (2 ^ (fexp q - 1)); [apply fround_half_ulp; exact N|].
  apply pow2_le. pose proof (fexp_le q k N H). lia.
Qed.

Lemma fround_bounded (q : Q) (k : Z) :
  (-1074 <= k)%Z -> Qabs q <= 2 ^ k -> Qabs (fround q) <= 2 ^ k.
Proof.
intros Hk H.
destruct (Qeq_dec q 0) as [E | N].
- rewrite (fround_zero q E). apply Qlt_le_weak, pow2_pos.
- rewrite (fround_unfold q N).
  pose proof (fexp_le q k N H) as He.
  set (e := fexp q) in *.
  assert (Hke : (0 <= k - e)%Z) by lia.
  assert (P : 2 ^ k == inject_Z (2 ^ (k - e)) * 2 ^ e).
  { rewrite <- (pow2_Z (k - e) Hke), <- pow2_add.
    replace (k - e + e)%Z with k by lia. reflexivity. }
  apply Qabs_Qle_condition in H. destruct H as [H1 H2].
  assert (X1 : inject_Z (- 2 ^ (k - e)) <= q * 2 ^ (- e)).
  { rewrite inject_Z_opp, <- (pow2_Z (k - e) Hke).
    replace (k - e)%Z with (k + - e)%Z by lia. rewrite pow2_add.
    setoid_replace (- (2 ^ k * 2 ^ (- e))) with ((- 2 ^ k) * 2 ^ (- e)) by ring.
    apply Qmult_le_compat_r; [exact H1 | apply Qlt_le_weak, pow2_pos]. }
  assert (X2 : q * 2 ^ (- e) <= inject_Z (2 ^ (k - e))).
  { rewrite <- (pow2_Z (k - e) Hke).
    replace (k - e)%Z with (k + - e)%Z by lia. rewrite pow2_add.
    apply Qmult_le_compat_r; [exact H2 | apply Qlt_le_weak, pow2_pos]. }
  apply round_half_even_ge in X1. apply round_half_even_le in X2.
  apply Qabs_Qle_condition. rewrite P.
  pose proof (pow2_pos e) as Pe.
  rewrite Zle_Qle in X1, X2. rewrite inject_Z_opp in X1.
  split.
  + setoid_replace (- (inject_Z (2 ^ (k - e)) * 2 ^ e))
      with ((- inject_Z (2 ^ (k - e))) * 2 ^ e) by ring.
    apply Qmult_le_compat_r; [exact X1 | apply Qlt_le_weak; exact Pe].
  + apply Qmult_le_compat_r; [exact X2 | apply Qlt_le_weak; exact Pe].
Qed.

Lemma fround_nonneg (q : Q) : 0 <= q -> 0 <= fround q.
Proof.
intros H. destruct (Qeq_dec q 0) as [E | N].
- rewrite (fround_zero q E). apply Qle_refl.
- rewrite (fround_unfold q N).
  apply Qmult_le_0_compat; [|apply Qlt_le_weak, pow2_pos].
  change 0 with (inject_Z 0). rewrite <- Zle_Qle.
  apply round_half_even_ge. change (inject_Z 0) with 0.
  apply Qmult_le_0_compat; [exact H | apply Qlt_le_weak, pow2_pos].
Qed.

Lemma fround_mono (p q : Q) : 0 <= p -> p <= q -> fround p <= fround q.
Proof.
intros Hp H.
destruct (Qeq_dec p 0) as [E | Np].
- rewrite (fround_zero p E). apply fround_nonneg. lra.
- assert (Pp : 0 < p).
  { destruct (Qlt_le_dec 0 p) as [L | L]; [exact L|]. exfalso. apply Np. lra. }
  assert (Pq : 0 < q) by lra.
  assert (Nq : ~ q == 0) by (intros C; lra).
  rewrite (fround_unfold p Np), (fround_unfold q Nq).
  assert (Ap : Qabs p == p) by (apply Qabs_pos; lra).
  assert (Aq : Qabs q == q) by (apply Qabs_pos; lra).
  assert (Lp : ilog2 (Qabs p) = ilog2 p) by (apply ilog2_comp; [rewrite Ap; exact Pp | exact Ap]).
  assert (Lq : ilog2 (Qabs q) = ilog2 q) by (apply ilog2_comp; [rewrite Aq; exact Pq | exact Aq]).
  pose proof (ilog2_mono p q Pp H) as M.
  destruct (ilog2_spec p Pp) as [_ Up]. destruct (ilog2_spec q Pq) as [Lwq _].
  assert (Ep : fexp p = Z.max (ilog2 p - 52) (-1074)) by (unfold fexp; rewrite Lp; reflexivity).
  assert (Eq : fexp q = Z.max (ilog2 q - 52) (-1074)) by (unfold fexp; rewrite Lq; reflexivity).
  set (ep := fexp p) in *. set (eq := fexp q) in *.
  destruct (Z.eq_dec ep eq) as [Same | Diff].
  + rewrite Same. apply Qmult_le_compat_r; [|apply Qlt_le_weak, pow2_pos].
    rewrite <- Zle_Qle. apply round_half_even_mono.
    apply Qmult_le_compat_r; [exact H | apply Qlt_le_weak, pow2_pos].
  + assert (Lt : (ep + 1 <= eq)%Z) by lia.
    assert (Eq' : eq = (ilog2 q - 52)%Z) by lia.
    apply Qle_trans with (2 ^ (ep + 53)).
    * assert (X : p * 2 ^ (- ep) <= inject_Z (2 ^ 53)).
      { rewrite <- (pow2_Z 53) by lia.
        apply Qle_trans with (2 ^ (ilog2 p + 1) * 2 ^ (- ep)).
        - apply Qmult_le_compat_r; [apply Qlt_le_weak; exact Up | apply Qlt_le_weak, pow2_pos].
        - rewrite <- pow2_add. apply pow2_le. lia. }
      apply round_half_even_le in X. rewrite Zle_Qle in X.
      rewrite <- (pow2_Z 53) in X by lia.
      replace (ep + 53)%Z with (53 + ep)%Z by lia. rewrite pow2_add.
      apply Qmult_le_compat_r; [exact X | apply Qlt_le_weak, pow2_pos].
    * apply Qle_trans with (2 ^ (eq + 52)); [apply pow2_le; lia|].
      assert (X : inject_Z (2 ^ 52) <= q * 2 ^ (- eq)).
      { rewrite <- (pow2_Z 52) by lia.
        apply Qle_trans with (2 ^ ilog2 q * 2 ^ (- eq)).
        - rewrite <- pow2_add. apply pow2_le. lia.
        - apply Qmult_le_compat_r; [exact Lwq | apply Qlt_le_weak, pow2_pos]. }
      apply round_half_even_ge in X. rewrite Zle_Qle in X.
      rewrite <- (pow2_Z 52) in X by lia.
      replace (eq + 52)%Z with (52 + eq)%Z by lia. rewrite pow2_add.
      apply Qmult_le_compat_r; [exact X | apply Qlt_le_weak, pow2_pos].
Qed.

(* ------------------------------------------------------------------ *)
(** ** Bucket selector, training mode *)

Lemma float_of_nat_add (a b : nat) :
  float_of_nat (a + b) == float_of_nat a + float_of_nat b.
Proof.
  unfold float_of_nat. now rewrite Nat2Z.inj_add, inject_Z_plus.
Qed.

Lemma float_of_nat_le (a b : nat) :
  (a <= b)%nat -> float_of_nat a <= float_of_nat b.
Proof.
  intros H. unfold float_of_nat. rewrite <- Zle_Qle. lia.
Qed.

Lemma train_total_size_pos (sizes : list nat) :
  (0 < list_sum sizes)%nat -> 0 < train_total_size sizes.
Proof.
  intros H. unfold train_total_size, float_of_nat.
  rewrite py_sum_list_sum. change 0 with (inject_Z 0).
  rewrite <- Zlt_Qlt. lia.
Qed.

Lemma Qpos_neq0 (x : Q) : 0 < x -> ~ x == 0.
Proof. intros H E. rewrite E in H. exact (Qlt_irrefl 0 H). Qed.

Lemma truediv_ok (a b : Q) : ~ b == 0 -> truediv a b = Ok (fround (a / b)).
Proof.
  intros H. unfold truediv.
  destruct (Qeq_bool b 0) eqn:E; [|reflexivity].
  apply Qeq_bool_iff in E. contradiction.
Qed.

(** With a positive total no division raises, and the list built by the
    comprehension is the list of the rounded cumulative shares. *)
Lemma train_buckets_scale_ok (sizes : list nat) :
  (0 < list_sum sizes)%nat ->
  train_buckets_scale sizes =
    Ok (map (fun i => fround (float_of_nat (cumulative sizes i)
                              / train_total_size sizes))
            (seq 0 (length sizes))).
Proof.
  intros H. unfold train_buckets_scale.
  apply mapM_total. intros i _.
  rewrite py_sum_prefix. apply truediv_ok.
  apply Qpos_neq0, train_total_size_pos, H.
Qed.

(** What [min] over the comprehension returns, for any scale list. *)
Lemma select_bucket_spec (scale : list Q) (u : Q) (i : nat) :
  select_bucket scale u = Ok i <->
  (i < length scale)%nat /\ u < nth i scale 0 /\
  (forall j, (j < i)%nat -> nth j scale 0 <= u).
Proof.
  unfold select_bucket, candidates. rewrite py_min_spec. split.
  - intros [Hin Hmin]. apply filter_In in Hin as [Hseq Hgt].
    apply in_seq in Hseq. apply Qgtb_true in Hgt.
    repeat split; [lia | assumption |].
    intros j Hj. apply Qgtb_false.
    destruct (Qgtb (nth j scale 0) u) eqn:E; [|reflexivity].
    exfalso. assert (i <= j)%nat; [|lia].
    apply Hmin, filter_In. split; [apply in_seq; lia | assumption].
  - intros (Hi & Hgt & Hlow). split.
    + apply filter_In. split; [apply in_seq; lia | now apply Qgtb_true].
    + intros y Hy. apply filter_In in Hy as [_ Hy]. apply Qgtb_true in Hy.
      destruct (Nat.le_gt_cases i y) as [|Hlt]; [assumption|].
      specialize (Hlow y Hlt). lra.
Qed.

Lemma candidates_nonempty (scale : list Q) (u : Q) (i : nat) :
  (i < length scale)%nat -> u < nth i scale 0 -> candidates scale u <> [].
Proof.
  intros Hi Hu E.
  assert (In i (candidates scale u)) as Hin.
  { apply filter_In. split; [apply in_seq; lia | now apply Qgtb_true]. }
  rewrite E in Hin. destruct Hin.
Qed.

Section CumulativeScale.

Variable sizes : list nat.
Hypothesis total_pos : (0 < list_sum sizes)%nat.

Let total := train_total_size sizes.
Let share (i : nat) : Q := float_of_nat (cumulative sizes i) / total.
Let scale := map (fun i => fround (share i)) (seq 0 (length sizes)).

Lemma scale_nth (i : nat) :
  (i < length sizes)%nat -> nth i scale 0 = fround (share i).
Proof. intros Hi. unfold scale. now rewrite nth_map_seq. Qed.

Lemma sizes_nonempty : (0 < length sizes)%nat.
Proof. destruct sizes; simpl in *; lia. Qed.

Lemma share_nonneg (i : nat) : 0 <= share i.
Proof.
  pose proof (train_total_size_pos sizes total_pos) as Hpos.
  unfold share. apply Qle_shift_div_l; [exact Hpos|].
  rewrite Qmult_0_l. change 0 with (float_of_nat 0).
  apply float_of_nat_le. lia.
Qed.

Lemma share_mono (i j : nat) : (i <= j)%nat -> share i <= share j.
Proof.
  intros Hij.
  pose proof (train_total_size_pos sizes total_pos) as Hpos.
  unfold share. apply Qmult_le_compat_r.
  - apply float_of_nat_le, cumulative_mono, Hij.
  - apply Qlt_le_weak, Qinv_lt_0_compat, Hpos.
Qed.

Lemma share_last : share (length sizes - 1) == 1.
Proof.
  unfold share. rewrite cumulative_last.
  pose proof (train_total_size_pos sizes total_pos) as Hpos.
  unfold total, train_total_size, float_of_nat in *.
  rewrite py_sum_list_sum in *. field. now apply Qpos_neq0.
Qed.

Lemma share_le_1 (i : nat) : (i < length sizes)%nat -> share i <= 1.
Proof.
  intros Hi. rewrite <- share_last. apply share_mono. lia.
Qed.

Lemma share_step (j : nat) :
  share (S j) - share j == float_of_nat (nth (S j) sizes 0%nat) / total.
Proof.
  pose proof (train_total_size_pos sizes total_pos) as Hpos.
  unfold share. simpl cumulative. rewrite float_of_nat_add.
  field. now apply Qpos_neq0.
Qed.

Lemma scale_mono (i j : nat) :
  (i <= j)%nat -> (j < length sizes)%nat -> nth i scale 0 <= nth j scale 0.
Proof.
  intros Hij Hj. rewrite !scale_nth by lia.
  apply fround_mono; [apply share_nonneg | apply share_mono, Hij].
Qed.

Lemma scale_last : nth (length sizes - 1) scale 0 == 1.
Proof.
  pose proof sizes_nonempty.
  rewrite scale_nth by lia.
  rewrite (fround_comp _ 1 share_last), fround_1. reflexivity.
Qed.

Lemma scale_error (i : nat) :
  (i < length sizes)%nat -> Qabs (nth i scale 0 - share i) <= 2 ^ (-53).
Proof.
  intros Hi. rewrite scale_nth by exact Hi.
  apply (fround_error (share i) 0); [lia|].
  rewrite Qabs_pos by apply share_nonneg.
  apply share_le_1, Hi.
Qed.

Lemma scale_share_error (i : nat) :
  (i < length sizes)%nat ->
  Qabs (nth i scale 0 - lower scale i
        - float_of_nat (nth i sizes 0%nat) / total) <= 2 ^ (-52).
Proof.
  intros Hi. destruct i as [|j]; simpl lower.
  - pose proof (scale_error 0 Hi) as E0.
    assert (S0 : share 0 == float_of_nat (nth 0 sizes 0%nat) / total)
      by reflexivity.
    rewrite <- S0. apply Qabs_Qle_condition in E0. apply Qabs_Qle_condition.
    revert E0. generalize (nth 0 scale 0) (share 0). intros a c E0.
    change (2 ^ (-53)) with (1 # 9007199254740992) in E0.
    change (2 ^ (-52)) with (1 # 4503599627370496).
    split; lra.
  - pose proof (scale_error (S j) Hi) as E1.
    assert (Hj : (j < length sizes)%nat) by lia.
    pose proof (scale_error j Hj) as E0.
    rewrite <- share_step.
    apply Qabs_Qle_condition in E0. apply Qabs_Qle_condition in E1.
    apply Qabs_Qle_condition.
    revert E0 E1.
    generalize (nth (S j) scale 0) (nth j scale 0) (share (S j)) (share j).
    intros a b c d E0 E1.
    change (2 ^ (-53)) with (1 # 9007199254740992) in E0, E1.
    change (2 ^ (-52)) with (1 # 4503599627370496).
    split; lra.
Qed.

Lemma select_interval (i : nat) (u : Q) :
  (i < length sizes)%nat -> 0 <= u ->
  (select_bucket scale u = Ok i <-> lower scale i <= u /\ u < nth i scale 0).
Proof.
  intros Hi Hu. rewrite select_bucket_spec.
  assert (length scale = length sizes) as Hlen
      by (unfold scale; now rewrite length_map, length_seq).
  split.
  - intros (_ & Hgt & Hlow). split; [|assumption].
    destruct i as [|j]; simpl; [assumption | apply Hlow; lia].
  - intros [Hlo Hgt]. repeat split; [lia | assumption |].
    intros j Hj. destruct i as [|k]; [lia|]. simpl in Hlo.
    apply Qle_trans with (nth k scale 0); [|assumption].
    apply scale_mono; lia.
Qed.

Lemma select_total (u : Q) :
  u < 1 -> exists i, select_bucket scale u = Ok i.
Proof.
  intros Hu. apply py_min_nonempty.
  apply candidates_nonempty with (i := (length sizes - 1)%nat).
  - unfold scale. rewrite length_map, length_seq.
    pose proof sizes_nonempty. lia.
  - pose proof scale_last. lra.
Qed.

End CumulativeScale.

Lemma last_nth_pred {A} (l : list A) (d : A) :
  last l d = nth (length l - 1) l d.
Proof.
  induction l as [|x [|y l] IH]; try reflexivity.
  change (last (x :: y :: l) d) with (last (y :: l) d). rewrite IH.
  simpl. now rewrite Nat.sub_0_r.
Qed.

(** C1, as amended.  Training-mode bucket selection.  For every occupancy
    vector with a positive total the comprehension of lines 138-139 returns
    the list whose entry [i] is the double nearest to the cumulative share
    [(c_0 + ... + c_i) / total], which is within [2 ^ -53] of that share;
    for every draw [u] in [0,1) the expression of lines 151-152 returns the
    smallest index [i] with [scale_i > u]; the draws that select bucket [i]
    are exactly the half-open interval from [scale_(i-1)] (0 for the first
    bucket) to [scale_i], and the length of that interval is [c_i / total]
    up to [2 ^ -52]. *)
Theorem train_selection_rounded_shares (sizes : list nat) :
  (0 < list_sum sizes)%nat ->
  exists scale,
    train_buckets_scale sizes = Ok scale /\
    length scale = length sizes /\
    (forall i, (i < length sizes)%nat ->
       nth i scale 0 =
       fround (float_of_nat (cumulative sizes i)
               / float_of_nat (list_sum sizes))) /\
    (forall i, (i < length sizes)%nat ->
       Qabs (nth i scale 0
             - float_of_nat (cumulative sizes i)
               / float_of_nat (list_sum sizes)) <= 2 ^ (-53)) /\
    (forall u, 0 <= u -> u < 1 ->
       exists i, select_bucket scale u = Ok i /\
                 (i < length sizes)%nat /\
                 u < nth i scale 0 /\
                 (forall j, (j < i)%nat -> nth j scale 0 <= u)) /\
    (forall i u, (i < length sizes)%nat -> 0 <= u -> u < 1 ->
       (select_bucket scale u = Ok i <->
        lower scale i <= u /\ u < nth i scale 0)) /\
    (forall i, (i < length sizes)%nat ->
       Qabs (nth i scale 0 - lower scale i
             - float_of_nat (nth i sizes 0%nat)
               / float_of_nat (list_sum sizes)) <= 2 ^ (-52)).
Proof.
  intros Hpos. eexists. split; [apply train_buckets_scale_ok, Hpos|].
  assert (train_total_size sizes = float_of_nat (list_sum sizes)) as Htot
      by (unfold train_total_size; now rewrite py_sum_list_sum).
  split; [now rewrite length_map, length_seq|].
  split; [|split; [|split; [|split]]].
  - intros i Hi. rewrite scale_nth, Htot by assumption. reflexivity.
  - intros i Hi. rewrite <- Htot. now apply scale_error.
  - intros u Hu0 Hu1.
    destruct (select_total sizes Hpos u Hu1) as [i Hsel].
    exists i. split; [exact Hsel|].
    apply select_bucket_spec in Hsel as (Hlen & Hgt & Hlow).
    rewrite length_map, length_seq in Hlen. auto.
  - intros i u Hi Hu0 _. now apply select_interval.
  - intros i Hi. rewrite <- Htot. now apply scale_share_error.
Qed.

Lemma train_selection_rounded_shares_witness :
  exists scale,
    train_buckets_scale [2; 1; 0; 0]%nat = Ok scale /\
    length scale = 4%nat /\
    (forall i, (i < 4)%nat ->
       nth i scale 0 =
       fround (float_of_nat (cumulative [2; 1; 0; 0]%nat i)
               / float_of_nat 3)) /\
    (forall i, (i < 4)%nat ->
       Qabs (nth i scale 0
             - float_of_nat (cumulative [2; 1; 0; 0]%nat i)
               / float_of_nat 3) <= 2 ^ (-53)) /\
    (forall u, 0 <= u -> u < 1 ->
       exists i, select_bucket scale u = Ok i /\
                 (i < 4)%nat /\
                 u < nth i scale 0 /\
                 (forall j, (j < i)%nat -> nth j scale 0 <= u)) /\
    (forall i u, (i < 4)%nat -> 0 <= u -> u < 1 ->
       (select_bucket scale u = Ok i <->
        lower scale i <= u /\ u < nth i scale 0)) /\
    (forall i, (i < 4)%nat ->
       Qabs (nth i scale 0 - lower scale i
             - float_of_nat (nth i [2; 1; 0; 0]%nat 0%nat)
               / float_of_nat 3) <= 2 ^ (-52)).
Proof.
  apply (train_selection_rounded_shares [2; 1; 0; 0]%nat). simpl. lia.
Defined.

(** C1, as stated, fails.  With occupancies 2, 1, 0, 0 the first cumulative
    share is two thirds, which is not a double: the scale holds the double
    below it, [Sample.two_thirds].  For the draw [u = Sample.two_thirds]
    the smallest index whose share [(c_0 + ... + c_i) / total] exceeds [u]
    is 0, yet the selector returns bucket 1; and the draws that select
    bucket 1 form an interval whose length is not [c_1 / total]. *)
Lemma train_selection_exact_shares_counterexample :
  exists scale,
    train_buckets_scale [2; 1; 0; 0]%nat = Ok scale /\
    ~ nth 0 scale 0 ==
      float_of_nat (cumulative [2; 1; 0; 0]%nat 0) / float_of_nat 3 /\
    0 <= Sample.two_thirds /\ Sample.two_thirds < 1 /\
    Sample.two_thirds <
      float_of_nat (cumulative [2; 1; 0; 0]%nat 0) / float_of_nat 3 /\
    select_bucket scale Sample.two_thirds = Ok 1%nat /\
    ~ nth 1 scale 0 - lower scale 1 ==
      float_of_nat (nth 1 [2; 1; 0; 0]%nat 0%nat) / float_of_nat 3.
Proof.
  eexists. split; [vm_compute; reflexivity|].
  repeat split; try (vm_compute; congruence).
Qed.

(** C10.  Training-mode bucket selection is total.  For every occupancy
    vector with a positive total the scale list is built without error and
    its last entry equals 1, so for every draw [u] in [0,1) the list handed
    to [min] is not empty and [min] returns one of its members. *)
Theorem train_selection_total (sizes : list nat) :
  (0 < list_sum sizes)%nat ->
  exists scale,
    train_buckets_scale sizes = Ok scale /\
    last scale 0 == 1 /\
    (forall u, 0 <= u -> u < 1 ->
       candidates scale u <> [] /\
       exists i, select_bucket scale u = Ok i /\ In i (candidates scale u)).
Proof.
  intros Hpos. eexists. split; [apply train_buckets_scale_ok, Hpos|].
  assert (Hlast : forall l, length l = length sizes ->
                            last l 0 = nth (length sizes - 1) l 0)
    by (intros l <-; apply last_nth_pred).
  split.
  - rewrite Hlast by now rewrite length_map, length_seq.
    apply scale_last, Hpos.
  - intros u _ Hu1.
    destruct (select_total sizes Hpos u Hu1) as [i Hsel].
    split.
    + intros E. unfold select_bucket in Hsel. rewrite E in Hsel. discriminate.
    + exists i. split; [exact Hsel|].
      unfold select_bucket in Hsel. apply py_min_spec in Hsel. tauto.
Qed.

Lemma train_selection_total_witness :
  exists scale,
    train_buckets_scale [2; 5]%nat = Ok scale /\
    last scale 0 == 1 /\
    (forall u, 0 <= u -> u < 1 ->
       candidates scale u <> [] /\
       exists i, select_bucket scale u = Ok i /\ In i (candidates scale u)).
Proof.
  apply (train_selection_total [2; 5]%nat). simpl. lia.
Defined.

(** With no example at all the very first division raises: the precondition
    of the selector is needed. *)
Example train_buckets_scale_zero_total :
  train_buckets_scale [0; 0; 0; 0]%nat = Raise ZeroDivisionError.
Proof. reflexivity. Qed.

Example select_bucket_example :
  train_buckets_scale [1; 0; 3]%nat = Ok [1 # 4; 1 # 4; 1] /\
  select_bucket [1 # 4; 1 # 4; 1] (1 # 5) = Ok 0%nat /\
  select_bucket [1 # 4; 1 # 4; 1] (1 # 4) = Ok 2%nat /\
  select_bucket [1 # 4; 1 # 4; 1] (99 # 100) = Ok 2%nat.
Proof. repeat split; vm_compute; reflexivity. Qed.

(** Two thirds is not a double: the scale of the occupancies 2, 1 holds
    the double just below it. *)
Example train_buckets_scale_rounds :
  train_buckets_scale [2; 1]%nat = Ok [Sample.two_thirds; 1].
Proof. vm_compute. reflexivity. Qed.

(* ------------------------------------------------------------------ *)
(** ** Bucket selector, decode mode *)

Lemma scan_buckets_spec (buckets : list (nat * nat)) (k len : nat) :
  match scan_buckets buckets k len with
  | Some i => (k <= i)%nat /\ first_fit buckets len (i - k)
  | None => forall b, In b buckets -> (fst b < len)%nat
  end.
Proof.
  revert k; induction buckets as [|b rest IH]; intros k; simpl.
  - tauto.
  - destruct (len <=? fst b)%nat eqn:E.
    + apply Nat.leb_le in E. split; [lia|].
      rewrite Nat.sub_diag. repeat split; simpl; [lia | assumption | lia].
    + apply Nat.leb_gt in E. specialize (IH (S k)).
      destruct (scan_buckets rest (S k) len) as [i|].
      * destruct IH as (Hk & Hlen & Hfit & Hlow). split; [lia|].
        replace (i - k)%nat with (S (i - S k)) by lia.
        repeat split; simpl; [lia | assumption |].
        intros [|j] Hj; [assumption | apply Hlow; lia].
      * intros b' [<-|Hin]; [assumption | now apply IH].
Qed.

(** C3.  Decode-mode bucket selection.  For every bucket list and every
    input length the scan of lines 243-249 returns the first bucket whose
    input capacity is at least the length, without a warning; when no bucket
    fits it returns the last index of the list and the warning is logged.
    With the capacities of line 88, length 8 selects index 2 and length 20
    selects index 3 with the warning. *)
Theorem decode_bucket_first_fit (buckets : list (nat * nat)) (len : nat) :
  ((exists i, first_fit buckets len i /\
              decode_bucket buckets len = (Z.of_nat i, false))
   \/
   ((forall b, In b buckets -> (fst b < len)%nat) /\
    decode_bucket buckets len = (Z.of_nat (length buckets) - 1, true)%Z))
  /\ decode_bucket _buckets 8 = (2%Z, false)
  /\ decode_bucket _buckets 20 = (3%Z, true).
Proof.
  split; [|split; reflexivity].
  unfold decode_bucket. pose proof (scan_buckets_spec buckets 0 len) as H.
  destruct (scan_buckets buckets 0 len) as [i|].
  - left. exists i. destruct H as [_ H]. rewrite Nat.sub_0_r in H. auto.
  - right. auto.
Qed.

Example decode_bucket_shortest : decode_bucket _buckets 0 = (0%Z, false).
Proof. reflexivity. Qed.

(* ------------------------------------------------------------------ *)
(** ** Perplexity *)

Lemma Qltb_true (a b : Q) : Qltb a b = true <-> a < b.
Proof. unfold Qltb. apply (Qgtb_true b a). Qed.

Lemma Qltb_false (a b : Q) : Qltb a b = false <-> b <= a.
Proof. unfold Qltb. apply (Qgtb_false b a). Qed.

Section PerplexityGuard.

Variable exp_fl : Q -> Q.
Variable exp_max : Q.
Hypothesis exp_300_finite : 300 <= exp_max.

Lemma math_exp_below_300 (q : Q) :
  q < 300 -> math_exp exp_fl exp_max (Fin q) = Ok (Fin (exp_fl q)).
Proof.
  intros Hq. simpl.
  destruct (Qltb exp_max q) eqn:E; [|reflexivity].
  apply Qltb_true in E. lra.
Qed.

Lemma train_perplexity_never_raises (loss : pyfloat) :
  exists v, train_perplexity exp_fl exp_max loss = Ok v.
Proof.
  unfold train_perplexity.
  destruct (flt loss (Fin 300)) eqn:E; [|eauto].
  destruct loss as [q| | |]; simpl in E; try discriminate.
  - apply Qltb_true in E. rewrite math_exp_below_300 by assumption. eauto.
  - simpl. eauto.
Qed.

End PerplexityGuard.

(** C4.  Perplexity.  The training report (line 167) and the evaluation
    report (lines 188-189) compute the same function of the loss.  For a
    loss below 300 it is [math.exp] of the loss, which returns without an
    overflow; for a loss of 300 or more, 300 itself and [inf] included, it
    is positive infinity; it raises for no loss at all.  The hypothesis
    says that the exponential of 300 is a finite double. *)
Theorem perplexity_guard (exp_fl : Q -> Q) (exp_max : Q) :
  300 <= exp_max ->
  (forall loss,
      train_perplexity exp_fl exp_max loss
      = eval_perplexity exp_fl exp_max loss) /\
  (forall q, q < 300 ->
      train_perplexity exp_fl exp_max (Fin q) = Ok (Fin (exp_fl q))) /\
  (forall loss, flt loss (Fin 300) = true ->
      train_perplexity exp_fl exp_max loss = math_exp exp_fl exp_max loss /\
      math_exp exp_fl exp_max loss <> Raise OverflowError) /\
  (forall q, 300 <= q ->
      train_perplexity exp_fl exp_max (Fin q) = Ok PInf) /\
  (forall loss, fge loss (Fin 300) = true ->
      train_perplexity exp_fl exp_max loss = Ok PInf) /\
  (forall loss, exists v, train_perplexity exp_fl exp_max loss = Ok v).
Proof.
  intros Hmax. split; [reflexivity|].
  split; [|split; [|split; [|split]]].
  - intros q Hq. unfold train_perplexity. simpl.
    apply Qltb_true in Hq as Hq'. rewrite Hq'.
    now apply math_exp_below_300.
  - intros loss Hlt. unfold train_perplexity. rewrite Hlt.
    split; [reflexivity|].
    destruct loss as [q| | |]; simpl in Hlt; try discriminate.
    apply Qltb_true in Hlt. rewrite math_exp_below_300 by assumption.
    discriminate.
  - intros q Hq. unfold train_perplexity. simpl.
    apply Qltb_false in Hq. now rewrite Hq.
  - intros loss Hge. unfold train_perplexity.
    destruct loss as [q| | |]; simpl in *; try discriminate; try reflexivity.
    apply Qle_bool_iff, Qltb_false in Hge. now rewrite Hge.
  - intros loss. now apply train_perplexity_never_raises.
Qed.

Lemma perplexity_guard_witness :
  (forall loss,
      train_perplexity Sample.exp_fl Sample.exp_max loss
      = eval_perplexity Sample.exp_fl Sample.exp_max loss) /\
  (forall q, q < 300 ->
      train_perplexity Sample.exp_fl Sample.exp_max (Fin q)
      = Ok (Fin (Sample.exp_fl q))) /\
  (forall loss, flt loss (Fin 300) = true ->
      train_perplexity Sample.exp_fl Sample.exp_max loss
      = math_exp Sample.exp_fl Sample.exp_max loss /\
      math_exp Sample.exp_fl Sample.exp_max loss <> Raise OverflowError) /\
  (forall q, 300 <= q ->
      train_perplexity Sample.exp_fl Sample.exp_max (Fin q) = Ok PInf) /\
  (forall loss, fge loss (Fin 300) = true ->
      train_perplexity Sample.exp_fl Sample.exp_max loss = Ok PInf) /\
  (forall loss,
      exists v, train_perplexity Sample.exp_fl Sample.exp_max loss = Ok v).
Proof.
  apply (perplexity_guard Sample.exp_fl Sample.exp_max).
  unfold Sample.exp_max. lra.
Defined.

(** Without the guard [math.exp] does overflow: the guard is what keeps the
    error away. *)
Example math_exp_overflows :
  math_exp Sample.exp_fl Sample.exp_max (Fin 710) = Raise OverflowError /\
  train_perplexity Sample.exp_fl Sample.exp_max (Fin 710) = Ok PInf /\
  train_perplexity Sample.exp_fl Sample.exp_max (Fin 300) = Ok PInf /\
  train_perplexity Sample.exp_fl Sample.exp_max (Fin (2999 # 10))
  = Ok (Fin (2999 # 10)).
Proof. repeat split. Qed.

(* ------------------------------------------------------------------ *)
(** ** Token sequences *)

Lemma contains_In (x : Z) (s : pyseq) :
  contains x s = true <-> In x (items s).
Proof.
  unfold contains. rewrite existsb_exists. split.
  - intros (y & Hy & E). apply Z.eqb_eq in E. now subst.
  - intros H. exists x. split; [assumption | apply Z.eqb_refl].
Qed.

Lemma contains_not_In (x : Z) (s : pyseq) :
  contains x s = false <-> ~ In x (items s).
Proof.
  rewrite <- contains_In. destruct (contains x s); split; congruence.
Qed.

Lemma index_spec (l : list Z) (x : Z) :
  In x l ->
  exists i rest,
    Py.index l x = Ok i /\ l = firstn i l ++ x :: rest /\ ~ In x (firstn i l).
Proof.
  induction l as [|y l IH]; intros Hin; [destruct Hin|].
  simpl. destruct (y =? x)%Z eqn:E.
  - apply Z.eqb_eq in E. subst y. exists 0%nat, l. simpl. auto.
  - apply Z.eqb_neq in E. destruct Hin as [Hin|Hin]; [contradiction|].
    destruct (IH Hin) as (i & rest & Hi & Hl & Hnot).
    exists (S i), rest. rewrite Hi. simpl. repeat split.
    + now rewrite <- Hl.
    + intros [H|H]; auto.
Qed.

(** On a Python list the cut never raises and is the cut of the
    specification. *)
Lemma cut_at_eos_list (eos : Z) (l : list Z) :
  exists kept,
    cut_at_eos eos (PyList l) = Ok (PyList kept) /\ cut_at_first eos l kept.
Proof.
  unfold cut_at_eos. destruct (contains eos (PyList l)) eqn:E.
  - apply contains_In in E. simpl in E.
    destruct (index_spec l eos E) as (i & rest & Hi & Hl & Hnot).
    exists (firstn i l). simpl. rewrite Hi. simpl. split; [reflexivity|].
    right. exists rest. auto.
  - apply contains_not_In in E. simpl in E.
    exists l. split; [reflexivity|]. left. auto.
Qed.

(** On a numpy row the cut works only when there is nothing to cut. *)
Lemma cut_at_eos_ndarray (eos : Z) (row : list Z) :
  (In eos row -> cut_at_eos eos (NdArray row) = Raise AttributeError) /\
  (~ In eos row -> cut_at_eos eos (NdArray row) = Ok (NdArray row)).
Proof.
  unfold cut_at_eos. split; intros H.
  - apply (contains_In eos (NdArray row)) in H. now rewrite H.
  - apply (contains_not_In eos (NdArray row)) in H. now rewrite H.
Qed.

Lemma is_first_argmax_snoc (pre : list Q) (x : Q) (best : nat) :
  is_first_argmax pre best ->
  if Qgtb x (nth best pre 0)
  then is_first_argmax (pre ++ [x]) (length pre)
  else is_first_argmax (pre ++ [x]) best.
Proof.
  intros (Hb & Hmax & Hfirst).
  destruct (Qgtb x (nth best pre 0)) eqn:E.
  - apply Qgtb_true in E. unfold is_first_argmax.
    rewrite length_app, app_nth2, Nat.sub_diag by lia. simpl.
    repeat split; [lia | |].
    + intros j Hj. destruct (Nat.eq_dec j (length pre)) as [->|Hne].
      * rewrite app_nth2, Nat.sub_diag by lia. simpl. lra.
      * rewrite app_nth1 by lia. specialize (Hmax j ltac:(lia)). lra.
    + intros j Hj. rewrite app_nth1 by lia. specialize (Hmax j Hj). lra.
  - apply Qgtb_false in E. unfold is_first_argmax.
    rewrite length_app, (app_nth1 pre [x] 0 Hb). simpl.
    repeat split; [lia | |].
    + intros j Hj. destruct (Nat.eq_dec j (length pre)) as [->|Hne].
      * rewrite app_nth2, Nat.sub_diag by lia. simpl. exact E.
      * rewrite app_nth1 by lia. apply Hmax. lia.
    + intros j Hj. rewrite app_nth1 by lia. now apply Hfirst.
Qed.

Lemma argmax_from_spec (xs pre : list Q) (best : nat) :
  is_first_argmax pre best ->
  is_first_argmax (pre ++ xs)
                  (argmax_from xs (length pre) best (nth best pre 0)).
Proof.
  revert pre best; induction xs as [|x xs IH]; intros pre best H.
  - simpl. now rewrite app_nil_r.
  - simpl. pose proof (is_first_argmax_snoc pre x best H) as Hs.
    assert (length (pre ++ [x]) = S (length pre)) as Hlen
        by (rewrite length_app; simpl; lia).
    replace (pre ++ x :: xs) with ((pre ++ [x]) ++ xs)
      by now rewrite <- app_assoc.
    destruct (Qgtb x (nth best pre 0)).
    + specialize (IH _ _ Hs). rewrite Hlen in IH.
      rewrite app_nth2, Nat.sub_diag in IH by lia. exact IH.
    + specialize (IH _ _ Hs). rewrite Hlen in IH.
      destruct H as (Hb & _). rewrite app_nth1 in IH by exact Hb. exact IH.
Qed.

(** [np.argmax] on a non-empty vector returns the first index of its
    maximum. *)
Lemma argmax_spec (row : list Q) :
  row <> [] ->
  exists k, argmax row = Ok (Z.of_nat k) /\ is_first_argmax row k.
Proof.
  destruct row as [|x xs]; [congruence | intros _].
  eexists. split; [reflexivity|].
  apply (argmax_from_spec xs [x] 0%nat).
  repeat split; simpl; try lia.
  intros [|j] Hj; [lra | lia].
Qed.

(* ------------------------------------------------------------------ *)
(** ** The trace monad *)

Lemma trace_bindM {A B} (m : M A) (k : A -> M B) :
  trace (bindM m k) =
  trace m ++ match outcome m with
             | Ok a => trace (k a)
             | Raise _ => []
             end.
Proof.
  destruct m as [t [a|e]]; simpl.
  - now destruct (k a).
  - now rewrite app_nil_r.
Qed.

Lemma bindM_lift_ok {A B} (a : A) (k : A -> M B) :
  bindM (lift (Ok a)) k = k a.
Proof. unfold lift, bindM. now destruct (k a). Qed.

Lemma forM_app {A} (l1 l2 : list A) (body : A -> M unit) :
  forM (l1 ++ l2) body = bindM (forM l1 body) (fun _ => forM l2 body).
Proof.
  induction l1 as [|x l1 IH]; simpl.
  - now destruct (forM l2 body).
  - rewrite IH. destruct (body x) as [t [[]|e]]; simpl; [|reflexivity].
    destruct (forM l1 body) as [t1 [[]|e1]]; simpl.
    + destruct (forM l2 body) as [t2 r2]. now rewrite app_assoc.
    + reflexivity.
Qed.

(* ------------------------------------------------------------------ *)
(** ** The decode loop *)

Lemma mapM_argmax (logits : list (list Q)) :
  Forall (fun logit => logit <> []) logits ->
  exists ids,
    mapM argmax logits = Ok ids /\
    Forall2 (fun logit id => exists k, id = Z.of_nat k /\ is_first_argmax logit k)
            logits ids.
Proof.
  induction 1 as [|logit logits Hne _ (ids & Hids & Hall)].
  - exists []. split; [reflexivity | constructor].
  - destruct (argmax_spec logit Hne) as (k & Hk & Hmax).
    exists (Z.of_nat k :: ids). simpl. rewrite Hk, Hids. simpl.
    split; [reflexivity|]. constructor; eauto.
Qed.

Lemma mapM_lookup (i2w : Z -> option string) (ids : list Z) :
  (forall id, In id ids -> i2w id <> None) ->
  exists words,
    mapM (lookup i2w) ids = Ok words /\
    Forall2 (fun id w => i2w id = Some w) ids words.
Proof.
  induction ids as [|id ids IH]; intros H.
  - exists []. split; [reflexivity | constructor].
  - destruct IH as (words & Hw & Hall); [intros; apply H; now right|].
    destruct (i2w id) as [w|] eqn:E; [|now destruct (H id (or_introl eq_refl))].
    exists (w :: words). simpl. unfold lookup at 1. rewrite E. simpl.
    rewrite Hw. split; [reflexivity|]. constructor; assumption.
Qed.

Lemma cut_at_first_incl (eos : Z) (ids kept : list Z) :
  cut_at_first eos ids kept -> incl kept ids.
Proof.
  intros [[_ ->]|(rest & -> & _)]; [apply incl_refl | now apply incl_appl].
Qed.

Lemma Forall2_In_r {A B} (R : A -> B -> Prop) (l1 : list A) (l2 : list B) :
  Forall2 R l1 l2 -> forall y, In y l2 -> exists x, In x l1 /\ R x y.
Proof.
  induction 1 as [|x y l1 l2 HR _ IH]; intros z Hz; [destruct Hz|].
  destruct Hz as [<-|Hz].
  - exists x. split; [now left | assumption].
  - destruct (IH z Hz) as (x' & Hin & HR'). exists x'. split; [now right | assumption].
Qed.

(** C6.  Decode loop output.  For every input line whose logits are
    non-empty vectors over ids the vocabulary knows, the loop body emits
    exactly one line: the first-argmax id of every output timestep, cut at
    the first end-of-sequence marker when there is one, mapped through the
    id-to-word table and joined by spaces; it then prints the prompt and
    returns normally. *)
Theorem decode_greedy_cut_detokenize
        (EOS_ID : Z) (i2w : Z -> option string) (rq : request) :
  Forall (fun logit => logit <> []) (Decoder.output_logits rq) ->
  (forall logit k, In logit (Decoder.output_logits rq) ->
                   (k < length logit)%nat -> i2w (Z.of_nat k) <> None) ->
  exists ids kept words pre,
    Forall2 (fun logit id => exists k, id = Z.of_nat k /\ is_first_argmax logit k)
            (Decoder.output_logits rq) ids /\
    cut_at_first EOS_ID ids kept /\
    Forall2 (fun id w => i2w id = Some w) kept words /\
    decode_sentence EOS_ID i2w rq
    = (pre ++ [PrintLine (String.concat " " words); Prompt; Flush], Ok tt) /\
    (forall s, ~ In (PrintLine s) pre).
Proof.
  intros Hne Hvocab.
  destruct (mapM_argmax _ Hne) as (ids & Hids & Hargmax).
  destruct (cut_at_eos_list EOS_ID ids) as (kept & Hcut & Hkept).
  destruct (mapM_lookup i2w kept) as (words & Hwords & Hall).
  { intros id Hin. apply (cut_at_first_incl _ _ _ Hkept) in Hin.
    destruct (Forall2_In_r _ _ _ Hargmax id Hin)
      as (logit & Hlogit & k & -> & Hk & _).
    now apply (Hvocab logit). }
  unfold decode_sentence, decode_outputs.
  rewrite Hids. cbn [bind]. rewrite Hcut.
  destruct (decode_bucket _buckets (length (token_ids rq)))
    as [bucket_id truncated].
  exists ids, kept, words.
  destruct truncated;
    cbn [bindM emit lift ret app]; unfold join_tokens; cbn [items];
    rewrite Hwords; cbn [bind bindM emit lift ret app].
  - exists [LogWarning (sentence rq); GetDevBatch bucket_id;
            ModelStep bucket_id true].
    repeat split; try assumption.
    intros s [H|[H|[H|[]]]]; discriminate.
  - exists [GetDevBatch bucket_id; ModelStep bucket_id true].
    repeat split; try assumption.
    intros s [H|[H|[]]]; discriminate.
Qed.

Lemma decode_greedy_cut_detokenize_witness :
  exists ids kept words pre,
    Forall2 (fun logit id => exists k, id = Z.of_nat k /\ is_first_argmax logit k)
            (Decoder.output_logits Sample.request_8) ids /\
    cut_at_first Sample.EOS_ID ids kept /\
    Forall2 (fun id w => Sample.i2w id = Some w) kept words /\
    decode_sentence Sample.EOS_ID Sample.i2w Sample.request_8
    = (pre ++ [PrintLine (String.concat " " words); Prompt; Flush], Ok tt) /\
    (forall s, ~ In (PrintLine s) pre).
Proof.
  apply (decode_greedy_cut_detokenize Sample.EOS_ID Sample.i2w Sample.request_8).
  - repeat constructor; discriminate.
  - intros logit k Hin Hk.
    assert (k < 6)%nat as Hk6
        by (simpl in Hin; decompose [or] Hin; subst; simpl in Hk; tauto).
    do 6 (destruct k as [|k]; [discriminate|]). lia.
Defined.

Example decode_sentence_request_8 :
  decode_sentence Sample.EOS_ID Sample.i2w Sample.request_8
  = ([GetDevBatch 2; ModelStep 2 true; PrintLine "river moon"; Prompt; Flush],
     Ok tt).
Proof. reflexivity. Qed.

(* ------------------------------------------------------------------ *)
(** ** The evaluation reporter *)

(** C5.  Truncation of the three reported sequences.  The source and the
    target, which are Python lists, are cut at the first end-of-sequence
    marker.  The generated sequence is a row of the numpy array built at
    line 194, and line 212 calls [.index] on it: as soon as the row holds
    the marker the report stops with [AttributeError] instead of printing
    the row cut at the marker.  Here the model answers [moon _EOS river];
    the generated line should read [moon].  ([math.exp] is the stand-in
    of the sample data; the perplexity it prints plays no role.) *)
Theorem generated_row_with_eos_raises :
  greedy_outputs
    (Reporter.output_logits (Reporter.step Sample.evaluator_with_eos 0))
  = Ok [[4; 2; 5]%Z] /\
  cut_at_eos Sample.EOS_ID (NdArray [4; 2; 5]%Z) = Raise AttributeError /\
  cut_at_eos Sample.EOS_ID (PyList [4; 2; 5]%Z) = Ok (PyList [4]%Z) /\
  run_evals Sample.EOS_ID Sample.i2w Sample.exp_fl Sample.exp_max 1 Sample.dev_set
            Sample.evaluator_with_eos
  = ([GetDevBatch 0; ModelStep 0 true; PrintEvalPerplexity 0 (Fin 1);
      PrintLine "Original / generated / target text: ";
      PrintLine "moon river"],
     Raise AttributeError).
Proof. repeat split. Qed.

(** The failure does not depend on the sample: whenever the sampled row of
    generated ids holds the marker, the report of that batch position
    prints the source line and raises. *)
Lemma show_example_generated_eos
      (EOS_ID : Z) (i2w : Z -> option string) (batch_size : Z)
      (source target : list pyseq) (outputs : list (list Z)) (raw : nat)
      (index_to_show : Z) (ori_text ori_cut target_text : pyseq)
      (out_row : list Z) (line : string) :
  randint 0 (batch_size - 1) raw = Ok index_to_show ->
  getitem source index_to_show = Ok ori_text ->
  getitem target index_to_show = Ok target_text ->
  getitem outputs index_to_show = Ok out_row ->
  cut_at_eos EOS_ID ori_text = Ok ori_cut ->
  join_tokens i2w ori_cut = Ok line ->
  In EOS_ID out_row ->
  show_example EOS_ID i2w batch_size source target outputs raw
  = ([PrintLine "Original / generated / target text: "; PrintLine line],
     Raise AttributeError).
Proof.
  intros Hidx Hori Htgt Hrow Hcut Hline Hin. unfold show_example.
  rewrite Hidx, bindM_lift_ok, Hori, bindM_lift_ok, Htgt, bindM_lift_ok.
  rewrite Hrow, bindM_lift_ok, Hcut, bindM_lift_ok.
  cbn [bindM emit lift ret app]. rewrite Hline.
  rewrite (proj1 (cut_at_eos_ndarray EOS_ID out_row) Hin). reflexivity.
Qed.

(** The same report with a generated row that holds no marker goes
    through, and the two list sequences are cut. *)
Example show_example_without_eos :
  show_example Sample.EOS_ID Sample.i2w 1
               [PyList [4; 5; 2]%Z] [PyList [5; 2; 4]%Z] [[4; 5; 5]%Z] 0
  = ([PrintLine "Original / generated / target text: ";
      PrintLine "moon river"; PrintLine "moon river river";
      PrintLine "river"],
     Ok tt).
Proof. reflexivity. Qed.

Section Only.

Variable P : event -> Prop.

Lemma only_lift {A} (r : result A) : only P (lift r).
Proof. constructor. Qed.

Lemma only_ret {A} (a : A) : only P (ret a).
Proof. constructor. Qed.

Lemma only_emit (e : event) : P e -> only P (emit e).
Proof. intros H. repeat constructor. exact H. Qed.

Lemma only_bindM {A B} (m : M A) (k : A -> M B) :
  only P m -> (forall a, only P (k a)) -> only P (bindM m k).
Proof.
  unfold only. intros Hm Hk. rewrite trace_bindM. apply Forall_app.
  split; [assumption|]. destruct (outcome m); [apply Hk | constructor].
Qed.

Lemma only_forM {A} (l : list A) (body : A -> M unit) :
  (forall x, In x l -> only P (body x)) -> only P (forM l body).
Proof.
  induction l as [|x l IH]; intros H; simpl.
  - apply only_ret.
  - apply only_bindM; [apply H; now left|].
    intros _. apply IH. intros; apply H; now right.
Qed.

End Only.

Create HintDb only_db.
#[local] Hint Resolve only_lift only_ret only_emit : only_db.


Section EmptyDevBucket.

Variable EOS_ID : Z.
Variable i2w : Z -> option string.
Variable exp_fl : Q -> Q.
Variable exp_max : Q.
Variable batch_size : Z.
Variable dev_set : list (list (list Z * list Z)).
Variable ev : evaluator.

Local Abbreviation eval_bucket := (eval_bucket EOS_ID i2w exp_fl exp_max batch_size dev_set).
Local Abbreviation eval_buckets := (eval_buckets EOS_ID i2w exp_fl exp_max batch_size dev_set).
Local Abbreviation run_evals := (run_evals EOS_ID i2w exp_fl exp_max batch_size dev_set).

Lemma getitem_nth_error {A} (l : list A) (i : nat) (x : A) :
  nth_error l i = Some x -> getitem l (Z.of_nat i) = Ok x.
Proof.
  intros H. assert (i < length l)%nat as Hi
      by (apply nth_error_Some; congruence).
  unfold getitem. cbv zeta.
  rewrite (proj2 (Z.ltb_ge (Z.of_nat i) 0)) by lia. cbv iota.
  rewrite (proj2 (Z.ltb_ge (Z.of_nat i) 0)) by lia.
  rewrite (proj2 (Z.leb_gt (Z.of_nat (length l)) (Z.of_nat i))) by lia.
  cbn [orb]. now rewrite Nat2Z.id, H.
Qed.





End EmptyDevBucket.



(** With every held-out bucket empty the pass prints four warnings and
    runs no model step. *)
Example run_evals_all_empty :
  run_evals Sample.EOS_ID Sample.i2w Sample.exp_fl Sample.exp_max 1 Sample.no_dev_set
            Sample.evaluator_with_eos
  = ([PrintEmptyBucket 0; PrintEmptyBucket 1; PrintEmptyBucket 2;
      PrintEmptyBucket 3], Ok tt).
Proof. reflexivity. Qed.

(* ------------------------------------------------------------------ *)
(** ** The checkpoint event: learning-rate decay *)

Lemma fold_max_spec (xs : list Q) (x : Q) :
  let m := fold_left (fun m y => if Qgtb y m then y else m) xs x in
  (m = x \/ In m xs) /\ x <= m /\ (forall y, In y xs -> y <= m).
Proof.
  revert x; induction xs as [|y xs IH]; intros x; cbv zeta; simpl.
  - split; [now left | split; [lra | tauto]].
  - destruct (Qgtb y x) eqn:E.
    + apply Qgtb_true in E. destruct (IH y) as (H1 & H2 & H3).
      split; [destruct H1; auto|]. split; [lra|].
      intros z [<-|Hz]; [assumption | now apply H3].
    + apply Qgtb_false in E. destruct (IH x) as (H1 & H2 & H3).
      split; [destruct H1; auto|]. split; [assumption|].
      intros z [<-|Hz]; [lra | now apply H3].
Qed.

Lemma py_max_spec (l : list Q) :
  l <> [] -> exists m, Py.max l = Ok m /\ is_maximum l m.
Proof.
  destruct l as [|x xs]; [congruence | intros _].
  eexists. split; [reflexivity|].
  pose proof (fold_max_spec xs x) as (H1 & H2 & H3).
  split.
  - destruct H1 as [->|H1]; [now left | now right].
  - intros y [<-|Hy]; [assumption | now apply H3].
Qed.

Lemma last3_last_three (history : list Q) :
  last3 history = last_three history.
Proof.
  unfold last3, last_three. now rewrite firstn_rev, rev_involutive.
Qed.

(** The test of line 172 never raises, and holds exactly when the history
    has three entries or more and the loss is above the maximum of the
    last three. *)
Lemma no_improvement_spec (history : list Q) (loss : Q) :
  exists decay,
    no_improvement history loss = Ok decay /\
    (decay = true <->
     (3 <= length history)%nat /\
     exists m, is_maximum (last_three history) m /\ m < loss).
Proof.
  unfold no_improvement. destruct (2 <? length history)%nat eqn:E.
  - apply Nat.ltb_lt in E.
    destruct (py_max_spec (last3 history)) as (m & Hm & Hmax).
    { intros H. apply (f_equal (@length Q)) in H.
      unfold last3 in H. rewrite length_skipn in H. simpl in H. lia. }
    rewrite Hm. simpl. eexists. split; [reflexivity|].
    rewrite last3_last_three in Hmax. rewrite Qgtb_true. split.
    + intros Hlt. split; [lia|]. exists m. auto.
    + intros (_ & m' & [Hin Hle] & Hlt).
      destruct Hmax as [Hin' _]. specialize (Hle m Hin'). lra.
  - apply Nat.ltb_ge in E. exists false. split; [reflexivity|].
    split; [discriminate|]. intros [H _]. lia.
Qed.

Section Checkpoint.

Variable exp_fl : Q -> Q.
Variable exp_max : Q.
Hypothesis exp_300_finite : 300 <= exp_max.

(** The checkpoint event never raises; its trace and the state it leaves. *)
Lemma checkpoint_spec (st : train_state) :
  exists perplexity decay,
    train_perplexity exp_fl exp_max (Fin (loss st)) = Ok perplexity /\
    no_improvement (previous_losses st) (loss st) = Ok decay /\
    checkpoint exp_fl exp_max st
    = (PrintStats (step_time st) perplexity
         :: (if decay then [RunDecayOp] else []) ++ [SaveCheckpoint],
       Ok {| step_time := 0;
             loss := 0;
             current_step := current_step st;
             previous_losses := previous_losses st ++ [loss st] |}).
Proof.
  destruct (train_perplexity_never_raises exp_fl exp_max exp_300_finite
                                          (Fin (loss st))) as (ppx & Hppx).
  destruct (no_improvement_spec (previous_losses st) (loss st))
    as (decay & Hdecay & _).
  exists ppx, decay. split; [assumption|]. split; [assumption|].
  unfold checkpoint. rewrite Hppx, Hdecay.
  destruct decay; reflexivity.
Qed.

End Checkpoint.

(** C2.  Learning-rate decay at a checkpoint event.  The checkpoint never
    raises.  The decay operation is run at most once; it is run if and
    only if the history recorded before this checkpoint has at least three
    losses and the current loss is strictly above the maximum of the last
    three of them; the history after the checkpoint is the old history
    followed by the current loss. *)
Theorem decay_iff_no_improvement
        (exp_fl : Q -> Q) (exp_max : Q) (st : train_state) :
  300 <= exp_max ->
  exists tr st',
    checkpoint exp_fl exp_max st = (tr, Ok st') /\
    (decay_runs tr = 1%nat <->
     (3 <= length (previous_losses st))%nat /\
     exists m, is_maximum (last_three (previous_losses st)) m /\ m < loss st) /\
    (decay_runs tr <= 1)%nat /\
    previous_losses st' = previous_losses st ++ [loss st].
Proof.
  intros Hmax.
  destruct (checkpoint_spec exp_fl exp_max Hmax st)
    as (ppx & decay & _ & Hdecay & Hcp).
  destruct (no_improvement_spec (previous_losses st) (loss st))
    as (decay' & Hdecay' & Hiff).
  assert (decay' = decay) as -> by congruence.
  do 2 eexists. split; [exact Hcp|].
  rewrite <- Hiff. destruct decay; simpl; repeat split; auto; discriminate.
Qed.

Lemma decay_iff_no_improvement_witness :
  exists tr st',
    checkpoint Sample.exp_fl Sample.exp_max
               {| step_time := 1; loss := 12 # 10; current_step := 800;
                  previous_losses := [1; 9 # 10; 95 # 100] |}
    = (tr, Ok st') /\
    (decay_runs tr = 1%nat <->
     (3 <= 3)%nat /\
     exists m, is_maximum (last_three [1; 9 # 10; 95 # 100]) m /\
               m < 12 # 10) /\
    (decay_runs tr <= 1)%nat /\
    previous_losses st' = [1; 9 # 10; 95 # 100] ++ [12 # 10].
Proof.
  apply (decay_iff_no_improvement
           Sample.exp_fl Sample.exp_max
           {| step_time := 1; loss := 12 # 10; current_step := 800;
              previous_losses := [1; 9 # 10; 95 # 100] |}).
  unfold Sample.exp_max. lra.
Defined.

(** The loss sequence of the specification: history [1.0, 0.9, 0.95];
    a current loss of 1.2 runs the decay, 0.5 does not; with only two
    losses recorded nothing runs however large the loss. *)
Example decay_on_sample_history :
  no_improvement [1; 9 # 10; 95 # 100] (12 # 10) = Ok true /\
  no_improvement [1; 9 # 10; 95 # 100] (5 # 10) = Ok false /\
  no_improvement [1; 9 # 10] 1000 = Ok false /\
  no_improvement [50; 1; 9 # 10; 95 # 100] (12 # 10) = Ok true /\
  trace (checkpoint Sample.exp_fl Sample.exp_max
           {| step_time := 1; loss := 12 # 10; current_step := 800;
              previous_losses := [1; 9 # 10; 95 # 100] |})
  = [PrintStats 1 (Fin (12 # 10)); RunDecayOp; SaveCheckpoint].
Proof. repeat split. Qed.

(* ------------------------------------------------------------------ *)
(** ** The training loop: accumulators *)

Lemma inject_Z_neq0 (z : Z) : z <> 0%Z -> ~ inject_Z z == 0.
Proof.
  intros H E. apply H. exact (proj1 (inject_Z_injective z 0) E).
Qed.

Lemma accumulated_snoc (interval : Z) (xs : list Q) (x start : Q) :
  accumulated interval (xs ++ [x]) start
  = fadd (accumulated interval xs start) (fround (x / inject_Z interval)).
Proof. unfold accumulated. now rewrite fold_left_app. Qed.

Lemma fold_right_Qplus_snoc (xs : list Q) (x : Q) :
  fold_right Qplus 0 (xs ++ [x]) == fold_right Qplus 0 xs + x.
Proof.
  induction xs as [|y xs IH]; simpl.
  - ring.
  - rewrite IH. ring.
Qed.

Lemma pow2_double (k : Z) : 2 ^ (k + 1) == 2 * 2 ^ k.
Proof. rewrite pow2_add. change (2 ^ 1) with 2. ring. Qed.

(** One float accumulation step: the error grows by at most three units
    of [2 ^ (K - 53)] as long as the sums stay below [2 ^ (K + 1)]. *)
Lemma accumulate_error_step (K : Z) (a s q b c e : Q) :
  (-1022 <= K)%Z ->
  Qabs s <= b -> Qabs (a - s) <= e -> Qabs q <= c -> c <= 2 ^ K ->
  b + c + e + 2 ^ (K - 53) <= 2 ^ (K + 1) ->
  Qabs (fadd a (fround q) - (s + q)) <= e + 3 * 2 ^ (K - 53).
Proof.
  intros HK Hs Ha Hq Hc Hroom.
  assert (Hq' : Qabs q <= 2 ^ K) by (apply Qle_trans with c; assumption).
  pose proof (fround_error q K HK Hq') as Ed.
  assert (Hsum : Qabs (a + fround q) <= 2 ^ (K + 1)).
  { apply Qabs_Qle_condition in Hs, Ha, Hq, Ed. apply Qabs_Qle_condition.
    revert Hs Ha Hq Ed Hroom.
    generalize (fround q) (2 ^ (K - 53)) (2 ^ (K + 1)).
    intros d er p3. intros. split; lra. }
  pose proof (fround_error (a + fround q) (K + 1) ltac:(lia) Hsum) as Ea.
  replace (K + 1 - 53)%Z with (K - 53 + 1)%Z in Ea by lia.
  rewrite pow2_double in Ea. unfold fadd.
  apply Qabs_Qle_condition in Ha, Ed, Ea. apply Qabs_Qle_condition.
  revert Ha Ed Ea.
  generalize (fround (a + fround q)) (fround q) (2 ^ (K - 53)).
  intros r d er. intros. split; lra.
Qed.

Lemma accumulated_error (n K : Z) (xs : list Q) :
  (0 < n)%Z -> (-1022 <= K)%Z -> (3 * n <= 2 ^ 53)%Z ->
  (Z.of_nat (length xs) <= n)%Z ->
  Forall (fun x => Qabs x <= 2 ^ K) xs ->
  Qabs (fold_right Qplus 0 xs / inject_Z n)
  <= inject_Z (Z.of_nat (length xs)) * (2 ^ K / inject_Z n) /\
  Qabs (accumulated n xs 0 - fold_right Qplus 0 xs / inject_Z n)
  <= inject_Z (3 * Z.of_nat (length xs)) * 2 ^ (K - 53).
Proof.
  intros Hn HK Hbig.
  assert (Npos : 0 < inject_Z n).
  { change 0 with (inject_Z 0). rewrite <- Zlt_Qlt. exact Hn. }
  assert (N1 : 1 <= inject_Z n).
  { change 1 with (inject_Z 1). rewrite <- Zle_Qle. lia. }
  assert (Nne : ~ inject_Z n == 0) by (apply inject_Z_neq0; lia).
  pose proof (pow2_pos K) as PK. pose proof (pow2_pos (K - 53)) as PE.
  assert (PKE : 2 ^ K == inject_Z (2 ^ 53) * 2 ^ (K - 53)).
  { rewrite <- (pow2_Z 53) by lia. rewrite <- pow2_add. 
    replace (53 + (K - 53))%Z with K by lia. reflexivity. }
  assert (Cpos : 0 < 2 ^ K / inject_Z n).
  { apply Qlt_shift_div_l; [exact Npos|]. rewrite Qmult_0_l. exact PK. }
  assert (Cle : 2 ^ K / inject_Z n <= 2 ^ K).
  { apply Qle_shift_div_r; [exact Npos|].
    rewrite <- (Qmult_1_r (2 ^ K)) at 1.
    apply Qmult_le_l; [exact PK | exact N1]. }
  induction xs as [|x xs IH] using rev_ind; intros Hlen Hall.
  - simpl. split.
    + setoid_replace (0 / inject_Z n) with 0 by (field; exact Nne).
      simpl. rewrite Qmult_0_l. apply Qle_refl.
    + setoid_replace (0 - 0 / inject_Z n) with 0 by (field; exact Nne).
      simpl. rewrite Qmult_0_l. apply Qle_refl.
  - rewrite length_app in *. simpl length in *.
    apply Forall_app in Hall as [Hxs Hx]. apply Forall_inv in Hx.
    destruct (IH ltac:(lia) Hxs) as [Hs He]. clear IH.
    set (j := Z.of_nat (length xs)) in *.
    replace (Z.of_nat (length xs + 1)) with (j + 1)%Z by (unfold j; lia).
    assert (Hj : (0 <= j)%Z) by (unfold j; lia).
    assert (Hj1 : (j + 1 <= n)%Z) by (unfold j; lia).
    assert (Hq : Qabs (x / inject_Z n) <= 2 ^ K / inject_Z n).
    { unfold Qdiv. rewrite Qabs_Qmult.
      rewrite (Qabs_pos (/ inject_Z n))
        by (apply Qlt_le_weak, Qinv_lt_0_compat, Npos).
      apply Qmult_le_compat_r; [exact Hx|].
      apply Qlt_le_weak, Qinv_lt_0_compat, Npos. }
    assert (Esum : fold_right Qplus 0 (xs ++ [x]) / inject_Z n
                   == fold_right Qplus 0 xs / inject_Z n + x / inject_Z n).
    { rewrite fold_right_Qplus_snoc. field. exact Nne. }
    rewrite accumulated_snoc, Esum.
    split.
    + rewrite inject_Z_plus. change (inject_Z 1) with 1.
      apply Qle_trans with (Qabs (fold_right Qplus 0 xs / inject_Z n)
                            + Qabs (x / inject_Z n)); [apply Qabs_triangle|].
      revert Hs Hq.
      generalize (Qabs (fold_right Qplus 0 xs / inject_Z n))
                 (Qabs (x / inject_Z n)) (2 ^ K / inject_Z n) (inject_Z j).
      intros u v c jj Hs Hq. 
      setoid_replace ((jj + 1) * c) with (jj * c + c) by ring. lra.
    + replace (3 * (j + 1))%Z with (3 * j + 3)%Z by lia.
      rewrite inject_Z_plus. change (inject_Z 3) with 3.
      setoid_replace ((inject_Z (3 * j) + 3) * 2 ^ (K - 53))
        with (inject_Z (3 * j) * 2 ^ (K - 53) + 3 * 2 ^ (K - 53)) by ring.
      apply (accumulate_error_step K _ _ _
               (inject_Z j * (2 ^ K / inject_Z n))
               (2 ^ K / inject_Z n)
               (inject_Z (3 * j) * 2 ^ (K - 53)) HK Hs He Hq Cle).
      rewrite pow2_double.
      assert (B1 : inject_Z j * (2 ^ K / inject_Z n) + 2 ^ K / inject_Z n
                   <= 2 ^ K).
      { setoid_replace (inject_Z j * (2 ^ K / inject_Z n) + 2 ^ K / inject_Z n)
          with (inject_Z (j + 1) * (2 ^ K / inject_Z n))
          by (rewrite inject_Z_plus; change (inject_Z 1) with 1; ring).
        apply Qle_trans with (inject_Z n * (2 ^ K / inject_Z n)).
        - apply Qmult_le_compat_r; [|apply Qlt_le_weak; exact Cpos].
          rewrite <- Zle_Qle. exact Hj1.
        - setoid_replace (inject_Z n * (2 ^ K / inject_Z n)) with (2 ^ K)
            by (field; exact Nne).
          apply Qle_refl. }
      assert (B2 : inject_Z (3 * j) * 2 ^ (K - 53) + 2 ^ (K - 53) <= 2 ^ K).
      { rewrite PKE.
        setoid_replace (inject_Z (3 * j) * 2 ^ (K - 53) + 2 ^ (K - 53))
          with (inject_Z (3 * j + 1) * 2 ^ (K - 53))
          by (rewrite inject_Z_plus; change (inject_Z 1) with 1; ring).
        apply Qmult_le_compat_r; [|apply Qlt_le_weak; exact PE].
        rewrite <- Zle_Qle. lia. }
      revert B1 B2.
      generalize (inject_Z j * (2 ^ K / inject_Z n)).
      generalize (inject_Z (3 * j) * 2 ^ (K - 53)).
      generalize (2 ^ K / inject_Z n). generalize (2 ^ K).
      generalize (2 ^ (K - 53)).
      intros. lra.
Qed.

Lemma accumulated_near_mean (n K : Z) (xs : list Q) :
  (-1022 <= K)%Z -> (3 * n <= 2 ^ 53)%Z ->
  Z.of_nat (length xs) = n -> xs <> [] ->
  Forall (fun x => Qabs x <= 2 ^ K) xs ->
  Qabs (accumulated n xs 0 - mean xs) <= inject_Z (3 * n) * 2 ^ (K - 53).
Proof.
  intros HK Hbig Hlen Hne Hall.
  assert (Hn : (0 < n)%Z) by (destruct xs; [congruence | simpl in Hlen; lia]).
  destruct (accumulated_error n K xs Hn HK Hbig ltac:(lia) Hall) as [_ H].
  unfold mean. rewrite Hlen in *. exact H.
Qed.

Section TrainingLoop.

Variable EOS_ID : Z.
Variable i2w : Z -> option string.
Variable exp_fl : Q -> Q.
Variable exp_max : Q.
Variable batch_size : Z.
Variable steps_per_checkpoint : Z.
Variable dev_set : list (list (list Z * list Z)).
Variable train_buckets_scale : list Q.

Hypothesis exp_300_finite : 300 <= exp_max.
Hypothesis interval_pos : (0 < steps_per_checkpoint)%Z.

Local Abbreviation accumulate := (accumulate steps_per_checkpoint).
Local Abbreviation train_iteration :=
  (train_iteration EOS_ID i2w exp_fl exp_max batch_size steps_per_checkpoint
                   dev_set train_buckets_scale).
Local Abbreviation train_loop :=
  (train_loop EOS_ID i2w exp_fl exp_max batch_size steps_per_checkpoint
              dev_set train_buckets_scale).
Local Abbreviation run_evals :=
  (run_evals EOS_ID i2w exp_fl exp_max batch_size dev_set).

Local Abbreviation selects := (selects train_buckets_scale).

Lemma accumulate_ok (st : train_state) (it : iteration) :
  accumulate st it
  = Ok {| step_time :=
            fadd (step_time st)
                 (fround (elapsed it / inject_Z steps_per_checkpoint));
          loss :=
            fadd (loss st)
                 (fround (step_loss it / inject_Z steps_per_checkpoint));
          current_step := current_step st + 1;
          previous_losses := previous_losses st |}.
Proof.
  unfold Trainer.accumulate.
  rewrite !truediv_ok by (apply inject_Z_neq0; lia). reflexivity.
Qed.

(** A turn that does not reach a checkpoint only steps the model and
    accumulates. *)
Lemma train_iteration_plain (st : train_state) (it : iteration) :
  selects it ->
  ((current_step st + 1) mod steps_per_checkpoint <> 0)%Z ->
  exists tr,
    train_iteration st it
    = (tr, Ok {| step_time :=
                   fadd (step_time st)
                        (fround (elapsed it / inject_Z steps_per_checkpoint));
                 loss :=
                   fadd (loss st)
                        (fround (step_loss it
                                 / inject_Z steps_per_checkpoint));
                 current_step := current_step st + 1;
                 previous_losses := previous_losses st |}).
Proof.
  intros [b Hb] Hmod. unfold Trainer.train_iteration.
  rewrite Hb, accumulate_ok. unfold mod_.
  rewrite (proj2 (Z.eqb_neq steps_per_checkpoint 0)) by lia.
  cbn [bindM lift emit ret app current_step].
  rewrite (proj2 (Z.eqb_neq _ 0) Hmod). eexists. reflexivity.
Qed.

Lemma train_loop_plain (front : list iteration) (st : train_state) :
  Forall selects front ->
  (forall k, (0 < k <= Z.of_nat (length front))%Z ->
             ((current_step st + k) mod steps_per_checkpoint <> 0)%Z) ->
  exists tr,
    train_loop front st
    = (tr, Ok {| step_time :=
                   accumulated steps_per_checkpoint (map elapsed front)
                               (step_time st);
                 loss :=
                   accumulated steps_per_checkpoint (map step_loss front)
                               (loss st);
                 current_step := current_step st + Z.of_nat (length front);
                 previous_losses := previous_losses st |}).
Proof.
  revert st; induction front as [|it front IH]; intros st Hsel Hmod.
  - exists []. destruct st. simpl. now rewrite Z.add_0_r.
  - inversion Hsel as [|? ? Hit Hfront]; subst.
    destruct (train_iteration_plain st it Hit) as (tr1 & H1).
    { apply Hmod. simpl length. lia. }
    set (st1 := {| step_time := _ |}) in H1.
    destruct (IH st1 Hfront) as (tr2 & H2).
    { intros k Hk. subst st1. cbn [current_step].
      replace (current_step st + 1 + k)%Z with (current_step st + (1 + k))%Z
        by lia.
      apply Hmod. simpl length. lia. }
    exists (tr1 ++ tr2). cbn [Trainer.train_loop]. rewrite H1.
    cbn [bindM]. rewrite H2. subst st1.
    cbn [step_time loss current_step previous_losses].
    replace (current_step st + 1 + Z.of_nat (length front))%Z
      with (current_step st + Z.of_nat (length (it :: front)))%Z
      by (simpl length; lia).
    reflexivity.
Qed.

Lemma train_loop_app (l1 l2 : list iteration) (st : train_state) :
  train_loop (l1 ++ l2) st
  = (st1 <~ train_loop l1 st ;; train_loop l2 st1).
Proof.
  revert st; induction l1 as [|it l1 IH]; intros st; simpl.
  - now destruct (train_loop l2 st).
  - destruct (train_iteration st it) as [t [st1|e]]; simpl; [|reflexivity].
    rewrite IH. destruct (train_loop l1 st1) as [t1 [st2|e1]]; simpl.
    + destruct (train_loop l2 st2) as [t2 r2]. now rewrite app_assoc.
    + reflexivity.
Qed.

(** A turn that reaches a checkpoint whose evaluation pass returns. *)
Lemma train_iteration_checkpoint (st : train_state) (it : iteration) :
  selects it ->
  ((current_step st + 1) mod steps_per_checkpoint = 0)%Z ->
  outcome (run_evals (evaluation it)) = Ok tt ->
  exists tr perplexity,
    train_perplexity exp_fl exp_max
      (Fin (fadd (loss st)
                 (fround (step_loss it / inject_Z steps_per_checkpoint))))
    = Ok perplexity /\
    In (PrintStats
          (fadd (step_time st)
                (fround (elapsed it / inject_Z steps_per_checkpoint)))
          perplexity) tr /\
    train_iteration st it
    = (tr, Ok {| step_time := 0;
                 loss := 0;
                 current_step := current_step st + 1;
                 previous_losses :=
                   previous_losses st
                   ++ [fadd (loss st)
                            (fround (step_loss it
                                     / inject_Z steps_per_checkpoint))] |}).
Proof.
  intros [b Hb] Hmod Hevals. unfold Trainer.train_iteration.
  rewrite Hb, accumulate_ok. unfold mod_.
  rewrite (proj2 (Z.eqb_neq steps_per_checkpoint 0)) by lia.
  cbn [bindM lift emit ret app current_step].
  rewrite Hmod. cbn [Z.eqb].
  match goal with
  | |- context [checkpoint _ _ ?s] =>
      destruct (checkpoint_spec exp_fl exp_max exp_300_finite s)
        as (ppx & decay & Hppx & _ & Hcp)
  end.
  rewrite Hcp. cbn [step_time loss current_step previous_losses] in *.
  destruct (Reporter.run_evals EOS_ID i2w exp_fl exp_max batch_size dev_set
                               (evaluation it)) as [te re].
  simpl in Hevals. subst re. cbn [bindM lift emit ret app].
  eexists. exists ppx. split; [exact Hppx|]. split; [|reflexivity].
  do 2 right. now left.
Qed.

Lemma plain_steps_miss_checkpoint (c k : Z) :
  (c mod steps_per_checkpoint = 0)%Z ->
  (0 < k < steps_per_checkpoint)%Z ->
  ((c + k) mod steps_per_checkpoint <> 0)%Z.
Proof.
  intros Hc Hk.
  rewrite Z.add_mod, Hc, Z.add_0_l, Z.mod_mod, Z.mod_small by lia. lia.
Qed.

Lemma full_interval_hits_checkpoint (c : Z) :
  (c mod steps_per_checkpoint = 0)%Z ->
  ((c + steps_per_checkpoint) mod steps_per_checkpoint = 0)%Z.
Proof.
  intros Hc.
  rewrite Z.add_mod, Hc, Z.mod_same, Z.add_0_l, Z.mod_0_l by lia. reflexivity.
Qed.

(** The loop up to and including a checkpoint reached after a whole
    interval: what it reports, records and leaves. *)
Lemma train_loop_interval_end
      (st : train_state) (front : list iteration) (final : iteration) :
  Z.of_nat (length (front ++ [final])) = steps_per_checkpoint ->
  loss st = 0 ->
  step_time st = 0 ->
  (current_step st mod steps_per_checkpoint = 0)%Z ->
  Forall selects (front ++ [final]) ->
  outcome (run_evals (evaluation final)) = Ok tt ->
  exists tr perplexity,
    train_perplexity exp_fl exp_max
      (Fin (accumulated steps_per_checkpoint
                        (map step_loss (front ++ [final])) 0))
    = Ok perplexity /\
    In (PrintStats (accumulated steps_per_checkpoint
                                (map elapsed (front ++ [final])) 0)
                   perplexity) tr /\
    train_loop (front ++ [final]) st
    = (tr, Ok {| step_time := 0;
                 loss := 0;
                 current_step := current_step st + steps_per_checkpoint;
                 previous_losses :=
                   previous_losses st
                   ++ [accumulated steps_per_checkpoint
                                   (map step_loss (front ++ [final])) 0] |}).
Proof.
  intros Hlen Hloss Htime Hstep Hsel Hevals.
  apply Forall_app in Hsel as [Hfront Hfinal].
  apply Forall_inv in Hfinal as Hfin.
  rewrite length_app in Hlen. simpl length in Hlen.
  destruct (train_loop_plain front st Hfront) as (tr1 & H1).
  { intros k Hk. apply plain_steps_miss_checkpoint; [assumption | lia]. }
  set (st1 := {| step_time := _ |}) in H1.
  destruct (train_iteration_checkpoint st1 final Hfin)
    as (tr2 & ppx & Hppx & Hin & H2).
  { subst st1. cbn [current_step].
    replace (current_step st + Z.of_nat (length front) + 1)%Z
      with (current_step st + steps_per_checkpoint)%Z by lia.
    now apply full_interval_hits_checkpoint. }
  { assumption. }
  subst st1. cbn [step_time loss current_step previous_losses] in *.
  rewrite Hloss in *. rewrite Htime in *.
  rewrite <- !accumulated_snoc, <- !map_last in *.
  exists (tr1 ++ tr2), ppx.
  split; [exact Hppx|].
  split; [apply in_or_app; right; exact Hin|].
  rewrite train_loop_app, H1. cbn [bindM Trainer.train_loop].
  rewrite H2. cbn [bindM ret]. rewrite app_nil_r.
  replace (current_step st + Z.of_nat (length front) + 1)%Z
    with (current_step st + steps_per_checkpoint)%Z by lia.
  reflexivity.
Qed.

(** C7, as amended.  Loss and step-time accumulation.  Every training step
    adds, by a float addition, the float quotients [step_loss / interval]
    and [step_duration / interval] to the accumulators; every checkpoint
    event leaves both at exactly zero.  Starting right after a checkpoint
    (both accumulators zero, step count a multiple of the interval), a run
    of exactly [interval] turns reaches its checkpoint in the last turn and
    not before; the loss that this checkpoint reports and records in the
    history is the float sum, in order, of the rounded quotients of the
    run, which is the arithmetic mean of the step losses up to rounding:
    for step losses of magnitude at most [2 ^ K] it is within
    [3 * interval * 2 ^ (K - 53)] of the mean.  The run ends with both
    accumulators at zero.  The turns are assumed to select a bucket, and
    the evaluation pass of the last turn to return. *)
Theorem loss_accumulates_rounded_mean
        (st : train_state) (front : list iteration) (final : iteration)
        (K : Z) :
  Z.of_nat (length (front ++ [final])) = steps_per_checkpoint ->
  loss st = 0 ->
  step_time st = 0 ->
  (current_step st mod steps_per_checkpoint = 0)%Z ->
  Forall selects (front ++ [final]) ->
  outcome (run_evals (evaluation final)) = Ok tt ->
  (-1022 <= K)%Z ->
  (3 * steps_per_checkpoint <= 2 ^ 53)%Z ->
  Forall (fun it => Qabs (step_loss it) <= 2 ^ K) (front ++ [final]) ->
  (forall s it,
      exists s',
        accumulate s it = Ok s' /\
        loss s'
        = fadd (loss s)
               (fround (step_loss it / inject_Z steps_per_checkpoint)) /\
        step_time s'
        = fadd (step_time s)
               (fround (elapsed it / inject_Z steps_per_checkpoint))) /\
  (forall s,
      exists tr s',
        checkpoint exp_fl exp_max s = (tr, Ok s') /\
        loss s' = 0 /\ step_time s' = 0) /\
  exists tr st' m t perplexity,
    train_loop (front ++ [final]) st = (tr, Ok st') /\
    m = accumulated steps_per_checkpoint
                    (map step_loss (front ++ [final])) 0 /\
    t = accumulated steps_per_checkpoint
                    (map elapsed (front ++ [final])) 0 /\
    Qabs (m - mean (map step_loss (front ++ [final])))
    <= inject_Z (3 * steps_per_checkpoint) * 2 ^ (K - 53) /\
    train_perplexity exp_fl exp_max (Fin m) = Ok perplexity /\
    In (PrintStats t perplexity) tr /\
    previous_losses st' = previous_losses st ++ [m] /\
    loss st' = 0 /\
    step_time st' = 0 /\
    current_step st' = (current_step st + steps_per_checkpoint)%Z.
Proof.
  intros Hlen Hloss Htime Hstep Hsel Hevals HK Hbig Hbound.
  split; [|split].
  - intros s it. eexists. split; [apply accumulate_ok|]. split; reflexivity.
  - intros s.
    destruct (checkpoint_spec exp_fl exp_max exp_300_finite s)
      as (ppx & decay & _ & _ & Hcp).
    do 2 eexists. split; [exact Hcp|]. split; reflexivity.
  - destruct (train_loop_interval_end st front final
                Hlen Hloss Htime Hstep Hsel Hevals)
      as (tr & ppx & Hppx & Hin & Hrun).
    exists tr. eexists.
    exists (accumulated steps_per_checkpoint
                        (map step_loss (front ++ [final])) 0).
    exists (accumulated steps_per_checkpoint
                        (map elapsed (front ++ [final])) 0).
    exists ppx.
    split; [exact Hrun|].
    split; [reflexivity|]. split; [reflexivity|].
    split.
    { apply accumulated_near_mean; try assumption.
      - now rewrite length_map.
      - destruct front; discriminate.
      - apply Forall_map. exact Hbound. }
    split; [exact Hppx|]. split; [exact Hin|].
    cbn [step_time loss current_step previous_losses].
    repeat split.
Qed.

End TrainingLoop.

Lemma loss_accumulates_rounded_mean_witness :
  (forall s it,
      exists s',
        accumulate 2 s it = Ok s' /\
        loss s' = fadd (loss s) (fround (step_loss it / inject_Z 2)) /\
        step_time s'
        = fadd (step_time s) (fround (elapsed it / inject_Z 2))) /\
  (forall s,
      exists tr s',
        checkpoint Sample.exp_fl Sample.exp_max s = (tr, Ok s') /\
        loss s' = 0 /\ step_time s' = 0) /\
  exists tr st' m t perplexity,
    train_loop Sample.EOS_ID Sample.i2w Sample.exp_fl Sample.exp_max 1 2
               Sample.no_dev_set Sample.scale
               ([Sample.turn_a] ++ [Sample.turn_b]) initial_state
    = (tr, Ok st') /\
    m = accumulated 2 (map step_loss ([Sample.turn_a] ++ [Sample.turn_b])) 0 /\
    t = accumulated 2 (map elapsed ([Sample.turn_a] ++ [Sample.turn_b])) 0 /\
    Qabs (m - mean (map step_loss ([Sample.turn_a] ++ [Sample.turn_b])))
    <= inject_Z (3 * 2) * 2 ^ (3 - 53) /\
    train_perplexity Sample.exp_fl Sample.exp_max (Fin m) = Ok perplexity /\
    In (PrintStats t perplexity) tr /\
    previous_losses st' = previous_losses initial_state ++ [m] /\
    loss st' = 0 /\
    step_time st' = 0 /\
    current_step st' = (current_step initial_state + 2)%Z.
Proof.
  apply (loss_accumulates_rounded_mean
           Sample.EOS_ID Sample.i2w Sample.exp_fl Sample.exp_max 1 2
           Sample.no_dev_set Sample.scale).
  - unfold Sample.exp_max. lra.
  - lia.
  - reflexivity.
  - reflexivity.
  - reflexivity.
  - reflexivity.
  - repeat constructor; eexists; reflexivity.
  - reflexivity.
  - lia.
  - lia.
  - repeat constructor; vm_compute; discriminate.
Defined.

(** C7, as stated, fails.  With an interval of ten steps and ten step
    losses all equal to the double [0.1], whose arithmetic mean is that
    same double, the loss recorded at the checkpoint is the double below
    it (Python prints [0.09999999999999999]). *)
Lemma loss_mean_counterexample :
  exists tr st' m,
    train_loop Sample.EOS_ID Sample.i2w Sample.exp_fl Sample.exp_max 1 10
               Sample.no_dev_set Sample.scale
               (repeat Sample.turn_tenth 10) initial_state
    = (tr, Ok st') /\
    previous_losses st' = [m] /\
    mean (map step_loss (repeat Sample.turn_tenth 10)) == Sample.tenth /\
    m == 7205759403792793 # 72057594037927936 /\
    ~ m == mean (map step_loss (repeat Sample.turn_tenth 10)).
Proof.
  do 2 eexists. exists (7205759403792793 # 72057594037927936).
  split; [vm_compute; reflexivity|].
  split; [reflexivity|].
  split; [vm_compute; reflexivity|].
  split; [reflexivity|].
  vm_compute. discriminate.
Qed.

(** The same two turns, run: the checkpoint of the second turn reports
    and records (3 + 5) / 2 and a step time of (2 + 4) / 2, which the
    float operations give exactly. *)
Example two_turns_run :
  train_loop Sample.EOS_ID Sample.i2w Sample.exp_fl Sample.exp_max 1 2
             Sample.no_dev_set Sample.scale
             [Sample.turn_a; Sample.turn_b] initial_state
  = ([GetBatch 0; ModelStep 0 false;
      GetBatch 2; ModelStep 2 false;
      PrintStats 3 (Fin 4); SaveCheckpoint;
      PrintEmptyBucket 0; PrintEmptyBucket 1; PrintEmptyBucket 2;
      PrintEmptyBucket 3; Flush],
     Ok {| step_time := 0; loss := 0; current_step := 2;
           previous_losses := [4] |}).
Proof. vm_compute. reflexivity. Qed.

(** With an interval of three the same two losses leave the accumulator
    at the double Python prints as [2.666666666666667], not at 8/3. *)
Example accumulator_rounds :
  accumulated 3 [3; 5] 0 = 3002399751580331 # 1125899906842624.
Proof. vm_compute. reflexivity. Qed.

(** A zero interval makes the first accumulation raise. *)
Example zero_interval_raises :
  accumulate 0 initial_state Sample.turn_a = Raise ZeroDivisionError.
Proof. reflexivity. Qed.

(* ------------------------------------------------------------------ *)
(** ** The batch sampler: weight mask *)

Section WeightMask.

Variable PAD_ID : Z.
Variable GO_ID : Z.









End WeightMask.



(** The scenario of the specification: bucket (3,3), target [3,4]; a
    target that ends with the marker in a bucket of output capacity 5,
    where the marker is learned and the padding is not; and the same
    target filling a bucket of output capacity 3, where the weight paired
    with the marker is the forced 0. *)
Example weight_rows :
  pad_target 0 1 [3; 4]%Z 3 = [1; 3; 4; 0]%Z /\
  weight_row 0 1 [3; 4]%Z 3 = [1; 1; 0] /\
  pad_target 0 1 [3; 4; 2]%Z 5 = [1; 3; 4; 2; 0; 0]%Z /\
  weight_row 0 1 [3; 4; 2]%Z 5 = [1; 1; 1; 0; 0] /\
  pad_target 0 1 [3; 4; 2]%Z 3 = [1; 3; 4; 2]%Z /\
  weight_row 0 1 [3; 4; 2]%Z 3 = [1; 1; 0] /\
  batch_weights 0 1 [[5; 2]; [3; 4; 2]]%Z 5
  = [[1; 1]; [1; 1]; [0; 1]; [0; 0]; [0; 0]] /\
  batch_weights 0 1 [[5; 2]; [3; 4; 2]]%Z 3
  = [[1; 1]; [1; 1]; [0; 0]].
Proof. repeat split. Qed.

(* ------------------------------------------------------------------ *)
(** ** Whole runs on the sample data *)

(** A line longer than every bucket is not refused: the warning is logged,
    the last bucket is used and the answer is printed. *)
Example decode_sentence_too_long :
  decode_sentence Sample.EOS_ID Sample.i2w Sample.request_20
  = ([LogWarning "abcdefghijklmnopqrst"; GetDevBatch 3; ModelStep 3 true;
      PrintLine "moon"; Prompt; Flush],
     Ok tt).
Proof. reflexivity. Qed.

Example decode_two_lines :
  trace (decode Sample.EOS_ID Sample.i2w [Sample.request_8; Sample.request_20])
  = [GetDevBatch 2; ModelStep 2 true; PrintLine "river moon"; Prompt; Flush;
     LogWarning "abcdefghijklmnopqrst"; GetDevBatch 3; ModelStep 3 true;
     PrintLine "moon"; Prompt; Flush].
Proof. reflexivity. Qed.

(** [train] on the sample training set: the scale is computed from the
    bucket sizes 1, 0, 3, 0 and the two turns pick buckets 0 and 2. *)
Example train_two_turns :
  train_bucket_sizes Sample.train_set = Ok [1; 0; 3; 0]%nat /\
  trace (train Sample.fresh
               Sample.EOS_ID Sample.i2w Sample.exp_fl Sample.exp_max 1 2
               Sample.no_dev_set Sample.train_set
               [Sample.turn_a; Sample.turn_b])
  = [PrintCreating 2 300; BuildModel false;
     PrintLine "Created model with fresh parameters."; InitVariables;
     PrintLine "Reading development and training data.";
     ReadData true; ReadData false; LoadVocab;
     GetBatch 0; ModelStep 0 false; GetBatch 2; ModelStep 2 false;
     PrintStats 3 (Fin 4);
     SaveCheckpoint;
     PrintEmptyBucket 0; PrintEmptyBucket 1; PrintEmptyBucket 2;
     PrintEmptyBucket 3; Flush].
Proof. split; vm_compute; reflexivity. Qed.

(** [create_model] with a checkpoint on disk restores it; with a
    checkpoint state whose files are gone it starts afresh. *)
Example create_model_restores :
  create_model {| num_layers := 2; size := 300; ckpt := Some "ckp-800"%string;
                  checkpoint_exists := fun _ => true |} true
  = ([BuildModel true; PrintLine "Reading model parameters from ckp-800";
      RestoreModel "ckp-800"], Ok tt) /\
  create_model {| num_layers := 2; size := 300; ckpt := Some "ckp-800"%string;
                  checkpoint_exists := fun _ => false |} true
  = ([BuildModel true; PrintLine "Created model with fresh parameters.";
      InitVariables], Ok tt).
Proof. split; reflexivity. Qed.

(** With the sample development set the first checkpoint stops the
    training: the generated row of bucket 0 holds the end marker. *)
Example train_stops_at_first_report :
  outcome (train Sample.fresh
                 Sample.EOS_ID Sample.i2w Sample.exp_fl Sample.exp_max 1 2
                 Sample.dev_set Sample.train_set
                 [Sample.turn_a; Sample.turn_b; Sample.turn_a])
  = Raise AttributeError.
Proof. vm_compute. reflexivity. Qed.

(** An empty training set stops [train] after the set-up and before the
    first turn. *)
Example train_without_examples :
  train Sample.fresh
        Sample.EOS_ID Sample.i2w Sample.exp_fl Sample.exp_max 1 2
        Sample.no_dev_set Sample.no_dev_set [Sample.turn_a]
  = ([PrintCreating 2 300; BuildModel false;
      PrintLine "Created model with fresh parameters."; InitVariables;
      PrintLine "Reading development and training data.";
      ReadData true; ReadData false],
     Raise ZeroDivisionError).
Proof. reflexivity. Qed.

(* ================================================================== *)
(** * Further properties of the code *)

(* ------------------------------------------------------------------ *)
(** ** The scale and the buckets it selects *)

Lemma train_buckets_scale_zero (sizes : list nat) :
  sizes <> [] -> list_sum sizes = 0%nat ->
  train_buckets_scale sizes = Raise ZeroDivisionError.
Proof.
  intros Hne Hzero. unfold train_buckets_scale, train_total_size.
  rewrite py_sum_list_sum, Hzero.
  destruct sizes as [|c sizes]; [congruence|]. reflexivity.
Qed.

(** A scale list that was built comes from a positive total, unless there
    is no bucket at all. *)
Lemma train_buckets_scale_inv (sizes : list nat) (scale : list Q) :
  train_buckets_scale sizes = Ok scale ->
  sizes <> [] ->
  (0 < list_sum sizes)%nat /\
  scale = map (fun i => fround (float_of_nat (cumulative sizes i)
                                / train_total_size sizes))
              (seq 0 (length sizes)).
Proof.
  intros Hscale Hne.
  destruct (Nat.eq_dec (list_sum sizes) 0) as [Hzero|Hpos].
  - rewrite train_buckets_scale_zero in Hscale by assumption. discriminate.
  - assert (0 < list_sum sizes)%nat as Hlt by lia. split; [exact Hlt|].
    rewrite train_buckets_scale_ok in Hscale by exact Hlt. congruence.
Qed.

Lemma selected_bucket_populated (sizes : list nat) (scale : list Q)
      (u : Q) (i : nat) :
  train_buckets_scale sizes = Ok scale ->
  0 <= u ->
  select_bucket scale u = Ok i ->
  (i < length sizes)%nat /\ (0 < nth i sizes 0)%nat.
Proof.
  intros Hscale Hu Hsel.
  destruct sizes as [|c sizes'] eqn:Esizes.
  { simpl in Hscale. injection Hscale as <-. discriminate. }
  rewrite <- Esizes in *.
  destruct (train_buckets_scale_inv sizes scale Hscale) as [Hpos ->];
    [congruence|].
  assert (i < length sizes)%nat as Hi.
  { apply select_bucket_spec in Hsel as (Hi & _).
    now rewrite length_map, length_seq in Hi. }
  split; [exact Hi|].
  apply (select_interval sizes Hpos i u Hi Hu) in Hsel as [Hlo Hhi].
  destruct (nth i sizes 0%nat) as [|n] eqn:En; [|lia].
  exfalso. rewrite scale_nth in Hhi by assumption.
  destruct i as [|j]; simpl lower in Hlo.
  - simpl cumulative in Hhi. rewrite En in Hhi.
    rewrite (fround_zero (float_of_nat 0 / train_total_size sizes)) in Hhi
      by (unfold Qdiv; apply Qmult_0_l).
    lra.
  - rewrite scale_nth in Hlo by lia.
    simpl cumulative in Hhi. rewrite En, Nat.add_0_r in Hhi. lra.
Qed.

(** X1.  With a positive total and a draw in [0,1) the selector returns a
    bucket that exists and holds at least one training example: a bucket
    with no example is never selected. *)
Theorem select_bucket_never_empty (sizes : list nat) (u : Q) :
  (0 < list_sum sizes)%nat -> 0 <= u -> u < 1 ->
  exists scale i,
    train_buckets_scale sizes = Ok scale /\
    select_bucket scale u = Ok i /\
    (i < length sizes)%nat /\ (0 < nth i sizes 0)%nat.
Proof.
  intros Hpos Hu0 Hu1.
  destruct (select_total sizes Hpos u Hu1) as [i Hsel].
  pose proof (train_buckets_scale_ok sizes Hpos) as Hscale.
  do 2 eexists. split; [exact Hscale|]. split; [exact Hsel|].
  exact (selected_bucket_populated _ _ _ _ Hscale Hu0 Hsel).
Qed.

Lemma select_bucket_never_empty_witness :
  exists scale i,
    train_buckets_scale [0; 2; 0; 5]%nat = Ok scale /\
    select_bucket scale 0 = Ok i /\
    (i < 4)%nat /\ (0 < nth i [0; 2; 0; 5]%nat 0)%nat.
Proof.
  apply (select_bucket_never_empty [0; 2; 0; 5]%nat 0).
  - simpl. lia.
  - lra.
  - lra.
Defined.

(** X2.  The scale is a list of non-decreasing numbers between 0 and 1,
    as the comment of lines 135-137 says, one per bucket. *)
Theorem scale_nondecreasing_in_unit_interval (sizes : list nat) :
  (0 < list_sum sizes)%nat ->
  exists scale,
    train_buckets_scale sizes = Ok scale /\
    length scale = length sizes /\
    (forall i j, (i <= j)%nat -> (j < length sizes)%nat ->
                 nth i scale 0 <= nth j scale 0) /\
    (forall i, (i < length sizes)%nat ->
               0 <= nth i scale 0 /\ nth i scale 0 <= 1).
Proof.
  intros Hpos. eexists. split; [apply train_buckets_scale_ok, Hpos|].
  split; [now rewrite length_map, length_seq|]. split.
  - intros i j Hij Hj. now apply scale_mono.
  - intros i Hi. split.
    + rewrite scale_nth by assumption.
      apply fround_nonneg, share_nonneg, Hpos.
    + rewrite <- (scale_last sizes Hpos). apply scale_mono; [assumption | lia |].
      destruct sizes; simpl in *; lia.
Qed.

Lemma scale_nondecreasing_in_unit_interval_witness :
  exists scale,
    train_buckets_scale [3; 0; 1]%nat = Ok scale /\
    length scale = 3%nat /\
    (forall i j, (i <= j)%nat -> (j < 3)%nat ->
                 nth i scale 0 <= nth j scale 0) /\
    (forall i, (i < 3)%nat -> 0 <= nth i scale 0 /\ nth i scale 0 <= 1).
Proof.
  apply (scale_nondecreasing_in_unit_interval [3; 0; 1]%nat). simpl. lia.
Defined.

(* ------------------------------------------------------------------ *)
(** ** What the events of a run can be *)

Lemma only_impl {A} (P P' : event -> Prop) (m : M A) :
  (forall e, P e -> P' e) -> only P m -> only P' m.
Proof. unfold only. intros H. apply Forall_impl, H. Qed.

Lemma only_bindM_lift {A B} (P : event -> Prop) (r : result A)
      (k : A -> M B) :
  (forall a, r = Ok a -> only P (k a)) -> only P (bindM (lift r) k).
Proof.
  intros H. destruct r as [a|e].
  - rewrite bindM_lift_ok. now apply H.
  - constructor.
Qed.

Section ReportEvents.

Variable EOS_ID : Z.
Variable i2w : Z -> option string.
Variable exp_fl : Q -> Q.
Variable exp_max : Q.
Variable batch_size : Z.
Variable dev_set : list (list (list Z * list Z)).

Lemma show_example_only_prints (P : event -> Prop)
      (source target : list pyseq) (outputs : list (list Z)) (raw : nat) :
  (forall s, P (PrintLine s)) ->
  only P (show_example EOS_ID i2w batch_size source target outputs raw).
Proof.
  intros HP. unfold show_example.
  repeat (apply only_bindM;
          [first [apply only_lift | apply only_emit, HP] | intros]).
  apply only_emit, HP.
Qed.

Lemma eval_bucket_report (ev : evaluator) (b : nat) :
  only is_report
       (eval_bucket EOS_ID i2w exp_fl exp_max batch_size dev_set ev b).
Proof.
  unfold Reporter.eval_bucket.
  apply only_bindM; [apply only_lift|]. intros examples.
  destruct (length examples =? 0)%nat.
  - apply only_emit. exact I.
  - apply only_bindM; [apply only_emit; exact I | intros _].
    apply only_bindM; [apply only_emit; reflexivity | intros _].
    apply only_bindM; [apply only_lift | intros eval_ppx].
    apply only_bindM; [apply only_emit; exact I | intros _].
    apply only_bindM; [apply only_lift | intros outputs].
    apply only_forM. intros. apply show_example_only_prints. intros; exact I.
Qed.

Lemma run_evals_report (ev : evaluator) :
  only is_report (run_evals EOS_ID i2w exp_fl exp_max batch_size dev_set ev).
Proof.
  unfold run_evals, eval_buckets. apply only_forM.
  intros b _. apply eval_bucket_report.
Qed.

End ReportEvents.

(** X3.  The evaluation pass only observes.  Whatever the development
    set, the model and the draws are, and whether the pass returns or
    raises, its events are fetching development batches, forward-only
    model steps and printing: it never fetches a training batch, never
    runs a step that updates the parameters, never runs the learning-rate
    decay and never saves a checkpoint. *)
Theorem evaluation_only_observes
        (EOS_ID : Z) (i2w : Z -> option string) (exp_fl : Q -> Q)
        (exp_max : Q) (batch_size : Z)
        (dev_set : list (list (list Z * list Z))) (ev : evaluator) (e : event) :
  In e (trace (run_evals EOS_ID i2w exp_fl exp_max batch_size dev_set ev)) ->
  is_report e /\
  e <> RunDecayOp /\ e <> SaveCheckpoint /\
  (forall b, e <> GetBatch b) /\
  (forall b, e <> ModelStep b false).
Proof.
  intros Hin.
  pose proof (run_evals_report EOS_ID i2w exp_fl exp_max batch_size
                               dev_set ev) as Honly.
  unfold only in Honly. rewrite Forall_forall in Honly.
  specialize (Honly e Hin). split; [exact Honly|].
  split; [|split; [|split]].
  - intros ->. exact Honly.
  - intros ->. exact Honly.
  - intros b ->. exact Honly.
  - intros b ->. discriminate Honly.
Qed.

Lemma evaluation_only_observes_witness :
  is_report (ModelStep 0 true) /\
  ModelStep 0 true <> RunDecayOp /\ ModelStep 0 true <> SaveCheckpoint /\
  (forall b, ModelStep 0 true <> GetBatch b) /\
  (forall b, ModelStep 0 true <> ModelStep b false).
Proof.
  apply (evaluation_only_observes
           Sample.EOS_ID Sample.i2w Sample.exp_fl Sample.exp_max 1
           Sample.dev_set Sample.evaluator_with_eos (ModelStep 0 true)).
  simpl. right. left. reflexivity.
Defined.

(* ------------------------------------------------------------------ *)
(** ** [train]: the set-up and the batches it asks for *)

Lemma train_bucket_sizes_ok (train_set : list (list (list Z * list Z))) :
  (length _buckets <= length train_set)%nat ->
  train_bucket_sizes train_set
  = Ok (map (@length _) (firstn (length _buckets) train_set)).
Proof.
  intros Hlen. unfold train_bucket_sizes.
  rewrite (mapM_total _ (fun b => length (nth b train_set []))).
  - destruct train_set as [|a [|b [|c [|d rest]]]]; simpl in Hlen; try lia.
    reflexivity.
  - intros b Hb. apply in_seq in Hb.
    rewrite (getitem_nth_error train_set b (nth b train_set []));
      [reflexivity|].
    apply nth_error_nth'. lia.
Qed.

Lemma train_bucket_sizes_inv (train_set : list (list (list Z * list Z)))
      (sizes : list nat) :
  train_bucket_sizes train_set = Ok sizes ->
  (length _buckets <= length train_set)%nat /\
  sizes = map (@length _) (firstn (length _buckets) train_set).
Proof.
  intros H.
  destruct (le_lt_dec (length _buckets) (length train_set)) as [Hle|Hlt].
  - split; [exact Hle|]. rewrite train_bucket_sizes_ok in H by exact Hle.
    congruence.
  - exfalso.
    destruct train_set as [|a [|b [|c [|d rest]]]]; simpl in Hlt; try lia;
      vm_compute in H; discriminate.
Qed.

Lemma nth_firstn_lt {A} (l : list A) (n i : nat) (d : A) :
  (i < n)%nat -> nth i (firstn n l) d = nth i l d.
Proof.
  revert n i; induction l as [|x l IH]; intros n i Hi.
  - now rewrite firstn_nil.
  - destruct n; [lia|]. destruct i; simpl; [reflexivity|]. apply IH. lia.
Qed.

Lemma create_model_events (su : setup) (forward_only : bool) :
  exists line op,
    create_model su forward_only
    = ([BuildModel forward_only; PrintLine line; op], Ok tt) /\
    (op = InitVariables \/ exists path, op = RestoreModel path).
Proof.
  unfold create_model. destruct (ckpt su) as [path|].
  - destruct (checkpoint_exists su path); do 2 eexists;
      (split; [reflexivity|]); [right; eexists; reflexivity | now left].
  - do 2 eexists. split; [reflexivity | now left].
Qed.

Section TrainBatches.

Variable su : setup.
Variable EOS_ID : Z.
Variable i2w : Z -> option string.
Variable exp_fl : Q -> Q.
Variable exp_max : Q.
Variable batch_size : Z.
Variable steps_per_checkpoint : Z.
Variable dev_set : list (list (list Z * list Z)).
Variable train_set : list (list (list Z * list Z)).

Lemma checkpoint_only (P : event -> Prop) (st : train_state) :
  (forall t p, P (PrintStats t p)) -> P RunDecayOp -> P SaveCheckpoint ->
  only P (checkpoint exp_fl exp_max st).
Proof.
  intros H1 H2 H3. unfold checkpoint.
  apply only_bindM; [apply only_lift | intros ppx].
  apply only_bindM; [apply only_emit, H1 | intros _].
  apply only_bindM; [apply only_lift | intros decay].
  apply only_bindM; [destruct decay; [apply only_emit, H2 | apply only_ret]
                    | intros _].
  apply only_bindM; [apply only_emit, H3 | intros _]. apply only_ret.
Qed.

Lemma train_loop_batches (scale : list Q) (sizes : list nat)
      (its : list iteration) (st : train_state) :
  train_bucket_sizes train_set = Ok sizes ->
  train_buckets_scale sizes = Ok scale ->
  Forall (fun it => 0 <= random_number_01 it) its ->
  only (batch_from_populated train_set)
       (train_loop EOS_ID i2w exp_fl exp_max batch_size steps_per_checkpoint
                   dev_set scale its st).
Proof.
  intros Hsizes Hscale Hdraws.
  apply train_bucket_sizes_inv in Hsizes as [Hlen Hsizes].
  revert st; induction Hdraws as [|it its Hu _ IH]; intros st; simpl.
  - apply only_ret.
  - apply only_bindM; [|intros st'; apply IH].
    unfold train_iteration.
    apply only_bindM_lift. intros b Hb.
    destruct (selected_bucket_populated _ _ _ _ Hscale Hu Hb) as [Hb1 Hb2].
    apply only_bindM.
    { apply only_emit. simpl. rewrite Nat2Z.id.
      rewrite Hsizes in Hb1, Hb2. rewrite length_map in Hb1.
      rewrite (nth_indep _ 0%nat (length (@nil (list Z * list Z)))) in Hb2
        by now rewrite length_map.
      rewrite map_nth in Hb2.
      assert (b < length _buckets)%nat as Hb4
          by (rewrite length_firstn in Hb1; lia).
      rewrite nth_firstn_lt in Hb2 by exact Hb4.
      exists (nth b train_set []). split; [lia|]. split.
      - apply nth_error_nth'. lia.
      - intros E. rewrite E in Hb2. simpl in Hb2. lia. }
    intros _.
    apply only_bindM; [apply only_emit; exact I | intros _].
    apply only_bindM; [apply only_lift | intros st1].
    apply only_bindM; [apply only_lift | intros r].
    destruct (r =? 0)%Z; [|apply only_ret].
    apply only_bindM;
      [apply checkpoint_only; intros; exact I | intros st2].
    apply only_bindM.
    { apply (only_impl is_report); [|apply run_evals_report].
      intros [] He; simpl in *; try exact I; contradiction. }
    intros _.
    apply only_bindM; [apply only_emit; exact I | intros _]. apply only_ret.
Qed.

(** The events of [train] before its loop, and the loop it then runs. *)
Lemma train_unfold (its : list iteration) :
  exists line op,
    (op = InitVariables \/ exists path, op = RestoreModel path) /\
    train su EOS_ID i2w exp_fl exp_max batch_size steps_per_checkpoint
          dev_set train_set its
    = bindM ([PrintCreating (num_layers su) (size su); BuildModel false;
              PrintLine line; op;
              PrintLine "Reading development and training data.";
              ReadData true; ReadData false], Ok tt)
            (fun _ =>
               sizes <~ lift (train_bucket_sizes train_set) ;;
               scale <~ lift (train_buckets_scale sizes) ;;
               emit LoadVocab ;;;
               train_loop EOS_ID i2w exp_fl exp_max batch_size
                          steps_per_checkpoint dev_set scale its
                          initial_state).
Proof.
  destruct (create_model_events su false) as (line & op & Hcm & Hop).
  exists line, op. split; [exact Hop|].
  unfold train. rewrite Hcm.
  cbn [bindM emit lift ret app].
  destruct (train_bucket_sizes train_set) as [sizes|e]; [|reflexivity].
  cbn [bindM emit lift ret app].
  destruct (train_buckets_scale sizes) as [scale|e]; [|reflexivity].
  cbn [bindM emit lift ret app].
  destruct (train_loop EOS_ID i2w exp_fl exp_max batch_size
                       steps_per_checkpoint dev_set scale its initial_state)
    as [t r].
  reflexivity.
Qed.

(** X4.  Training never asks for a batch from an empty bucket.  Whatever
    the training set, the interval and the collaborators are, and whether
    the run returns or raises, every [model.get_batch] call of a run whose
    draws are not negative names a bucket of the training set that holds
    at least one example. *)
Theorem train_batches_from_populated_buckets
        (its : list iteration) (e : event) :
  Forall (fun it => 0 <= random_number_01 it) its ->
  In e (trace (train su EOS_ID i2w exp_fl exp_max batch_size
                     steps_per_checkpoint dev_set train_set its)) ->
  batch_from_populated train_set e.
Proof.
  intros Hdraws Hin.
  assert (only (batch_from_populated train_set)
               (train su EOS_ID i2w exp_fl exp_max batch_size
                      steps_per_checkpoint dev_set train_set its)) as Honly.
  { destruct (train_unfold its) as (line & op & Hop & ->).
    apply only_bindM.
    { unfold only. cbn [trace fst].
      destruct Hop as [->|[path ->]]; repeat constructor. }
    intros _.
    apply only_bindM_lift. intros sizes Hsizes.
    apply only_bindM_lift. intros scale Hscale.
    apply only_bindM; [apply only_emit; exact I | intros _].
    now apply (train_loop_batches scale sizes). }
  unfold only in Honly. rewrite Forall_forall in Honly. now apply Honly.
Qed.

(** X5.  With no training example at all, [train] stops with
    [ZeroDivisionError] while it builds the scale.  By then it has printed
    its two set-up lines, created the model, restored or initialised its
    parameters and read the two data sets, and it has done nothing else:
    the vocabulary is not loaded, no batch is fetched and the model is
    never stepped, however many turns were to follow. *)
Theorem train_without_data_raises (its : list iteration) :
  (length _buckets <= length train_set)%nat ->
  (forall b, (b < length _buckets)%nat -> nth b train_set [] = []) ->
  exists model_events,
    create_model su false = (model_events, Ok tt) /\
    train su EOS_ID i2w exp_fl exp_max batch_size steps_per_checkpoint
          dev_set train_set its
    = (PrintCreating (num_layers su) (size su)
         :: model_events
         ++ [PrintLine "Reading development and training data.";
             ReadData true; ReadData false],
       Raise ZeroDivisionError) /\
    Forall is_setup
           (trace (train su EOS_ID i2w exp_fl exp_max batch_size
                         steps_per_checkpoint dev_set train_set its)).
Proof.
  intros Hlen Hempty.
  destruct (create_model_events su false) as (line & op & Hcm & Hop).
  assert (Hrun :
            train su EOS_ID i2w exp_fl exp_max batch_size steps_per_checkpoint
                  dev_set train_set its
            = (PrintCreating (num_layers su) (size su)
                 :: [BuildModel false; PrintLine line; op]
                 ++ [PrintLine "Reading development and training data.";
                     ReadData true; ReadData false],
               Raise ZeroDivisionError)).
  { unfold train. rewrite Hcm.
    rewrite (train_bucket_sizes_ok train_set Hlen).
    cbn [bindM emit lift ret app].
    destruct train_set as [|a [|b [|c [|d rest]]]]; simpl in Hlen; try lia.
    pose proof (Hempty 0%nat ltac:(simpl; lia)) as H0.
    pose proof (Hempty 1%nat ltac:(simpl; lia)) as H1.
    pose proof (Hempty 2%nat ltac:(simpl; lia)) as H2.
    pose proof (Hempty 3%nat ltac:(simpl; lia)) as H3.
    simpl in H0, H1, H2, H3. subst. reflexivity. }
  eexists. split; [exact Hcm|]. split; [exact Hrun|].
  rewrite Hrun. cbn [trace fst app].
  destruct Hop as [->|[path ->]]; repeat constructor.
Qed.

End TrainBatches.

Lemma train_batches_from_populated_buckets_witness :
  batch_from_populated Sample.train_set (GetBatch 2).
Proof.
  apply (train_batches_from_populated_buckets
           Sample.fresh
           Sample.EOS_ID Sample.i2w Sample.exp_fl Sample.exp_max 1 2
           Sample.no_dev_set Sample.train_set
           [Sample.turn_a; Sample.turn_b] (GetBatch 2)).
  - repeat constructor; discriminate.
  - vm_compute. do 10 right. left. reflexivity.
Defined.

Lemma train_without_data_raises_witness :
  exists model_events,
    create_model Sample.fresh false = (model_events, Ok tt) /\
    train Sample.fresh
          Sample.EOS_ID Sample.i2w Sample.exp_fl Sample.exp_max 1 2
          Sample.dev_set Sample.no_dev_set [Sample.turn_a; Sample.turn_b]
    = (PrintCreating (num_layers Sample.fresh) (size Sample.fresh)
         :: model_events
         ++ [PrintLine "Reading development and training data.";
             ReadData true; ReadData false],
       Raise ZeroDivisionError) /\
    Forall is_setup
           (trace (train Sample.fresh
                         Sample.EOS_ID Sample.i2w Sample.exp_fl
                         Sample.exp_max 1 2
                         Sample.dev_set Sample.no_dev_set
                         [Sample.turn_a; Sample.turn_b])).
Proof.
  apply (train_without_data_raises
           Sample.fresh
           Sample.EOS_ID Sample.i2w Sample.exp_fl Sample.exp_max 1 2
           Sample.dev_set Sample.no_dev_set).
  - simpl. lia.
  - intros b Hb. simpl in Hb.
    do 4 (destruct b as [|b]; [reflexivity|]). lia.
Defined.

(* ------------------------------------------------------------------ *)
(** ** Checkpoints and learning-rate decays of a whole run *)

Lemma decay_runs_app (a b : list event) :
  decay_runs (a ++ b) = (decay_runs a + decay_runs b)%nat.
Proof. unfold decay_runs. now rewrite filter_app, length_app. Qed.

Lemma saves_app (a b : list event) :
  saves (a ++ b) = (saves a + saves b)%nat.
Proof. unfold saves. now rewrite filter_app, length_app. Qed.

Lemma report_counts (tr : list event) :
  Forall is_report tr -> decay_runs tr = 0%nat /\ saves tr = 0%nat.
Proof.
  induction 1 as [|e tr He _ [IH1 IH2]]; [split; reflexivity|].
  destruct e; simpl in He; try contradiction; split; assumption.
Qed.

Lemma accumulate_history (interval : Z) (st st1 : train_state)
      (it : iteration) :
  accumulate interval st it = Ok st1 ->
  previous_losses st1 = previous_losses st.
Proof.
  unfold accumulate.
  destruct (truediv (elapsed it) (inject_Z interval)); [|discriminate].
  destruct (truediv (step_loss it) (inject_Z interval)); [|discriminate].
  simpl. now intros [= <-].
Qed.

(** The checkpoint either stops before its first event or saves exactly
    once, decays at most once, and only with three losses on record. *)
Lemma checkpoint_counts (exp_fl : Q -> Q) (exp_max : Q) (st : train_state) :
  (exists e, checkpoint exp_fl exp_max st = ([], Raise e)) \/
  (exists tr st',
      checkpoint exp_fl exp_max st = (tr, Ok st') /\
      saves tr = 1%nat /\
      (decay_runs tr <= 1)%nat /\
      (decay_runs tr = 1%nat -> (3 <= length (previous_losses st))%nat) /\
      length (previous_losses st') = S (length (previous_losses st))).
Proof.
  unfold checkpoint.
  destruct (train_perplexity exp_fl exp_max (Fin (loss st))) as [ppx|e].
  - right.
    destruct (no_improvement_spec (previous_losses st) (loss st))
      as (decay & Hdecay & Hiff).
    rewrite Hdecay.
    destruct decay; do 2 eexists; (split; [reflexivity|]);
      unfold saves, decay_runs; cbn [previous_losses];
      rewrite length_app; simpl.
    + split; [reflexivity|]. split; [lia|]. split; [|lia].
      intros _. now apply Hiff.
    + split; [reflexivity|]. split; [lia|]. split; [discriminate | lia].
  - left. exists e. reflexivity.
Qed.

Lemma statistics_lines_app (a b : list event) :
  statistics_lines (a ++ b) = (statistics_lines a + statistics_lines b)%nat.
Proof. unfold statistics_lines. now rewrite filter_app, length_app. Qed.

Lemma budget_ok_prefix (tr before after : list event) (s d : nat) :
  budget_ok s d tr ->
  (d <= s - 3)%nat ->
  tr = before ++ after ->
  (d + decay_runs before <= s + statistics_lines before - 3)%nat.
Proof.
  revert before s d; induction tr as [|e tr IH]; intros before s d Hok Hd Heq.
  - destruct before; [|discriminate]. unfold decay_runs, statistics_lines.
    simpl. lia.
  - destruct before as [|e' before].
    { unfold decay_runs, statistics_lines. simpl. lia. }
    injection Heq as <- Heq.
    destruct e;
      try (specialize (IH before s d Hok Hd Heq);
           unfold decay_runs, statistics_lines in *; simpl in *; lia).
    + cbn [budget_ok] in Hok.
      specialize (IH before (S s) d Hok ltac:(lia) Heq).
      unfold decay_runs, statistics_lines in *. simpl in *. lia.
    + cbn [budget_ok] in Hok. destruct Hok as [Hroom Hok].
      specialize (IH before s (S d) Hok ltac:(lia) Heq).
      unfold decay_runs, statistics_lines in *. simpl in *. lia.
Qed.

Lemma budget_ok_app (a b : list event) (s d : nat) :
  budget_ok s d a ->
  budget_ok (s + statistics_lines a) (d + decay_runs a) b ->
  budget_ok s d (a ++ b).
Proof.
  revert s d; induction a as [|e a IH]; intros s d Ha Hb.
  - unfold statistics_lines, decay_runs in Hb. simpl in Hb.
    now rewrite !Nat.add_0_r in Hb.
  - destruct e; cbn [app budget_ok] in *;
      try (apply IH; [exact Ha | exact Hb]).
    + apply IH; [exact Ha|].
      unfold statistics_lines in *. simpl in Hb.
      now replace (S s + length
                     (filter (fun e => match e with
                                       | PrintStats _ _ => true
                                       | _ => false
                                       end) a))%nat
        with (s + S (length
                     (filter (fun e => match e with
                                       | PrintStats _ _ => true
                                       | _ => false
                                       end) a)))%nat by lia.
    + destruct Ha as [Hroom Ha]. split; [exact Hroom|].
      apply IH; [exact Ha|].
      unfold decay_runs in *. simpl in Hb.
      now replace (S d + length
                     (filter (fun e => match e with
                                       | RunDecayOp => true
                                       | _ => false
                                       end) a))%nat
        with (d + S (length
                     (filter (fun e => match e with
                                       | RunDecayOp => true
                                       | _ => false
                                       end) a)))%nat by lia.
Qed.

Lemma budget_ok_report (tr : list event) (s d : nat) :
  Forall is_report tr ->
  budget_ok s d tr /\ statistics_lines tr = 0%nat.
Proof.
  induction 1 as [|e tr He _ [IH1 IH2]]; [split; [exact I | reflexivity]|].
  destruct e; simpl in He; try contradiction; split; assumption.
Qed.

(** The checkpoint either stops before its first event or prints one
    statistics line, decays at most once and only with three losses on
    record, and records one loss. *)
Lemma checkpoint_shape (exp_fl : Q -> Q) (exp_max : Q) (st : train_state) :
  (exists e, checkpoint exp_fl exp_max st = ([], Raise e)) \/
  (exists perplexity decay st',
      checkpoint exp_fl exp_max st
      = (PrintStats (step_time st) perplexity
           :: (if decay : bool then [RunDecayOp] else []) ++ [SaveCheckpoint],
         Ok st') /\
      (decay = true -> (3 <= length (previous_losses st))%nat) /\
      length (previous_losses st') = S (length (previous_losses st))).
Proof.
  unfold checkpoint.
  destruct (train_perplexity exp_fl exp_max (Fin (loss st))) as [ppx|e].
  - right.
    destruct (no_improvement_spec (previous_losses st) (loss st))
      as (decay & Hdecay & Hiff).
    rewrite Hdecay. exists ppx, decay.
    destruct decay; eexists; (split; [reflexivity|]);
      cbn [previous_losses]; rewrite length_app; simpl.
    + split; [|lia]. intros _. now apply Hiff.
    + split; [discriminate | lia].
  - left. exists e. reflexivity.
Qed.

Ltac counts_done :=
  cbn [bindM lift emit ret app trace outcome fst snd];
  unfold decay_runs, saves; simpl;
  repeat match goal with |- _ /\ _ => split end;
  try lia; try (intros; discriminate); try (intros ? [= <-]; lia).

Section RunCounts.

Variable EOS_ID : Z.
Variable i2w : Z -> option string.
Variable exp_fl : Q -> Q.
Variable exp_max : Q.
Variable batch_size : Z.
Variable steps_per_checkpoint : Z.
Variable dev_set : list (list (list Z * list Z)).
Variable train_buckets_scale : list Q.

Local Abbreviation train_iteration :=
  (train_iteration EOS_ID i2w exp_fl exp_max batch_size steps_per_checkpoint
                   dev_set train_buckets_scale).
Local Abbreviation train_loop :=
  (train_loop EOS_ID i2w exp_fl exp_max batch_size steps_per_checkpoint
              dev_set train_buckets_scale).

Lemma train_iteration_counts (st : train_state) (it : iteration) :
  (decay_runs (trace (train_iteration st it))
   <= saves (trace (train_iteration st it)))%nat /\
  (saves (trace (train_iteration st it)) <= 1)%nat /\
  (decay_runs (trace (train_iteration st it)) = 1%nat ->
   (3 <= length (previous_losses st))%nat) /\
  (forall st',
      outcome (train_iteration st it) = Ok st' ->
      length (previous_losses st')
      = (length (previous_losses st)
         + saves (trace (train_iteration st it)))%nat).
Proof.
  unfold Trainer.train_iteration.
  destruct (select_bucket train_buckets_scale (random_number_01 it))
    as [b|e]; [|counts_done].
  cbn [bindM lift emit ret app].
  destruct (accumulate steps_per_checkpoint st it) as [st1|e] eqn:Hacc;
    [|counts_done].
  apply accumulate_history in Hacc.
  cbn [bindM lift emit ret app].
  destruct (mod_ (current_step st1) steps_per_checkpoint) as [r|e];
    [|counts_done].
  cbn [bindM lift emit ret app].
  destruct (r =? 0)%Z;
    [|counts_done; intros st' [= <-]; rewrite Hacc; lia].
  destruct (checkpoint_counts exp_fl exp_max st1)
    as [[e Hc]|(tr & st2 & Hc & Hs & Hd & Hd3 & Hlen)]; rewrite Hc;
    [counts_done|].
  pose proof (run_evals_report EOS_ID i2w exp_fl exp_max batch_size
                               dev_set (evaluation it)) as Hrep.
  destruct (Reporter.run_evals EOS_ID i2w exp_fl exp_max batch_size
                               dev_set (evaluation it)) as [te re].
  unfold only in Hrep. simpl in Hrep.
  apply report_counts in Hrep as [Hrd Hrs].
  rewrite Hacc in *.
  destruct re as [[]|e]; cbn [bindM lift emit ret app trace outcome fst snd];
    change (GetBatch (Z.of_nat b) :: ModelStep (Z.of_nat b) false :: ?x)
      with ([GetBatch (Z.of_nat b); ModelStep (Z.of_nat b) false] ++ x);
    rewrite ?decay_runs_app, ?saves_app, Hrd, Hrs, Hs;
    change (decay_runs [GetBatch (Z.of_nat b); ModelStep (Z.of_nat b) false])
      with 0%nat;
    change (saves [GetBatch (Z.of_nat b); ModelStep (Z.of_nat b) false])
      with 0%nat;
    change (decay_runs [Flush]) with 0%nat;
    change (saves [Flush]) with 0%nat;
    change (decay_runs []) with 0%nat;
    change (saves []) with 0%nat.
  - split; [lia|]. split; [lia|]. split; [intros; apply Hd3; lia|].
    intros st' [= <-]. lia.
  - split; [lia|]. split; [lia|]. split; [intros; apply Hd3; lia|].
    intros; discriminate.
Qed.

(** Along a run the decays run so far, plus the decays the history on
    entry already allowed, never exceed what history and checkpoints
    together allow. *)
Lemma train_loop_counts (its : list iteration) (st : train_state) :
  (decay_runs (trace (train_loop its st))
   + (length (previous_losses st) - 3)
   <= length (previous_losses st) + saves (trace (train_loop its st)) - 3)%nat
  /\
  (forall st',
      outcome (train_loop its st) = Ok st' ->
      length (previous_losses st')
      = (length (previous_losses st)
         + saves (trace (train_loop its st)))%nat).
Proof.
  revert st; induction its as [|it its IH]; intros st.
  - cbn [Trainer.train_loop ret trace outcome fst snd].
    unfold decay_runs, saves. simpl. split; [lia|]. intros st' [= <-]. lia.
  - cbn [Trainer.train_loop].
    pose proof (train_iteration_counts st it) as (H1 & H2 & H3 & H4).
    destruct (train_iteration st it) as [t1 [st1|e]];
      cbn [trace outcome fst snd bindM] in *.
    + specialize (H4 st1 eq_refl).
      destruct (IH st1) as [IH1 IH2].
      destruct (train_loop its st1) as [t2 r2];
        cbn [trace outcome fst snd] in *.
      rewrite decay_runs_app, saves_app. split; [lia|].
      intros st' Hst'. rewrite (IH2 st' Hst'). lia.
    + split; [lia | discriminate].
Qed.

(** One turn keeps the decays within what the statistics lines allow,
    and a turn that returns has recorded one loss per statistics line. *)
Lemma train_iteration_budget (st : train_state) (it : iteration) (d : nat) :
  (d <= length (previous_losses st) - 3)%nat ->
  budget_ok (length (previous_losses st)) d (trace (train_iteration st it)) /\
  (d + decay_runs (trace (train_iteration st it))
   <= length (previous_losses st)
      + statistics_lines (trace (train_iteration st it)) - 3)%nat /\
  (forall st',
      outcome (train_iteration st it) = Ok st' ->
      length (previous_losses st')
      = (length (previous_losses st)
         + statistics_lines (trace (train_iteration st it)))%nat).
Proof.
  intros Hd. unfold Trainer.train_iteration.
  destruct (select_bucket train_buckets_scale (random_number_01 it))
    as [b|e].
  2:{ cbn [bindM lift emit ret app trace outcome fst snd budget_ok].
      unfold decay_runs, statistics_lines. simpl.
      split; [exact I|]. split; [lia | discriminate]. }
  cbn [bindM lift emit ret app].
  destruct (accumulate steps_per_checkpoint st it) as [st1|e] eqn:Hacc.
  2:{ cbn [bindM lift emit ret app trace outcome fst snd budget_ok].
      unfold decay_runs, statistics_lines. simpl.
      split; [exact I|]. split; [lia | discriminate]. }
  apply accumulate_history in Hacc.
  cbn [bindM lift emit ret app].
  destruct (mod_ (current_step st1) steps_per_checkpoint) as [r|e].
  2:{ cbn [bindM lift emit ret app trace outcome fst snd budget_ok].
      unfold decay_runs, statistics_lines. simpl.
      split; [exact I|]. split; [lia | discriminate]. }
  cbn [bindM lift emit ret app].
  destruct (r =? 0)%Z.
  2:{ cbn [bindM lift emit ret app trace outcome fst snd budget_ok].
      unfold decay_runs, statistics_lines. simpl.
      split; [exact I|]. split; [lia|].
      intros st' [= <-]. rewrite Hacc. lia. }
  destruct (checkpoint_shape exp_fl exp_max st1)
    as [[e Hc]|(ppx & decay & st2 & Hc & Hd3 & Hlen)]; rewrite Hc.
  { cbn [bindM lift emit ret app trace outcome fst snd budget_ok].
    unfold decay_runs, statistics_lines. simpl.
    split; [exact I|]. split; [lia | discriminate]. }
  pose proof (run_evals_report EOS_ID i2w exp_fl exp_max batch_size
                               dev_set (evaluation it)) as Hrep.
  destruct (Reporter.run_evals EOS_ID i2w exp_fl exp_max batch_size
                               dev_set (evaluation it)) as [te re].
  unfold only in Hrep. cbn [trace fst] in Hrep.
  rewrite Hacc in *.
  assert (Hfl : forall s' d' tail,
             tail = [Flush] \/ tail = [] -> budget_ok s' d' (te ++ tail)).
  { intros s' d' tail Htail. apply budget_ok_app.
    - now apply budget_ok_report.
    - destruct Htail as [->| ->]; exact I. }
  assert (Hfs : forall tail,
             tail = [Flush] \/ tail = [] ->
             statistics_lines (te ++ tail) = 0%nat).
  { intros tail Htail. rewrite statistics_lines_app.
    rewrite (proj2 (budget_ok_report te 0 0 Hrep)).
    destruct Htail as [->| ->]; reflexivity. }
  assert (Hfd : forall tail,
             tail = [Flush] \/ tail = [] -> decay_runs (te ++ tail) = 0%nat).
  { intros tail Htail. rewrite decay_runs_app.
    rewrite (proj1 (report_counts te Hrep)).
    destruct Htail as [->| ->]; reflexivity. }
  destruct re as [[]|e]; destruct decay;
    cbn [bindM lift emit ret app trace outcome fst snd budget_ok];
    rewrite ?app_nil_r;
    try specialize (Hd3 eq_refl);
    match goal with
    | |- context [te ++ [Flush]] =>
        pose proof (Hfl (S (length (previous_losses st))) d [Flush]
                        (or_introl eq_refl)) as B0;
        pose proof (Hfl (S (length (previous_losses st))) (S d) [Flush]
                        (or_introl eq_refl)) as B1;
        pose proof (Hfs [Flush] (or_introl eq_refl)) as S0;
        pose proof (Hfd [Flush] (or_introl eq_refl)) as D0
    | |- _ =>
        pose proof (Hfl (S (length (previous_losses st))) d []
                        (or_intror eq_refl)) as B0;
        pose proof (Hfl (S (length (previous_losses st))) (S d) []
                        (or_intror eq_refl)) as B1;
        pose proof (Hfs [] (or_intror eq_refl)) as S0;
        pose proof (Hfd [] (or_intror eq_refl)) as D0;
        rewrite app_nil_r in B0, B1, S0, D0
    end;
    unfold decay_runs, statistics_lines in *; simpl;
    repeat match goal with |- _ /\ _ => split end;
    try assumption; try lia; try discriminate;
    try (intros st' [= <-]; rewrite Hlen; lia).
Qed.

Lemma train_loop_budget (its : list iteration) (st : train_state) (d : nat) :
  (d <= length (previous_losses st) - 3)%nat ->
  budget_ok (length (previous_losses st)) d (trace (train_loop its st)).
Proof.
  revert st d; induction its as [|it its IH]; intros st d Hd.
  - exact I.
  - cbn [Trainer.train_loop].
    destruct (train_iteration_budget st it d Hd) as (H1 & H2 & H3).
    destruct (train_iteration st it) as [t1 [st1|e]];
      cbn [trace outcome fst snd bindM] in *; [|exact H1].
    specialize (H3 st1 eq_refl).
    specialize (IH st1 (d + decay_runs t1)%nat ltac:(lia)).
    destruct (train_loop its st1) as [t2 r2]; cbn [trace fst] in *.
    apply budget_ok_app; [exact H1|]. rewrite <- H3. exact IH.
Qed.

(** X6.  The learning rate cannot decay before the fourth checkpoint.
    In every run of the training loop from its initial state, whatever
    the interval, the losses and the collaborators are, at every point of
    the run the number of decays so far is at most the number of
    statistics lines printed so far minus three.  The bound is stated for
    every initial part of the events of the run, so it also holds of a run
    that a collaborator stops half way. *)
Theorem decays_after_three_statistics_lines
        (its : list iteration) (before after : list event) :
  trace (train_loop its initial_state) = before ++ after ->
  (decay_runs before <= statistics_lines before - 3)%nat.
Proof.
  intros Heq.
  pose proof (train_loop_budget its initial_state 0 ltac:(simpl; lia)) as Hok.
  pose proof (budget_ok_prefix _ before after _ _ Hok ltac:(simpl; lia) Heq)
    as H.
  simpl in H. lia.
Qed.

(** X7.  The history holds one loss per checkpoint.  When a run of the
    training loop returns, the length of [previous_losses] has grown by
    exactly the number of checkpoints saved during the run. *)
Theorem history_grows_with_checkpoints
        (its : list iteration) (st st' : train_state) :
  outcome (train_loop its st) = Ok st' ->
  length (previous_losses st')
  = (length (previous_losses st) + saves (trace (train_loop its st)))%nat.
Proof. apply train_loop_counts. Qed.

End RunCounts.

(** Four checkpoints with losses 1, 1, 1, 2: the fourth one decays.  The
    events up to that decay hold four statistics lines and three saved
    checkpoints. *)
Lemma decays_after_three_statistics_lines_witness :
  (decay_runs
     (firstn 31
        (trace (train_loop Sample.EOS_ID Sample.i2w Sample.exp_fl
                           Sample.exp_max 1 1 Sample.no_dev_set Sample.scale
                           [Sample.turn_one; Sample.turn_one;
                            Sample.turn_one; Sample.turn_two]
                           initial_state)))
   <= statistics_lines
        (firstn 31
           (trace (train_loop Sample.EOS_ID Sample.i2w Sample.exp_fl
                              Sample.exp_max 1 1 Sample.no_dev_set
                              Sample.scale
                              [Sample.turn_one; Sample.turn_one;
                               Sample.turn_one; Sample.turn_two]
                              initial_state))) - 3)%nat.
Proof.
  apply (decays_after_three_statistics_lines
           Sample.EOS_ID Sample.i2w Sample.exp_fl Sample.exp_max 1 1
           Sample.no_dev_set Sample.scale
           [Sample.turn_one; Sample.turn_one; Sample.turn_one;
            Sample.turn_two]
           _
           (skipn 31
              (trace (train_loop Sample.EOS_ID Sample.i2w Sample.exp_fl
                                 Sample.exp_max 1 1 Sample.no_dev_set
                                 Sample.scale
                                 [Sample.turn_one; Sample.turn_one;
                                  Sample.turn_one; Sample.turn_two]
                                 initial_state)))).
  vm_compute. reflexivity.
Defined.

Example decay_at_fourth_checkpoint :
  let tr := trace (train_loop Sample.EOS_ID Sample.i2w Sample.exp_fl
                              Sample.exp_max 1 1 Sample.no_dev_set
                              Sample.scale
                              [Sample.turn_one; Sample.turn_one;
                               Sample.turn_one; Sample.turn_two]
                              initial_state) in
  nth 30 tr Flush = RunDecayOp /\
  decay_runs (firstn 31 tr) = 1%nat /\
  statistics_lines (firstn 31 tr) = 4%nat /\
  saves (firstn 31 tr) = 3%nat.
Proof. vm_compute. repeat split. Qed.

Lemma history_grows_with_checkpoints_witness :
  length
    (previous_losses
       {| step_time := 0; loss := 0; current_step := 2;
          previous_losses := [4] |})
  = (length (previous_losses initial_state)
     + saves (trace (train_loop Sample.EOS_ID Sample.i2w Sample.exp_fl
                                Sample.exp_max 1 2 Sample.no_dev_set
                                Sample.scale
                                [Sample.turn_a; Sample.turn_b]
                                initial_state)))%nat.
Proof.
  apply (history_grows_with_checkpoints
           Sample.EOS_ID Sample.i2w Sample.exp_fl Sample.exp_max 1 2
           Sample.no_dev_set Sample.scale
           [Sample.turn_a; Sample.turn_b] initial_state).
  vm_compute. reflexivity.
Defined.

(** X8.  Only the last three losses matter for the decay.  With three
    losses or more on record the test of line 172 gives the same answer
    on the whole history and on its last three entries alone, whatever
    came before them. *)
Theorem decay_test_reads_last_three
        (older recent : list Q) (loss : Q) :
  length recent = 3%nat ->
  no_improvement (older ++ recent) loss = no_improvement recent loss.
Proof.
  intros Hlen. unfold no_improvement, last3.
  rewrite length_app, Hlen.
  replace (2 <? length older + 3)%nat with true
    by (symmetry; apply Nat.ltb_lt; lia).
  replace (length older + 3 - 3)%nat with (length older) by lia.
  replace (2 <? 3)%nat with true by reflexivity.
  rewrite skipn_app, skipn_all, Nat.sub_diag. simpl.
  replace (3 - 3)%nat with 0%nat by reflexivity. reflexivity.
Qed.

Lemma decay_test_reads_last_three_witness :
  no_improvement ([7; 8] ++ [1; 9 # 10; 95 # 100]) (12 # 10)
  = no_improvement [1; 9 # 10; 95 # 100] (12 # 10).
Proof.
  apply (decay_test_reads_last_three [7; 8] [1; 9 # 10; 95 # 100] (12 # 10)).
  reflexivity.
Defined.

(* ------------------------------------------------------------------ *)
(** ** Runs over several checkpoint intervals *)

Section Intervals.

Variable EOS_ID : Z.
Variable i2w : Z -> option string.
Variable exp_fl : Q -> Q.
Variable exp_max : Q.
Variable batch_size : Z.
Variable steps_per_checkpoint : Z.
Variable dev_set : list (list (list Z * list Z)).
Variable train_buckets_scale : list Q.

Hypothesis exp_300_finite : 300 <= exp_max.
Hypothesis interval_pos : (0 < steps_per_checkpoint)%Z.

Local Abbreviation train_iteration :=
  (train_iteration EOS_ID i2w exp_fl exp_max batch_size steps_per_checkpoint
                   dev_set train_buckets_scale).
Local Abbreviation train_loop :=
  (train_loop EOS_ID i2w exp_fl exp_max batch_size steps_per_checkpoint
              dev_set train_buckets_scale).
Local Abbreviation run_evals :=
  (run_evals EOS_ID i2w exp_fl exp_max batch_size dev_set).
Local Abbreviation selects := (selects train_buckets_scale).

Lemma train_iteration_steps_only (st : train_state) (it : iteration) :
  selects it ->
  ((current_step st + 1) mod steps_per_checkpoint <> 0)%Z ->
  exists b,
    train_iteration st it
    = ([GetBatch (Z.of_nat b); ModelStep (Z.of_nat b) false],
       Ok {| step_time :=
               fadd (step_time st)
                    (fround (elapsed it / inject_Z steps_per_checkpoint));
             loss :=
               fadd (loss st)
                    (fround (step_loss it / inject_Z steps_per_checkpoint));
             current_step := current_step st + 1;
             previous_losses := previous_losses st |}).
Proof.
  intros [b Hb] Hmod. exists b. unfold Trainer.train_iteration.
  rewrite Hb, (accumulate_ok steps_per_checkpoint interval_pos).
  unfold mod_.
  rewrite (proj2 (Z.eqb_neq steps_per_checkpoint 0)) by lia.
  cbn [bindM lift emit ret app current_step].
  rewrite (proj2 (Z.eqb_neq _ 0) Hmod). reflexivity.
Qed.

(** X9.  No checkpoint inside an interval.  Starting right after a
    checkpoint, a run of fewer turns than the interval returns, and all it
    does is fetch a training batch and step the model once per turn:
    nothing is printed, saved, decayed or evaluated, the history is
    untouched and the loss accumulator holds the float sum, in order, of
    the float quotients of the step losses so far by the interval. *)
Theorem no_checkpoint_inside_interval
        (front : list iteration) (st : train_state) :
  (current_step st mod steps_per_checkpoint = 0)%Z ->
  (Z.of_nat (length front) < steps_per_checkpoint)%Z ->
  Forall selects front ->
  exists tr st',
    train_loop front st = (tr, Ok st') /\
    Forall is_training_step tr /\
    length tr = (2 * length front)%nat /\
    previous_losses st' = previous_losses st /\
    current_step st' = (current_step st + Z.of_nat (length front))%Z /\
    loss st'
    = accumulated steps_per_checkpoint (map step_loss front) (loss st).
Proof.
  intros Hstep Hlen Hsel.
  assert (Hmiss : forall k, (0 < k <= Z.of_nat (length front))%Z ->
                            ((current_step st + k) mod steps_per_checkpoint
                             <> 0)%Z).
  { intros k Hk. apply plain_steps_miss_checkpoint; [lia | assumption | lia]. }
  clear Hstep Hlen.
  revert st Hmiss; induction Hsel as [|it front Hit _ IH]; intros st Hmiss.
  - exists [], st. simpl. repeat split; try constructor. lia.
  - destruct (train_iteration_steps_only st it Hit) as (b & H1).
    { apply Hmiss. simpl length. lia. }
    set (st1 := {| step_time := _ |}) in H1.
    destruct (IH st1) as (tr & st' & H2 & Htr & Hlen & Hhist & Hcur & Hloss).
    { intros k Hk. subst st1. cbn [current_step].
      replace (current_step st + 1 + k)%Z with (current_step st + (1 + k))%Z
        by lia.
      apply Hmiss. simpl length. lia. }
    exists ([GetBatch (Z.of_nat b); ModelStep (Z.of_nat b) false] ++ tr), st'.
    cbn [Trainer.train_loop]. rewrite H1. cbn [bindM]. rewrite H2.
    subst st1. cbn [step_time loss current_step previous_losses] in *.
    split; [reflexivity|]. split.
    { repeat constructor. exact Htr. }
    split; [simpl; lia|]. split; [assumption|].
    split; [simpl length; lia | exact Hloss].
Qed.

(** X10.  One history entry per interval.  A run made of whole
    checkpoint intervals, started right after a checkpoint, in which every
    turn selects a bucket and every evaluation pass returns, returns with
    both accumulators at zero, with the step count advanced by the number
    of intervals times the interval, and with one loss appended to the
    history per interval, in order: the float sum of the rounded quotients
    of the step losses of that interval, which for step losses of
    magnitude at most [2 ^ K] is within [3 * interval * 2 ^ (K - 53)] of
    their arithmetic mean. *)
Theorem history_records_interval_means
        (chunks : list (list iteration * iteration)) (st : train_state)
        (K : Z) :
  loss st = 0 ->
  step_time st = 0 ->
  (current_step st mod steps_per_checkpoint = 0)%Z ->
  (-1022 <= K)%Z ->
  (3 * steps_per_checkpoint <= 2 ^ 53)%Z ->
  Forall (fun chunk =>
            Z.of_nat (length (interval_turns chunk)) = steps_per_checkpoint /\
            Forall selects (interval_turns chunk) /\
            outcome (run_evals (evaluation (snd chunk))) = Ok tt /\
            Forall (fun it => Qabs (step_loss it) <= 2 ^ K)
                   (interval_turns chunk))
         chunks ->
  exists tr st' recorded,
    train_loop (flat_map interval_turns chunks) st = (tr, Ok st') /\
    previous_losses st' = previous_losses st ++ recorded /\
    Forall2 (fun chunk m =>
               m = accumulated steps_per_checkpoint
                               (map step_loss (interval_turns chunk)) 0 /\
               Qabs (m - mean (map step_loss (interval_turns chunk)))
               <= inject_Z (3 * steps_per_checkpoint) * 2 ^ (K - 53))
            chunks recorded /\
    loss st' = 0 /\
    step_time st' = 0 /\
    current_step st'
    = (current_step st + steps_per_checkpoint * Z.of_nat (length chunks))%Z.
Proof.
  intros Hloss Htime Hstep HK Hbig Hchunks.
  revert st Hloss Htime Hstep;
    induction Hchunks
      as [|[front final] chunks (Hlen & Hsel & Hev & Hbound) _ IH];
    intros st Hloss Htime Hstep.
  - exists [], st, []. simpl. rewrite app_nil_r.
    repeat split; try assumption; try constructor. lia.
  - unfold interval_turns in Hlen, Hsel, Hbound.
    cbn [fst snd] in Hlen, Hsel, Hev, Hbound.
    destruct (train_loop_interval_end
                EOS_ID i2w exp_fl exp_max batch_size steps_per_checkpoint
                dev_set train_buckets_scale exp_300_finite interval_pos
                st front final Hlen Hloss Htime Hstep Hsel Hev)
      as (tr1 & ppx & _ & _ & H1).
    set (st1 := {| step_time := _ |}) in H1.
    destruct (IH st1) as (tr2 & st' & means & H2 & Hh & Hm & Hl & Ht & Hc).
    { reflexivity. }
    { reflexivity. }
    { subst st1. cbn [current_step].
      apply full_interval_hits_checkpoint; [lia | assumption]. }
    exists (tr1 ++ tr2), st'.
    exists (accumulated steps_per_checkpoint
                        (map step_loss (front ++ [final])) 0 :: means).
    cbn [flat_map]. unfold interval_turns at 1. cbn [fst snd].
    rewrite train_loop_app, H1. cbn [bindM]. rewrite H2.
    subst st1. cbn [step_time loss current_step previous_losses] in *.
    split; [reflexivity|]. split.
    { rewrite Hh, <- app_assoc. reflexivity. }
    split.
    { constructor; [|exact Hm]. unfold interval_turns. cbn [fst snd].
      split; [reflexivity|].
      apply accumulated_near_mean; try assumption.
      - now rewrite length_map.
      - destruct front; discriminate.
      - apply Forall_map. exact Hbound. }
    split; [assumption|]. split; [assumption|].
    rewrite Hc. simpl length. lia.
Qed.

End Intervals.

Lemma no_checkpoint_inside_interval_witness :
  exists tr st',
    train_loop Sample.EOS_ID Sample.i2w Sample.exp_fl Sample.exp_max 1 3
               Sample.dev_set Sample.scale
               [Sample.turn_a; Sample.turn_b] initial_state
    = (tr, Ok st') /\
    Forall is_training_step tr /\
    length tr = (2 * 2)%nat /\
    previous_losses st' = previous_losses initial_state /\
    current_step st' = (current_step initial_state + 2)%Z /\
    loss st'
    = accumulated 3 (map step_loss [Sample.turn_a; Sample.turn_b])
                  (loss initial_state).
Proof.
  apply (no_checkpoint_inside_interval
           Sample.EOS_ID Sample.i2w Sample.exp_fl Sample.exp_max 1 3
           Sample.dev_set Sample.scale).
  - lia.
  - reflexivity.
  - simpl. lia.
  - repeat constructor; eexists; reflexivity.
Defined.

Lemma history_records_interval_means_witness :
  exists tr st' recorded,
    train_loop Sample.EOS_ID Sample.i2w Sample.exp_fl Sample.exp_max 1 2
               Sample.no_dev_set Sample.scale
               (flat_map interval_turns
                         [([Sample.turn_a], Sample.turn_tenth);
                          ([Sample.turn_tenth], Sample.turn_b)])
               initial_state
    = (tr, Ok st') /\
    previous_losses st' = previous_losses initial_state ++ recorded /\
    Forall2 (fun chunk m =>
               m = accumulated 2 (map step_loss (interval_turns chunk)) 0 /\
               Qabs (m - mean (map step_loss (interval_turns chunk)))
               <= inject_Z (3 * 2) * 2 ^ (3 - 53))
            [([Sample.turn_a], Sample.turn_tenth);
             ([Sample.turn_tenth], Sample.turn_b)]
            recorded /\
    loss st' = 0 /\
    step_time st' = 0 /\
    current_step st' = (current_step initial_state + 2 * 2)%Z.
Proof.
  apply (history_records_interval_means
           Sample.EOS_ID Sample.i2w Sample.exp_fl Sample.exp_max 1 2
           Sample.no_dev_set Sample.scale).
  - unfold Sample.exp_max. lra.
  - lia.
  - reflexivity.
  - reflexivity.
  - reflexivity.
  - lia.
  - lia.
  - repeat constructor; try (eexists; reflexivity);
      vm_compute; discriminate.
Defined.

(** X11.  A zero checkpoint interval stops the training in its first
    turn: the model has been stepped once, the division of line 160
    raises, and nothing is ever printed or saved, whatever turns were to
    follow. *)
Theorem zero_interval_stops_first_turn
        (EOS_ID : Z) (i2w : Z -> option string) (exp_fl : Q -> Q)
        (exp_max : Q) (batch_size : Z)
        (dev_set : list (list (list Z * list Z))) (scale : list Q)
        (it : iteration) (rest : list iteration) (st : train_state)
        (b : nat) :
  select_bucket scale (random_number_01 it) = Ok b ->
  train_loop EOS_ID i2w exp_fl exp_max batch_size 0 dev_set scale
             (it :: rest) st
  = ([GetBatch (Z.of_nat b); ModelStep (Z.of_nat b) false],
     Raise ZeroDivisionError).
Proof.
  intros Hb. cbn [Trainer.train_loop]. unfold train_iteration.
  rewrite Hb. reflexivity.
Qed.

Lemma zero_interval_stops_first_turn_witness :
  train_loop Sample.EOS_ID Sample.i2w Sample.exp_fl Sample.exp_max 1 0
             Sample.dev_set Sample.scale
             [Sample.turn_b; Sample.turn_a] initial_state
  = ([GetBatch 2; ModelStep 2 false], Raise ZeroDivisionError).
Proof.
  apply (zero_interval_stops_first_turn
           Sample.EOS_ID Sample.i2w Sample.exp_fl Sample.exp_max 1
           Sample.dev_set Sample.scale Sample.turn_b [Sample.turn_a]
           initial_state 2).
  reflexivity.
Defined.

(* ------------------------------------------------------------------ *)
(** ** The cut at the end marker *)

(** X12.  What the cut of lines 204-205, 211-212, 217-218 and 263-264 can
    do.  When it returns, the result holds no end marker, is a prefix of
    the sequence, and cutting it again changes nothing.  It raises only
    [AttributeError], and only on a numpy row that holds the marker: the
    [.index] call is guarded by the membership test, so the cut never
    raises [ValueError]. *)
Theorem cut_at_eos_outcomes (eos : Z) (s : pyseq) :
  match cut_at_eos eos s with
  | Ok s' =>
      ~ In eos (items s') /\
      (exists rest, items s = items s' ++ rest) /\
      cut_at_eos eos s' = Ok s'
  | Raise e =>
      e = AttributeError /\ exists row, s = NdArray row /\ In eos row
  end.
Proof.
  assert (Hfix : forall s', ~ In eos (items s') -> cut_at_eos eos s' = Ok s').
  { intros s' H. unfold cut_at_eos.
    now rewrite (proj2 (contains_not_In eos s') H). }
  destruct s as [l|row].
  - destruct (cut_at_eos_list eos l) as (kept & Hcut & Hkept). rewrite Hcut.
    assert (~ In eos kept) as Hno
        by (destruct Hkept as [[H ->]|(rest & _ & H)]; exact H).
    split; [exact Hno|]. split; [|now apply Hfix].
    destruct Hkept as [[_ ->]|(rest & -> & _)]; simpl.
    + exists []. now rewrite app_nil_r.
    + eexists. reflexivity.
  - destruct (cut_at_eos_ndarray eos row) as [Hin Hout].
    destruct (contains eos (NdArray row)) eqn:E.
    + apply contains_In in E. rewrite (Hin E). split; [reflexivity|].
      exists row. auto.
    + apply contains_not_In in E. rewrite (Hout E).
      split; [exact E|]. split; [|now apply Hfix].
      exists []. simpl. now rewrite app_nil_r.
Qed.

(* ------------------------------------------------------------------ *)
(** ** Decode-mode bucket selection *)

Lemma decode_bucket_cases (buckets : list (nat * nat)) (len : nat) :
  (exists i, first_fit buckets len i /\
             decode_bucket buckets len = (Z.of_nat i, false))
  \/
  ((forall b, In b buckets -> (fst b < len)%nat) /\
   decode_bucket buckets len = (Z.of_nat (length buckets) - 1, true)%Z).
Proof.
  unfold decode_bucket. pose proof (scan_buckets_spec buckets 0 len) as H.
  destruct (scan_buckets buckets 0 len) as [i|].
  - left. exists i. destruct H as [_ H]. rewrite Nat.sub_0_r in H. auto.
  - right. auto.
Qed.

(** X13.  The tightest bucket.  When the input capacities do not decrease
    along the bucket list, as in line 88, a sentence that fits some bucket
    is given a bucket whose capacity is the least among those that hold
    it; and with at least one bucket the id returned is always an index of
    the list, warning or not. *)
Theorem decode_bucket_tightest (buckets : list (nat * nat)) (len : nat) :
  ascending buckets ->
  buckets <> [] ->
  (0 <= fst (decode_bucket buckets len)
   < Z.of_nat (length buckets))%Z /\
  (snd (decode_bucket buckets len) = false ->
   forall j, (j < length buckets)%nat ->
             (len <= fst (nth j buckets (0, 0)))%nat ->
             (fst (nth (Z.to_nat (fst (decode_bucket buckets len)))
                       buckets (0, 0))
              <= fst (nth j buckets (0, 0)))%nat) /\
  (snd (decode_bucket buckets len) = true <->
   forall b, In b buckets -> (fst b < len)%nat).
Proof.
  intros Hasc Hne.
  assert (0 < length buckets)%nat as Hlen
      by (destruct buckets; [congruence | simpl; lia]).
  destruct (decode_bucket_cases buckets len)
    as [(i & (Hi & Hfit & Hfirst) & ->)|[Hnone ->]]; cbn [fst snd].
  - split; [lia|]. split.
    + intros _ j Hj Hjfit. rewrite Nat2Z.id.
      destruct (Nat.le_gt_cases i j) as [Hij|Hji].
      * now apply Hasc.
      * specialize (Hfirst j Hji). lia.
    + split; [discriminate|]. intros Hall.
      specialize (Hall (nth i buckets (0, 0))%nat (nth_In _ _ Hi)). lia.
  - split; [lia|]. split; [discriminate|]. split; auto.
Qed.

Lemma decode_bucket_tightest_witness :
  (0 <= fst (decode_bucket _buckets 7)
   < Z.of_nat (length _buckets))%Z /\
  (snd (decode_bucket _buckets 7) = false ->
   forall j, (j < length _buckets)%nat ->
             (7 <= fst (nth j _buckets (0, 0)))%nat ->
             (fst (nth (Z.to_nat (fst (decode_bucket _buckets 7)))
                       _buckets (0, 0))
              <= fst (nth j _buckets (0, 0)))%nat) /\
  (snd (decode_bucket _buckets 7) = true <->
   forall b, In b _buckets -> (fst b < 7)%nat).
Proof.
  apply (decode_bucket_tightest _buckets 7).
  - intros i j Hij Hj. simpl in Hj.
    do 4 (destruct j as [|j];
          [do 4 (destruct i as [|i]; [simpl; lia|]); lia|]).
    lia.
  - discriminate.
Defined.

(** X14.  A longer sentence never gets an earlier bucket, and once a
    length draws the warning every greater length does. *)
Theorem decode_bucket_monotone
        (buckets : list (nat * nat)) (len len' : nat) :
  (len <= len')%nat ->
  (fst (decode_bucket buckets len) <= fst (decode_bucket buckets len'))%Z /\
  (snd (decode_bucket buckets len) = true ->
   snd (decode_bucket buckets len') = true).
Proof.
  intros Hle.
  destruct (decode_bucket_cases buckets len)
    as [(i & (Hi & Hfit & Hfirst) & ->)|[Hnone ->]];
    destruct (decode_bucket_cases buckets len')
      as [(i' & (Hi' & Hfit' & Hfirst') & ->)|[Hnone' ->]]; cbn [fst snd].
  - split; [|discriminate].
    destruct (Nat.le_gt_cases i i') as [|Hlt]; [lia|].
    specialize (Hfirst i' Hlt). lia.
  - split; [lia | discriminate].
  - exfalso.
    specialize (Hnone (nth i' buckets (0, 0))%nat (nth_In _ _ Hi')). lia.
  - split; [lia | reflexivity].
Qed.

Lemma decode_bucket_monotone_witness :
  (fst (decode_bucket _buckets 6) <= fst (decode_bucket _buckets 9))%Z /\
  (snd (decode_bucket _buckets 6) = true ->
   snd (decode_bucket _buckets 9) = true).
Proof. apply (decode_bucket_monotone _buckets 6 9). lia. Defined.

(* ------------------------------------------------------------------ *)
(** ** Greedy outputs of the evaluation pass *)

Lemma mapM_Forall2 {A B} (f : A -> result B) (R : A -> B -> Prop)
      (l : list A) :
  (forall x, In x l -> exists y, f x = Ok y /\ R x y) ->
  exists ys, mapM f l = Ok ys /\ Forall2 R l ys.
Proof.
  induction l as [|x l IH]; intros H.
  - exists []. split; [reflexivity | constructor].
  - destruct (H x (or_introl eq_refl)) as (y & Hy & HR).
    destruct IH as (ys & Hys & Hall); [intros; apply H; now right|].
    exists (y :: ys). simpl. rewrite Hy, Hys. simpl.
    split; [reflexivity | now constructor].
Qed.

Lemma Forall2_nth_rel {A B} (R : A -> B -> Prop) (l1 : list A)
      (l2 : list B) (d1 : A) (d2 : B) (i : nat) :
  Forall2 R l1 l2 -> (i < length l1)%nat -> R (nth i l1 d1) (nth i l2 d2).
Proof.
  intros H; revert i; induction H as [|x y l1 l2 HR _ IH]; intros i Hi.
  - simpl in Hi. lia.
  - destruct i; simpl in *; [assumption | apply IH; lia].
Qed.

Lemma transpose_nth (m : list (list Z)) (width b : nat) :
  m <> [] -> Forall (fun row => length row = width) m -> (b < width)%nat ->
  length (transpose m) = width /\
  nth b (transpose m) [] = map (fun row => nth b row 0%Z) m.
Proof.
  intros Hne Hrows Hb. destruct m as [|r rest]; [congruence|].
  apply Forall_inv in Hrows as Hr. unfold transpose. rewrite Hr.
  split; [now rewrite length_map, length_seq|].
  now rewrite nth_map_seq.
Qed.

(** X15.  The greedy outputs of line 194 are the logits decoded and
    turned over.  For logits over at least one timestep, every timestep
    holding one non-empty vocabulary vector per batch position, the
    result has one row per batch position, every row has one id per
    timestep, and the id of row [b] at timestep [t] is the first index of
    the maximum of the vector that timestep [t] holds for batch position
    [b]. *)
Theorem greedy_outputs_shape
        (output_logits : list (list (list Q))) (batch : nat) :
  output_logits <> [] ->
  Forall (fun step => length step = batch) output_logits ->
  Forall (Forall (fun vector => vector <> [])) output_logits ->
  exists outputs,
    greedy_outputs output_logits = Ok outputs /\
    length outputs = batch /\
    (forall b, (b < batch)%nat ->
               length (nth b outputs []) = length output_logits) /\
    (forall b t, (b < batch)%nat -> (t < length output_logits)%nat ->
       exists k,
         nth t (nth b outputs []) 0%Z = Z.of_nat k /\
         is_first_argmax (nth b (nth t output_logits []) []) k).
Proof.
  intros Hne Hbatch Hvec.
  destruct (mapM_Forall2
              (mapM argmax)
              (Forall2 (fun v id => exists k, id = Z.of_nat k
                                              /\ is_first_argmax v k))
              output_logits) as (am & Ham & Hrel).
  { intros step Hin. apply mapM_argmax.
    rewrite Forall_forall in Hvec. now apply Hvec. }
  assert (am <> []) as Hamne.
  { intros ->. inversion Hrel. congruence. }
  assert (Forall (fun row => length row = batch) am) as Hrows.
  { clear Ham Hamne Hne Hvec.
    induction Hrel as [|step row logits am Hsr _ IH]; constructor.
    - apply Forall2_length in Hsr. apply Forall_inv in Hbatch. lia.
    - apply IH. now apply Forall_inv_tail in Hbatch. }
  pose proof (Forall2_length Hrel) as Hlen.
  exists (transpose am).
  split.
  { unfold greedy_outputs. destruct output_logits; [congruence|].
    rewrite Ham. reflexivity. }
  destruct batch as [|batch'].
  { split.
    - destruct am as [|r rest]; [congruence|].
      apply Forall_inv in Hrows. unfold transpose. rewrite Hrows. reflexivity.
    - split; intros; lia. }
  set (batch := S batch') in *.
  split; [apply (transpose_nth am batch 0 Hamne Hrows); lia|].
  split.
  - intros b Hb.
    destruct (transpose_nth am batch b Hamne Hrows Hb) as [_ ->].
    rewrite length_map. lia.
  - intros b t Hb Ht.
    destruct (transpose_nth am batch b Hamne Hrows Hb) as [_ ->].
    assert (nth t (map (fun row => nth b row 0%Z) am) 0%Z
            = nth b (nth t am []) 0%Z) as ->.
    { rewrite (nth_indep _ 0%Z (nth b [] 0%Z))
        by (rewrite length_map; lia).
      exact (map_nth (fun row => nth b row 0%Z) am [] t). }
    pose proof (Forall2_nth_rel _ _ _ [] [] t Hrel Ht) as Hstep.
    assert (b < length (nth t output_logits []))%nat as Hb'.
    { rewrite Forall_forall in Hbatch.
      rewrite (Hbatch (nth t output_logits [])); [exact Hb|].
      now apply nth_In. }
    exact (Forall2_nth_rel _ _ _ [] 0%Z b Hstep Hb').
Qed.

Lemma greedy_outputs_shape_witness :
  exists outputs,
    greedy_outputs
      [[Sample.one_hot 4; Sample.one_hot 5];
       [Sample.one_hot 2; Sample.one_hot 4];
       [Sample.one_hot 5; Sample.one_hot 2]]
    = Ok outputs /\
    length outputs = 2%nat /\
    (forall b, (b < 2)%nat -> length (nth b outputs []) = 3%nat) /\
    (forall b t, (b < 2)%nat -> (t < 3)%nat ->
       exists k,
         nth t (nth b outputs []) 0%Z = Z.of_nat k /\
         is_first_argmax
           (nth b (nth t [[Sample.one_hot 4; Sample.one_hot 5];
                          [Sample.one_hot 2; Sample.one_hot 4];
                          [Sample.one_hot 5; Sample.one_hot 2]] []) []) k).
Proof.
  apply (greedy_outputs_shape
           [[Sample.one_hot 4; Sample.one_hot 5];
            [Sample.one_hot 2; Sample.one_hot 4];
            [Sample.one_hot 5; Sample.one_hot 2]] 2).
  - discriminate.
  - repeat constructor.
  - repeat constructor; discriminate.
Defined.

Example greedy_outputs_two_positions :
  greedy_outputs
    [[Sample.one_hot 4; Sample.one_hot 5];
     [Sample.one_hot 2; Sample.one_hot 4];
     [Sample.one_hot 5; Sample.one_hot 2]]
  = Ok [[4; 2; 5]; [5; 4; 2]]%Z.
Proof. reflexivity. Qed.

(* ------------------------------------------------------------------ *)
(** ** The decode loop: which lines fail, and what a failure does *)

Lemma mapM_lookup_missing (i2w : Z -> option string) (ids : list Z) :
  (exists id, In id ids /\ i2w id = None) ->
  mapM (lookup i2w) ids = Raise LookupError.
Proof.
  induction ids as [|id ids IH]; intros (bad & Hin & Hbad).
  - destruct Hin.
  - simpl. unfold lookup at 1. destruct (i2w id) as [w|] eqn:E.
    + destruct Hin as [->|Hin]; [congruence|].
      simpl. rewrite IH by eauto. reflexivity.
    + reflexivity.
Qed.

(** X16.  Which lines the decode loop can answer.  For logits made of
    non-empty vectors the loop body returns normally as soon as the table
    knows every id that comes before the first end marker; ids after the
    marker are never looked up.  If the table misses one of the ids before
    the marker the body raises [LookupError] after the model step: no
    line is printed for the sentence and the prompt is not shown again. *)
Theorem decode_sentence_needs_kept_ids
        (EOS_ID : Z) (i2w : Z -> option string) (rq : request) :
  Forall (fun logit => logit <> []) (Decoder.output_logits rq) ->
  exists ids kept,
    Forall2 (fun logit id => exists k, id = Z.of_nat k /\ is_first_argmax logit k)
            (Decoder.output_logits rq) ids /\
    cut_at_first EOS_ID ids kept /\
    ((forall id, In id kept -> i2w id <> None) ->
     outcome (decode_sentence EOS_ID i2w rq) = Ok tt) /\
    ((exists id, In id kept /\ i2w id = None) ->
     outcome (decode_sentence EOS_ID i2w rq) = Raise LookupError /\
     (forall s, ~ In (PrintLine s) (trace (decode_sentence EOS_ID i2w rq))) /\
     ~ In Prompt (trace (decode_sentence EOS_ID i2w rq))).
Proof.
  intros Hne.
  destruct (mapM_argmax _ Hne) as (ids & Hids & Hargmax).
  destruct (cut_at_eos_list EOS_ID ids) as (kept & Hcut & Hkept).
  exists ids, kept. split; [exact Hargmax|]. split; [exact Hkept|].
  unfold decode_sentence, decode_outputs.
  rewrite Hids. cbn [bind]. rewrite Hcut.
  destruct (decode_bucket _buckets (length (token_ids rq)))
    as [bucket_id truncated].
  split.
  - intros Hknown.
    destruct (mapM_lookup i2w kept Hknown) as (words & Hwords & _).
    destruct truncated;
      cbn [bindM emit lift ret app]; unfold join_tokens; cbn [items];
      rewrite Hwords; reflexivity.
  - intros Hmissing. apply mapM_lookup_missing in Hmissing.
    destruct truncated;
      cbn [bindM emit lift ret app]; unfold join_tokens; cbn [items];
      rewrite Hmissing; cbn [bind bindM emit lift ret app trace outcome fst snd];
      (split; [reflexivity|]); split.
    + intros s [H|[H|[H|[]]]]; discriminate.
    + intros [H|[H|[H|[]]]]; discriminate.
    + intros s [H|[H|[]]]; discriminate.
    + intros [H|[H|[]]]; discriminate.
Qed.

Lemma decode_sentence_needs_kept_ids_witness :
  exists ids kept,
    Forall2 (fun logit id => exists k, id = Z.of_nat k /\ is_first_argmax logit k)
            (Decoder.output_logits
               {| sentence := "ab"; token_ids := [4; 5]%Z;
                  Decoder.output_logits :=
                    [Sample.one_hot 5; Sample.one_hot 2;
                     [0; 0; 0; 0; 0; 0; 1]] |})
            ids /\
    cut_at_first Sample.EOS_ID ids kept /\
    ((forall id, In id kept -> Sample.i2w id <> None) ->
     outcome (decode_sentence Sample.EOS_ID Sample.i2w
                {| sentence := "ab"; token_ids := [4; 5]%Z;
                   Decoder.output_logits :=
                     [Sample.one_hot 5; Sample.one_hot 2;
                      [0; 0; 0; 0; 0; 0; 1]] |})
     = Ok tt) /\
    ((exists id, In id kept /\ Sample.i2w id = None) ->
     outcome (decode_sentence Sample.EOS_ID Sample.i2w
                {| sentence := "ab"; token_ids := [4; 5]%Z;
                   Decoder.output_logits :=
                     [Sample.one_hot 5; Sample.one_hot 2;
                      [0; 0; 0; 0; 0; 0; 1]] |})
     = Raise LookupError /\
     (forall s,
         ~ In (PrintLine s)
              (trace (decode_sentence Sample.EOS_ID Sample.i2w
                        {| sentence := "ab"; token_ids := [4; 5]%Z;
                           Decoder.output_logits :=
                             [Sample.one_hot 5; Sample.one_hot 2;
                              [0; 0; 0; 0; 0; 0; 1]] |}))) /\
     ~ In Prompt
          (trace (decode_sentence Sample.EOS_ID Sample.i2w
                    {| sentence := "ab"; token_ids := [4; 5]%Z;
                       Decoder.output_logits :=
                         [Sample.one_hot 5; Sample.one_hot 2;
                          [0; 0; 0; 0; 0; 0; 1]] |}))).
Proof.
  apply (decode_sentence_needs_kept_ids
           Sample.EOS_ID Sample.i2w
           {| sentence := "ab"; token_ids := [4; 5]%Z;
              Decoder.output_logits :=
                [Sample.one_hot 5; Sample.one_hot 2;
                 [0; 0; 0; 0; 0; 0; 1]] |}).
  repeat constructor; discriminate.
Defined.

(** An id the table does not know is harmless after the end marker and
    fatal before it. *)
Example unknown_id_after_and_before_marker :
  decode_sentence Sample.EOS_ID Sample.i2w
    {| sentence := "ab"; token_ids := [4; 5]%Z;
       Decoder.output_logits :=
         [Sample.one_hot 5; Sample.one_hot 2; [0; 0; 0; 0; 0; 0; 1]] |}
  = ([GetDevBatch 0; ModelStep 0 true; PrintLine "river"; Prompt; Flush],
     Ok tt) /\
  decode_sentence Sample.EOS_ID Sample.i2w
    {| sentence := "ab"; token_ids := [4; 5]%Z;
       Decoder.output_logits :=
         [Sample.one_hot 5; [0; 0; 0; 0; 0; 0; 1]; Sample.one_hot 2] |}
  = ([GetDevBatch 0; ModelStep 0 true], Raise LookupError).
Proof. split; reflexivity. Qed.

(** X17.  The decode loop ends at the first line that fails.  When the
    lines so far were answered and the next one raises, the loop raises
    the same exception; its events are those of the answered lines and of
    the failing one, and the lines after it are never read. *)
Theorem decode_stops_at_first_failure
        (EOS_ID : Z) (i2w : Z -> option string)
        (answered : list request) (failing : request) (rest : list request)
        (t : list event) (e : exn) :
  outcome (decode EOS_ID i2w answered) = Ok tt ->
  decode_sentence EOS_ID i2w failing = (t, Raise e) ->
  decode EOS_ID i2w (answered ++ failing :: rest)
  = (trace (decode EOS_ID i2w answered) ++ t, Raise e).
Proof.
  intros Hok Hfail. unfold decode in *. rewrite forM_app.
  destruct (forM answered (decode_sentence EOS_ID i2w)) as [t0 r0].
  simpl in Hok. subst r0. cbn [bindM forM trace fst]. rewrite Hfail.
  reflexivity.
Qed.

Lemma decode_stops_at_first_failure_witness :
  decode Sample.EOS_ID Sample.i2w
         ([Sample.request_8]
            ++ {| sentence := "ab"; token_ids := [4; 5]%Z;
                  Decoder.output_logits := [[0; 0; 0; 0; 0; 0; 1]] |}
            :: [Sample.request_20])
  = (trace (decode Sample.EOS_ID Sample.i2w [Sample.request_8])
       ++ [GetDevBatch 0; ModelStep 0 true],
     Raise LookupError).
Proof.
  apply (decode_stops_at_first_failure
           Sample.EOS_ID Sample.i2w [Sample.request_8]
           {| sentence := "ab"; token_ids := [4; 5]%Z;
              Decoder.output_logits := [[0; 0; 0; 0; 0; 0; 1]] |}
           [Sample.request_20]).
  - reflexivity.
  - reflexivity.
Defined.

(* ------------------------------------------------------------------ *)
(** ** The report of one sampled batch position *)

(** X18.  When the report of a batch position works.  If the sampled
    source and target are Python lists, the sampled row of generated ids
    holds no end marker and the table knows every id involved, the report
    returns normally and prints exactly four lines: the heading, the
    source cut at its first end marker, the generated row whole, and the
    target cut at its first end marker. *)
Theorem show_example_reports_three_sequences
        (EOS_ID : Z) (i2w : Z -> option string) (batch_size : Z)
        (source target : list pyseq) (outputs : list (list Z)) (raw : nat)
        (index_to_show : Z) (src tgt out_row : list Z) :
  randint 0 (batch_size - 1) raw = Ok index_to_show ->
  getitem source index_to_show = Ok (PyList src) ->
  getitem target index_to_show = Ok (PyList tgt) ->
  getitem outputs index_to_show = Ok out_row ->
  ~ In EOS_ID out_row ->
  (forall id, In id src \/ In id out_row \/ In id tgt -> i2w id <> None) ->
  exists src_kept tgt_kept src_words out_words tgt_words,
    cut_at_first EOS_ID src src_kept /\
    cut_at_first EOS_ID tgt tgt_kept /\
    Forall2 (fun id w => i2w id = Some w) src_kept src_words /\
    Forall2 (fun id w => i2w id = Some w) out_row out_words /\
    Forall2 (fun id w => i2w id = Some w) tgt_kept tgt_words /\
    show_example EOS_ID i2w batch_size source target outputs raw
    = ([PrintLine "Original / generated / target text: ";
        PrintLine (String.concat " " src_words);
        PrintLine (String.concat " " out_words);
        PrintLine (String.concat " " tgt_words)],
       Ok tt).
Proof.
  intros Hidx Hsrc Htgt Hrow Hno Hknown.
  destruct (cut_at_eos_list EOS_ID src) as (src_kept & Hcs & Hks).
  destruct (cut_at_eos_list EOS_ID tgt) as (tgt_kept & Hct & Hkt).
  pose proof (proj2 (cut_at_eos_ndarray EOS_ID out_row) Hno) as Hco.
  destruct (mapM_lookup i2w src_kept) as (ws & Hws & Hfs).
  { intros id Hin. apply Hknown. left.
    now apply (cut_at_first_incl _ _ _ Hks). }
  destruct (mapM_lookup i2w out_row) as (wo & Hwo & Hfo).
  { intros id Hin. apply Hknown. right. now left. }
  destruct (mapM_lookup i2w tgt_kept) as (wt & Hwt & Hft).
  { intros id Hin. apply Hknown. right. right.
    now apply (cut_at_first_incl _ _ _ Hkt). }
  exists src_kept, tgt_kept, ws, wo, wt.
  repeat (split; [assumption|]).
  unfold show_example.
  rewrite Hidx, bindM_lift_ok, Hsrc, bindM_lift_ok, Htgt, bindM_lift_ok.
  rewrite Hrow, bindM_lift_ok, Hcs, bindM_lift_ok.
  cbn [bindM emit lift ret app]. unfold join_tokens. cbn [items].
  rewrite Hws. cbn [bind bindM emit lift ret app].
  rewrite Hco. cbn [bind bindM emit lift ret app items].
  rewrite Hwo. cbn [bind bindM emit lift ret app].
  rewrite Hct. cbn [bind bindM emit lift ret app items].
  rewrite Hwt. reflexivity.
Qed.

Lemma show_example_reports_three_sequences_witness :
  exists src_kept tgt_kept src_words out_words tgt_words,
    cut_at_first Sample.EOS_ID [4; 5; 2]%Z src_kept /\
    cut_at_first Sample.EOS_ID [5; 2; 4]%Z tgt_kept /\
    Forall2 (fun id w => Sample.i2w id = Some w) src_kept src_words /\
    Forall2 (fun id w => Sample.i2w id = Some w) [4; 5; 5]%Z out_words /\
    Forall2 (fun id w => Sample.i2w id = Some w) tgt_kept tgt_words /\
    show_example Sample.EOS_ID Sample.i2w 1
                 [PyList [4; 5; 2]%Z] [PyList [5; 2; 4]%Z] [[4; 5; 5]%Z] 0
    = ([PrintLine "Original / generated / target text: ";
        PrintLine (String.concat " " src_words);
        PrintLine (String.concat " " out_words);
        PrintLine (String.concat " " tgt_words)],
       Ok tt).
Proof.
  apply (show_example_reports_three_sequences
           Sample.EOS_ID Sample.i2w 1
           [PyList [4; 5; 2]%Z] [PyList [5; 2; 4]%Z] [[4; 5; 5]%Z] 0 0%Z).
  - reflexivity.
  - reflexivity.
  - reflexivity.
  - reflexivity.
  - simpl. intros [H|[H|[H|[]]]]; discriminate.
  - intros id H. simpl in H.
    decompose [or] H; subst; try discriminate; contradiction.
Defined.

Lemma randint_in_range (batch_size : Z) (raw : nat) :
  (0 < batch_size)%Z ->
  exists index_to_show,
    randint 0 (batch_size - 1) raw = Ok index_to_show /\
    (0 <= index_to_show < batch_size)%Z.
Proof.
  intros Hpos. unfold randint.
  rewrite (proj2 (Z.ltb_ge (batch_size - 1) 0)) by lia.
  eexists. split; [reflexivity|].
  replace (batch_size - 1 - 0 + 1)%Z with batch_size by lia.
  pose proof (Z.mod_pos_bound (Z.of_nat raw) batch_size Hpos). lia.
Qed.

Lemma getitem_in_range {A} (l : list A) (i : Z) :
  (0 <= i < Z.of_nat (length l))%Z -> exists x, getitem l i = Ok x.
Proof.
  intros Hi.
  destruct (nth_error l (Z.to_nat i)) as [x|] eqn:E.
  - exists x. rewrite <- (Z2Nat.id i) by lia. now apply getitem_nth_error.
  - apply nth_error_None in E. lia.
Qed.

Lemma getitem_beyond {A} (l : list A) (i : Z) :
  (Z.of_nat (length l) <= i)%Z -> (0 <= i)%Z -> getitem l i = Raise LookupError.
Proof.
  intros Hi H0. unfold getitem. cbv zeta.
  rewrite (proj2 (Z.ltb_ge i 0)) by lia. cbv iota.
  rewrite (proj2 (Z.ltb_ge i 0)) by lia.
  rewrite (proj2 (Z.leb_le (Z.of_nat (length l)) i)) by lia.
  reflexivity.
Qed.

(** X19.  The sampled position and a batch that is too short.  The
    position is drawn among [batch_size] positions whatever the batch
    holds: when the batch has no source row at the drawn position, line
    199 raises the lookup error of an index out of range, before anything
    is printed. *)
Theorem show_example_row_missing
        (EOS_ID : Z) (i2w : Z -> option string) (batch_size : Z)
        (source target : list pyseq) (outputs : list (list Z)) (raw : nat) :
  (0 < batch_size)%Z ->
  (Z.of_nat (length source) <= Z.of_nat raw mod batch_size)%Z ->
  randint 0 (batch_size - 1) raw = Ok (Z.of_nat raw mod batch_size)%Z /\
  getitem source (Z.of_nat raw mod batch_size) = Raise LookupError /\
  show_example EOS_ID i2w batch_size source target outputs raw
  = ([], Raise LookupError).
Proof.
  intros Hpos Hshort.
  destruct (randint_in_range batch_size raw Hpos) as (idx & Hidx & Hrange).
  assert (idx = Z.of_nat raw mod batch_size)%Z as Hval.
  { unfold randint in Hidx.
    rewrite (proj2 (Z.ltb_ge (batch_size - 1) 0)) in Hidx by lia.
    injection Hidx as <-. f_equal. lia. }
  subst idx. split; [exact Hidx|].
  split; [apply getitem_beyond; lia|].
  unfold show_example.
  rewrite Hidx, bindM_lift_ok, getitem_beyond by lia. reflexivity.
Qed.

Lemma show_example_row_missing_witness :
  randint 0 (2 - 1) 3 = Ok (Z.of_nat 3 mod 2)%Z /\
  getitem [PyList [4; 2]%Z] (Z.of_nat 3 mod 2) = Raise LookupError /\
  show_example Sample.EOS_ID Sample.i2w 2
               [PyList [4; 2]%Z] [PyList [5; 2]%Z] [[4; 5]%Z] 3
  = ([], Raise LookupError).
Proof.
  apply (show_example_row_missing
           Sample.EOS_ID Sample.i2w 2
           [PyList [4; 2]%Z] [PyList [5; 2]%Z] [[4; 5]%Z] 3).
  - lia.
  - vm_compute. discriminate.
Defined.

(** X21.  The sampled position and a full batch.  When source, target and
    outputs all hold at least [batch_size] rows, the position drawn lies
    among the first [batch_size] rows and the three indexings of lines
    199-201 find their rows; if moreover the source row is a Python list
    the report gets as far as printing its heading. *)
Theorem show_example_rows_found
        (EOS_ID : Z) (i2w : Z -> option string) (batch_size : Z)
        (source target : list pyseq) (outputs : list (list Z)) (raw : nat) :
  (0 < batch_size)%Z ->
  (batch_size <= Z.of_nat (length source))%Z ->
  (batch_size <= Z.of_nat (length target))%Z ->
  (batch_size <= Z.of_nat (length outputs))%Z ->
  exists index_to_show ori_text target_text out_row,
    randint 0 (batch_size - 1) raw = Ok index_to_show /\
    (0 <= index_to_show < batch_size)%Z /\
    getitem source index_to_show = Ok ori_text /\
    getitem target index_to_show = Ok target_text /\
    getitem outputs index_to_show = Ok out_row /\
    (forall l, ori_text = PyList l ->
       exists rest,
         trace (show_example EOS_ID i2w batch_size source target outputs raw)
         = PrintLine "Original / generated / target text: " :: rest).
Proof.
  intros Hpos Hs Ht Ho.
  destruct (randint_in_range batch_size raw Hpos) as (idx & Hidx & Hrange).
  destruct (getitem_in_range source idx) as (ori & Hori); [lia|].
  destruct (getitem_in_range target idx) as (tgt & Htgt); [lia|].
  destruct (getitem_in_range outputs idx) as (row & Hrow); [lia|].
  exists idx, ori, tgt, row.
  repeat (split; [assumption|]).
  intros l ->. unfold show_example.
  rewrite Hidx, bindM_lift_ok, Hori, bindM_lift_ok, Htgt, bindM_lift_ok.
  rewrite Hrow, bindM_lift_ok.
  destruct (cut_at_eos_list EOS_ID l) as (kept & -> & _).
  rewrite bindM_lift_ok.
  cbn [bindM emit].
  match goal with
  | |- context [let (_, _) := ?m in _] => destruct m as [t r]
  end.
  exists t. reflexivity.
Qed.

Lemma show_example_rows_found_witness :
  exists index_to_show ori_text target_text out_row,
    randint 0 (2 - 1) 3 = Ok index_to_show /\
    (0 <= index_to_show < 2)%Z /\
    getitem [PyList [4; 2]%Z; PyList [5; 4; 2]%Z] index_to_show
    = Ok ori_text /\
    getitem [PyList [5; 2]%Z; PyList [4; 2]%Z] index_to_show
    = Ok target_text /\
    getitem [[4; 5]%Z; [5; 5]%Z] index_to_show = Ok out_row /\
    (forall l, ori_text = PyList l ->
       exists rest,
         trace (show_example Sample.EOS_ID Sample.i2w 2
                             [PyList [4; 2]%Z; PyList [5; 4; 2]%Z]
                             [PyList [5; 2]%Z; PyList [4; 2]%Z]
                             [[4; 5]%Z; [5; 5]%Z] 3)
         = PrintLine "Original / generated / target text: " :: rest).
Proof.
  apply (show_example_rows_found
           Sample.EOS_ID Sample.i2w 2
           [PyList [4; 2]%Z; PyList [5; 4; 2]%Z]
           [PyList [5; 2]%Z; PyList [4; 2]%Z]
           [[4; 5]%Z; [5; 5]%Z] 3).
  - lia.
  - simpl. lia.
  - simpl. lia.
  - simpl. lia.
Defined.

(** A batch of one row reported with a batch size of two: the draw of the
    second position finds no row; with two rows the second one is
    reported; and a batch size of zero makes [randint] raise. *)
Example show_example_short_batch :
  show_example Sample.EOS_ID Sample.i2w 2
               [PyList [4; 2]%Z] [PyList [5; 2]%Z] [[4; 5]%Z] 3
  = ([], Raise LookupError) /\
  show_example Sample.EOS_ID Sample.i2w 2
               [PyList [4; 2]%Z; PyList [5; 4; 2]%Z]
               [PyList [5; 2]%Z; PyList [4; 2]%Z]
               [[4; 5]%Z; [5; 5]%Z] 3
  = ([PrintLine "Original / generated / target text: ";
      PrintLine "river moon"; PrintLine "river river"; PrintLine "moon"],
     Ok tt) /\
  show_example Sample.EOS_ID Sample.i2w 0
               [PyList [4; 2]%Z] [PyList [5; 2]%Z] [[4; 5]%Z] 3
  = ([], Raise ValueError).
Proof. repeat split. Qed.

(* ------------------------------------------------------------------ *)
(** ** The decode loop: one answer per line *)

Lemma lines_printed_app (a b : list event) :
  lines_printed (a ++ b) = lines_printed a ++ lines_printed b.
Proof. unfold lines_printed. apply flat_map_app. Qed.

Lemma prompts_app (a b : list event) :
  prompts (a ++ b) = (prompts a + prompts b)%nat.
Proof. unfold prompts. now rewrite filter_app, length_app. Qed.

(** A line that is answered is answered with one printed line and one
    prompt. *)
Lemma decode_sentence_answer
      (EOS_ID : Z) (i2w : Z -> option string) (rq : request) :
  outcome (decode_sentence EOS_ID i2w rq) = Ok tt ->
  length (lines_printed (trace (decode_sentence EOS_ID i2w rq))) = 1%nat /\
  prompts (trace (decode_sentence EOS_ID i2w rq)) = 1%nat.
Proof.
  unfold decode_sentence.
  destruct (decode_bucket _buckets (length (token_ids rq)))
    as [bucket_id truncated].
  destruct (decode_outputs EOS_ID (Decoder.output_logits rq)) as [outputs|e];
    [|destruct truncated; discriminate].
  destruct truncated; cbn [bindM emit lift ret app];
    (destruct (join_tokens i2w outputs) as [line|e]; [|discriminate]);
    intros _; split; reflexivity.
Qed.

(** X20.  One answer per line.  When the decode loop returns, it has
    printed exactly one line and shown exactly one prompt for every line
    it read. *)
Theorem decode_answers_every_line
        (EOS_ID : Z) (i2w : Z -> option string) (rqs : list request) :
  outcome (decode EOS_ID i2w rqs) = Ok tt ->
  length (lines_printed (trace (decode EOS_ID i2w rqs))) = length rqs /\
  prompts (trace (decode EOS_ID i2w rqs)) = length rqs.
Proof.
  unfold decode. induction rqs as [|rq rqs IH]; [split; reflexivity|].
  cbn [forM].
  pose proof (decode_sentence_answer EOS_ID i2w rq) as Hrq.
  destruct (decode_sentence EOS_ID i2w rq) as [t [[]|e]];
    cbn [bindM trace outcome fst snd] in *; [|discriminate].
  destruct (forM rqs (decode_sentence EOS_ID i2w)) as [t' r'];
    cbn [trace outcome fst snd] in *.
  intros Hok. destruct (Hrq eq_refl) as [H1 H2].
  destruct (IH Hok) as [IH1 IH2].
  rewrite lines_printed_app, length_app, prompts_app. simpl length. lia.
Qed.

Lemma decode_answers_every_line_witness :
  length (lines_printed
            (trace (decode Sample.EOS_ID Sample.i2w
                           [Sample.request_8; Sample.request_20])))
  = length [Sample.request_8; Sample.request_20] /\
  prompts (trace (decode Sample.EOS_ID Sample.i2w
                         [Sample.request_8; Sample.request_20]))
  = length [Sample.request_8; Sample.request_20].
Proof.
  apply (decode_answers_every_line
           Sample.EOS_ID Sample.i2w [Sample.request_8; Sample.request_20]).
  reflexivity.
Defined.
